(** * H2CarnageReport: ranking, series detection and checkpoint logic

    A shallow embedding of the ranking core of [populate_stats.py]
    (with the rank lookup of [STATSRANKS_new.py]) and the properties
    established about it.

    Modelling conventions
    - Python [str] is [string], a sequence of bytes.  Names and stamps are
      taken to be ASCII text, on which [len], [str.lower] and [str.strip]
      as modelled here agree with Python's.
    - Python [dict] with string keys is [gmap string _]; [d[k]] on a missing
      key raises [KeyError], modelled by the [result] type; [d.get(k, v)] is
      a lookup with a default.
    - [frozenset] of strings is [gset string].
    - Python [int] is [Z].  The XP multipliers are JSON numbers written
      with a decimal point, as the defaults [1.0] and [0.50] of the code
      are; a table holds their decimal values as exact rationals [Q].
    - Python [float] is IEEE 754 binary64, as [SpecFloat] of the standard
      library specifies it: a JSON number is read as the nearest binary64
      number, [n * x] is the correctly rounded binary64 product and
      [int(x)] truncates it toward zero. *)

From Stdlib Require Import ZArith QArith Qround Lia Bool List Sorted Ascii String.
From Stdlib Require Import Floats.SpecFloat.
From stdpp Require Import base option list gmap strings pretty.

Local Open Scope Z_scope.

(** ** Python strings *)

Module PyStr.

Definition lower_ascii (c : ascii) : ascii :=
  let n := N_of_ascii c in
  if ((65 <=? n) && (n <=? 90))%N then ascii_of_N (n + 32) else c.

(** [s.lower()] *)
Fixpoint lower (s : string) : string :=
  match s with
  | EmptyString => EmptyString
  | String c s' => String (lower_ascii c) (lower s')
  end.

Definition is_space (c : ascii) : bool :=
  let n := N_of_ascii c in
  (((9 <=? n) && (n <=? 13)) || ((28 <=? n) && (n <=? 32)))%N.

Fixpoint lstrip (s : string) : string :=
  match s with
  | EmptyString => EmptyString
  | String c s' => if is_space c then lstrip s' else s
  end.

Fixpoint rstrip (s : string) : string :=
  match s with
  | EmptyString => EmptyString
  | String c s' =>
      match rstrip s' with
      | EmptyString => if is_space c then EmptyString else String c EmptyString
      | r => String c r
      end
  end.

(** [s.strip()] *)
Definition strip (s : string) : string := rstrip (lstrip s).

(** [needle in hay] *)
Fixpoint contains (needle hay : string) : bool :=
  String.prefix needle hay ||
  match hay with
  | EmptyString => false
  | String _ hay' => contains needle hay'
  end.

(** [len(s)] *)
Definition len (s : string) : Z := Z.of_nat (String.length s).

(** [x in l] for a list of strings *)
Definition mem (x : string) (l : list string) : bool :=
  existsb (String.eqb x) l.

(** [str(n)] for an integer *)
Definition str (n : Z) : string := pretty n.

(** Two characters that differ at most by ASCII letter case. *)
Definition ascii_eq_nocase (a b : ascii) : Prop :=
  a = b \/ lower_ascii a = b \/ a = lower_ascii b.

(** Two strings that differ at most by ASCII letter case, position by
    position. *)
Fixpoint eq_nocase (s t : string) : Prop :=
  match s, t with
  | EmptyString, EmptyString => True
  | String a s', String b t' => ascii_eq_nocase a b /\ eq_nocase s' t'
  | _, _ => False
  end.

(** Stable sort, as [sorted(l, key=...)]: insertion after every element
    that is not greater. *)
Section Sorted.
Context {A : Type} (le : A -> A -> bool).

Fixpoint insert_sorted (x : A) (l : list A) : list A :=
    match l with
    | [] => [x]
    | y :: l' => if le y x then y :: insert_sorted x l' else x :: l
    end.

Definition sorted (l : list A) : list A :=
    fold_left (fun acc x => insert_sorted x acc) l [].
End Sorted.

End PyStr.

(** ** Errors *)

Inductive result (A : Type) : Type :=
| Ok (a : A)
| KeyError (key : string).
Arguments Ok {A} a.
Arguments KeyError {A} key.

#[global] Instance result_bind : MBind result := fun A B f r =>
  match r with
  | Ok a => f a
  | KeyError k => KeyError k
  end.

#[global] Instance result_ret : MRet result := fun A a => Ok a.

(** [for x in xs: s = f(s, x)], stopping at the first exception *)
Fixpoint foldM {S A} (f : S -> A -> result S) (xs : list A) (s : S) : result S :=
  match xs with
  | [] => mret s
  | x :: xs' => s' ← f s x; foldM f xs' s'
  end.

(** [d[k]] *)
Definition getitem {V} (d : gmap string V) (k : string) : result V :=
  match d !! k with
  | Some v => Ok v
  | None => KeyError k
  end.

(** ** Match records *)

Record player := {
  name : string;
  team : string;
  score_numeric : Z;
  kills : Z;
  deaths : Z;
  assists : Z;
  head_shots : Z
}.

(** The [details] dict of a parsed game; a missing key is [None]. *)
Record details := {
  Game_Type : option string;
  Variant_Name : option string;
  Map_Name : option string;
  Start_Time : option string;
  End_Time : option string
}.

(** A parsed game as [main] holds it.  [main] always sets the [playlist]
    key; [None] is the null tag of an unranked game. *)
Record game := {
  game_details : details;
  players : list player;
  source_file : string;
  playlist : option string
}.

(** ** Outcome resolver: [determine_winners_losers] *)

(** The [teams] dict, in insertion order: team label, score, roster. *)
Definition teams_t := list (string * (Z * list string)).

Fixpoint teams_add (t : string) (sc : Z) (n : string) (ts : teams_t) : teams_t :=
  match ts with
  | [] => [(t, (0 + sc, [n]))]
  | (t', (s, ps)) :: ts' =>
      if String.eqb t' t then (t', (s + sc, ps ++ [n])) :: ts'
      else (t', (s, ps)) :: teams_add t sc n ts'
  end.

(** The body of the loop over the roster. *)
Definition collect_step (ts : teams_t) (p : player) : teams_t :=
  let t := PyStr.strip (team p) in
  if negb (String.eqb t "") && PyStr.mem t ["Red"; "Blue"]
  then teams_add t (score_numeric p) (name p) ts
  else ts.

Definition collect_teams (ps : list player) : teams_t :=
  fold_left collect_step ps [].

Definition determine_winners_losers (g : game) : list string * list string :=
  match collect_teams (players g) with
  | [a; b] =>
      (* sorted by score, descending, stable *)
      let '(winning_team, losing_team) :=
        if (fst (snd a)) <? (fst (snd b)) then (b, a) else (a, b) in
      if fst (snd winning_team) =? fst (snd losing_team) then ([], [])
      else (snd (snd winning_team), snd (snd losing_team))
  | _ => ([], [])
  end.

(** ** Series detector *)

(** [get_base_gametype] *)
Definition get_base_gametype (game_type_field : string) : string :=
  if String.eqb game_type_field "" then "Unknown"
  else
    let gt := PyStr.lower (PyStr.strip game_type_field) in
    let mapping : list (string * string) :=
      [ ("ctf", "CTF"); ("capture the flag", "CTF");
        ("slayer", "Team Slayer"); ("team slayer", "Team Slayer");
        ("oddball", "Oddball"); ("assault", "Bomb"); ("bomb", "Bomb");
        ("koth", "King of the Hill"); ("king of the hill", "King of the Hill");
        ("king", "King of the Hill"); ("territories", "Territories");
        ("juggernaut", "Juggernaut") ] in
    match List.find (fun kv => String.eqb (fst kv) gt) mapping with
    | Some kv => snd kv
    | None => game_type_field
    end.

(** The names of the roster entries whose [team] field is exactly [t]. *)
Definition roster (t : string) (g : game) : list string :=
  List.map name (List.filter (fun p => String.eqb (team p) t) (players g)).

Definition signature : Type := gset string * gset string.

(** [get_team_signature]: the pair (Red name set, Blue name set), names
    lowercased. *)
Definition get_team_signature (g : game) : signature :=
  let red_team : gset string := list_to_set (List.map PyStr.lower (roster "Red" g)) in
  let blue_team : gset string := list_to_set (List.map PyStr.lower (roster "Blue" g)) in
  (red_team, blue_team).

Inductive side := Red | Blue.

Inductive series_winner := Red_wins | Blue_wins | Tie | Ongoing.

Inductive series_kind := Bo3 | Bo5 | Bo7 | Custom.

(** One entry of a series' [games] list. *)
Record series_game := {
  sg_timestamp : string;
  sg_map : string;
  sg_gametype : string;
  sg_variant_name : string;
  sg_winner : option side;
  sg_source_file : string
}.

Record series := {
  series_id : string;
  series_playlist : option string;
  red_team : list string;
  blue_team : list string;
  games : list series_game;
  red_wins : Z;
  blue_wins : Z;
  start_time : string;
  end_time : string;
  winner : series_winner;
  series_type : series_kind
}.

(** The threshold [wins_needed] that [_finalize_series] derives from the
    number of games. *)
Definition wins_needed (total_games : Z) : Z :=
  if total_games <=? 3 then 2
  else if total_games <=? 5 then 3
  else if total_games <=? 7 then 4
  else total_games / 2 + 1.

Definition series_type_of (total_games : Z) : series_kind :=
  if total_games <=? 3 then Bo3
  else if total_games <=? 5 then Bo5
  else if total_games <=? 7 then Bo7
  else Custom.

Definition _finalize_series (s : series) : series :=
  let total_games := Z.of_nat (length (games s)) in
  let needed := wins_needed total_games in
  let w :=
    if needed <=? red_wins s then Red_wins
    else if needed <=? blue_wins s then Blue_wins
    else if blue_wins s <? red_wins s then Red_wins
    else if red_wins s <? blue_wins s then Blue_wins
    else Tie in
  {| series_id := series_id s; series_playlist := series_playlist s;
     red_team := red_team s; blue_team := blue_team s; games := games s;
     red_wins := red_wins s; blue_wins := blue_wins s;
     start_time := start_time s; end_time := end_time s;
     winner := w; series_type := series_type_of total_games |}.

(** Which side won one game: the team of the first roster entry whose
    name is among the winners. *)
Definition game_winner (g : game) : option side :=
  let winners := fst (determine_winners_losers g) in
  match winners with
  | [] => None
  | _ =>
      match List.find (fun p => PyStr.mem (name p) winners) (players g) with
      | Some p =>
          if String.eqb (team p) "Red" then Some Red
          else if String.eqb (team p) "Blue" then Some Blue
          else None
      | None => None
      end
  end.

Definition start_time_key (g : game) : string :=
  default "" (Start_Time (game_details g)).

Definition series_entry (g : game) : series_game :=
  {| sg_timestamp := start_time_key g;
     sg_map := default "Unknown" (Map_Name (game_details g));
     sg_gametype := get_base_gametype (default "" (Game_Type (game_details g)));
     sg_variant_name := default "" (Variant_Name (game_details g));
     sg_winner := game_winner g;
     sg_source_file := source_file g |}.

(** The loop state of [detect_series]: the finished series, the open
    series with its [_team_sig], and the counter. *)
Record detect_state := {
  series_list : list series;
  current_series : option (signature * series);
  series_counter : Z
}.

Section DetectSeries.
Variable get_display_name_func : string -> string.

Definition display_team (t : string) (g : game) : list string :=
    PyStr.sorted String.leb (List.map get_display_name_func (roster t g)).

Definition add_game (cs : series) (g : game) : series :=
    let w := game_winner g in
    {| series_id := series_id cs; series_playlist := series_playlist cs;
       red_team := red_team cs; blue_team := blue_team cs;
       games := games cs ++ [series_entry g];
       red_wins := match w with Some Red => red_wins cs + 1 | _ => red_wins cs end;
       blue_wins := match w with Some Blue => blue_wins cs + 1 | _ => blue_wins cs end;
       start_time := start_time cs; end_time := start_time_key g;
       winner := winner cs; series_type := series_type cs |}.

Definition new_series (counter : Z) (g : game) : series :=
    let w := game_winner g in
    {| series_id := "series_" +:+ PyStr.str counter;
       series_playlist := playlist g;
       red_team := display_team "Red" g; blue_team := display_team "Blue" g;
       games := [series_entry g];
       red_wins := match w with Some Red => 1 | _ => 0 end;
       blue_wins := match w with Some Blue => 1 | _ => 0 end;
       start_time := start_time_key g; end_time := start_time_key g;
       winner := Ongoing; series_type := Custom |}.

  (** One iteration of the loop over the sorted games. *)
Definition series_step (st : detect_state) (g : game) : detect_state :=
    let team_sig := get_team_signature g in
    let continues :=
      match current_series st with
      | Some (sig, _) => bool_decide (sig = team_sig)
      | None => false
      end in
    match current_series st, continues with
    | Some (sig, cs), true =>
        {| series_list := series_list st;
           current_series := Some (sig, add_game cs g);
           series_counter := series_counter st |}
    | cur, _ =>
        let closed :=
          match cur with
          | Some (_, cs) => series_list st ++ [_finalize_series cs]
          | None => series_list st
          end in
        let counter := series_counter st + 1 in
        {| series_list := closed;
           current_series := Some (team_sig, new_series counter g);
           series_counter := counter |}
    end.

Definition detect_init : detect_state :=
    {| series_list := []; current_series := None; series_counter := 0 |}.

Definition detect_series (gs : list game) : list series :=
    match gs with
    | [] => []
    | _ =>
        let sorted_games :=
          PyStr.sorted (fun a b => String.leb (start_time_key a) (start_time_key b)) gs in
        let st := fold_left series_step sorted_games detect_init in
        match current_series st with
        | Some (_, cs) => series_list st ++ [_finalize_series cs]
        | None => series_list st
        end
    end.
End DetectSeries.

(** ** Factor table *)

(** Python floats: binary64, that is precision 53 and [emax] 1024 in
    [SpecFloat]. *)

(** [float(n)] for an int, as [n * x] converts its int operand: the
    nearest binary64 number. *)
Definition float_of_int (n : Z) : spec_float := binary_normalize 53 1024 n 0 false.

(** A JSON number with the decimal value [q], as [json.load] reads it: the
    nearest binary64 number, obtained by one correctly rounded division of
    the numerator by the denominator. *)
Definition float_of_json (q : Q) : spec_float :=
  match Qnum q with
  | Z0 => S754_zero false
  | Zpos n => SFdiv 53 1024 (S754_finite false n 0) (S754_finite false (Qden q) 0)
  | Zneg n => SFdiv 53 1024 (S754_finite true n 0) (S754_finite false (Qden q) 0)
  end.

(** [n * x] for an int [n] and a float [x] read from JSON. *)
Definition py_float_mul (n : Z) (x : Q) : spec_float :=
  SFmul 53 1024 (float_of_int n) (float_of_json x).

(** [int(x)] for a float: truncation toward zero.  On an infinity or a
    NaN, which a product reaches only beyond 2^1024, Python raises
    [OverflowError] or [ValueError]; that is outside this model. *)
Definition py_int (x : spec_float) : Z :=
  match x with
  | S754_finite s m e =>
      let v := if 0 <=? e then Z.pos m * 2 ^ e else Z.pos m / 2 ^ (- e) in
      if s then - v else v
  | _ => 0
  end.

(** [get_loss_factor] *)
Definition get_loss_factor (rank : Z) (loss_factors : gmap string Q) : Q :=
  let rank_str := PyStr.str rank in
  if 30 <=? rank then 1%Q
  else default 1%Q (loss_factors !! rank_str).

(** [get_win_factor] *)
Definition get_win_factor (rank : Z) (win_factors : gmap string Q) : Q :=
  let rank_str := PyStr.str rank in
  if rank <=? 40 then 1%Q
  else default (1 # 2)%Q (win_factors !! rank_str).

(** ** Rank table *)

(** The loop [for rank in range(n, 0, -1)] of [calculate_rank]. *)
Fixpoint calculate_rank_from (n : nat) (xp : Z) (rank_thresholds : gmap string (Z * Z)) : Z :=
  match n with
  | O => 1
  | S k =>
      let rank := Z.of_nat n in
      match rank_thresholds !! PyStr.str rank with
      | Some (min_xp, max_xp) =>
          if (min_xp <=? xp) && (xp <=? max_xp) then rank
          else calculate_rank_from k xp rank_thresholds
      | None => calculate_rank_from k xp rank_thresholds
      end
  end.

(** [calculate_rank] of [populate_stats.py] *)
Definition calculate_rank (xp : Z) (rank_thresholds : gmap string (Z * Z)) : Z :=
  calculate_rank_from 50 xp rank_thresholds.

Module STATSRANKS_new.

  (** The table returned by [get_rank_thresholds]: integer keys. *)
Fixpoint calculate_rank_from (n : nat) (xp : Z) (thresholds : gmap Z (Z * Z)) : result Z :=
    match n with
    | O => Ok 1
    | S k =>
        let level := Z.of_nat n in
        match thresholds !! level with
        | Some (min_xp, max_xp) =>
            if min_xp <=? xp then Ok level
            else calculate_rank_from k xp thresholds
        | None => KeyError (PyStr.str level)
        end
    end.

  (** [calculate_rank] of [STATSRANKS_new.py], also [calculate_playlist_rank] *)
Definition calculate_rank (xp : Z) (thresholds : gmap Z (Z * Z)) : result Z :=
    calculate_rank_from 50 xp thresholds.

  (** The default [rank_thresholds] of [get_xp_config]. *)
Definition default_levels : list (Z * (Z * Z)) :=
    [ (1, (0, 88)); (2, (89, 188)); (3, (189, 288)); (4, (289, 388));
      (5, (389, 488)); (6, (489, 588)); (7, (589, 688)); (8, (689, 788));
      (9, (789, 888)); (10, (889, 988)); (11, (989, 1088)); (12, (1089, 1188));
      (13, (1189, 1388)); (14, (1389, 1588)); (15, (1589, 1788));
      (16, (1789, 1988)); (17, (1989, 2238)); (18, (2239, 2488));
      (19, (2489, 2738)); (20, (2739, 2988)); (21, (2989, 3238));
      (22, (3239, 3488)); (23, (3489, 3738)); (24, (3739, 3988));
      (25, (3989, 4238)); (26, (4239, 4488)); (27, (4489, 4738));
      (28, (4739, 4988)); (29, (4989, 5238)); (30, (5239, 5488));
      (31, (5489, 5738)); (32, (5739, 5988)); (33, (5989, 6238));
      (34, (6239, 6488)); (35, (6489, 6738)); (36, (6739, 6988));
      (37, (6989, 7238)); (38, (7239, 7488)); (39, (7489, 7738));
      (40, (7739, 7988)); (41, (7989, 8238)); (42, (8239, 8488));
      (43, (8489, 8738)); (44, (8739, 8988)); (45, (8989, 9238));
      (46, (9239, 9488)); (47, (9489, 9738)); (48, (9739, 9988));
      (49, (9989, 10238)); (50, (10239, 1000000000)) ].

  (** The JSON object, keyed by the decimal string of the level. *)
Definition default_rank_thresholds : gmap string (Z * Z) :=
    list_to_map (List.map (fun kv => (PyStr.str (fst kv), snd kv)) default_levels).

  (** [get_rank_thresholds] on the default configuration. *)
Definition default_thresholds : gmap Z (Z * Z) := list_to_map default_levels.

End STATSRANKS_new.

(** ** Dedicated servers *)

Definition DEDICATED_SERVER_NAMES : list string :=
  ["statsdedi"; "dedi"; "dedicated"; "server"].

Definition is_dedicated_server (player_name : string) : bool :=
  let name_lower := PyStr.lower (PyStr.strip player_name) in
  if PyStr.mem name_lower DEDICATED_SERVER_NAMES then true
  else if PyStr.contains "dedi" name_lower && (PyStr.len name_lower <=? 15) then true
  else false.

(** ** Progression ledger: step 3b of [main] *)

Record xp_config := {
  rank_thresholds : gmap string (Z * Z);
  game_win : Z;
  game_loss : Z;
  loss_factors : gmap string Q;
  win_factors : gmap string Q
}.

(** The six per-name, per-playlist dictionaries of [main]. *)
Record tables := {
  player_playlist_xp : gmap string (gmap string Z);
  player_playlist_wins : gmap string (gmap string Z);
  player_playlist_losses : gmap string (gmap string Z);
  player_playlist_games : gmap string (gmap string Z);
  player_playlist_rank : gmap string (gmap string Z);
  player_playlist_highest_rank : gmap string (gmap string Z)
}.

Inductive field := Fxp | Fwins | Flosses | Fgames | Frank | Fhighest.

Definition sel (f : field) (T : tables) : gmap string (gmap string Z) :=
  match f with
  | Fxp => player_playlist_xp T
  | Fwins => player_playlist_wins T
  | Flosses => player_playlist_losses T
  | Fgames => player_playlist_games T
  | Frank => player_playlist_rank T
  | Fhighest => player_playlist_highest_rank T
  end.

Definition with_field (f : field) (d : gmap string (gmap string Z)) (T : tables) : tables :=
  {| player_playlist_xp := match f with Fxp => d | _ => player_playlist_xp T end;
     player_playlist_wins := match f with Fwins => d | _ => player_playlist_wins T end;
     player_playlist_losses := match f with Flosses => d | _ => player_playlist_losses T end;
     player_playlist_games := match f with Fgames => d | _ => player_playlist_games T end;
     player_playlist_rank := match f with Frank => d | _ => player_playlist_rank T end;
     player_playlist_highest_rank :=
       match f with Fhighest => d | _ => player_playlist_highest_rank T end |}.

(** [d[n][pl]] *)
Definition get2 (f : field) (n pl : string) (T : tables) : result Z :=
  m ← getitem (sel f T) n; getitem m pl.

(** [d[n][pl] = v] *)
Definition set2 (f : field) (n pl : string) (v : Z) (T : tables) : result tables :=
  m ← getitem (sel f T) n;
  mret (with_field f (<[n := <[pl := v]> m]> (sel f T)) T).

(** [d[n][pl] += v] *)
Definition add2 (f : field) (n pl : string) (v : Z) (T : tables) : result tables :=
  x ← get2 f n pl T; set2 f n pl (x + v) T.

Section Ledger.
Variable cfg : xp_config.

  (** First ranked match of a name in a playlist: the six entries are
    created. *)
Definition init_playlist (player_name pl : string) (T : tables) : result tables :=
  T ← set2 Fxp player_name pl 0 T;
  T ← set2 Fwins player_name pl 0 T;
  T ← set2 Flosses player_name pl 0 T;
  T ← set2 Fgames player_name pl 0 T;
  T ← set2 Frank player_name pl 1 T;
  set2 Fhighest player_name pl 1 T.

(** Result, XP change, new rank and highest rank of one player. *)
Definition apply_result (winners losers : list string) (pl : string)
    (player_name : string) (T : tables) : result tables :=
  old_xp ← get2 Fxp player_name pl T;
  rank_before ← get2 Frank player_name pl T;
  T ← (if PyStr.mem player_name winners then
         T ← add2 Fwins player_name pl 1 T;
         T ← add2 Fgames player_name pl 1 T;
         let win_factor := get_win_factor rank_before (win_factors cfg) in
         let xp_change := py_int (py_float_mul (game_win cfg) win_factor) in
         add2 Fxp player_name pl xp_change T
       else if PyStr.mem player_name losers then
         T ← add2 Flosses player_name pl 1 T;
         T ← add2 Fgames player_name pl 1 T;
         let loss_factor := get_loss_factor rank_before (loss_factors cfg) in
         let xp_change := py_int (py_float_mul (game_loss cfg) loss_factor) in
         T ← add2 Fxp player_name pl xp_change T;
         x ← get2 Fxp player_name pl T;
         if x <? 0 then set2 Fxp player_name pl 0 T else mret T
       else
         add2 Fgames player_name pl 1 T);
  new_xp ← get2 Fxp player_name pl T;
  let new_rank := calculate_rank new_xp (rank_thresholds cfg) in
  T ← set2 Frank player_name pl new_rank T;
  h ← get2 Fhighest player_name pl T;
  if h <? new_rank then set2 Fhighest player_name pl new_rank T else mret T.

(** The body of the loop over [game['players']] in step 3b. *)
Definition ledger_player (winners losers : list string) (pl : string)
    (T : tables) (player_name : string) : result tables :=
  if is_dedicated_server player_name then mret T
  else
    match player_playlist_xp T !! player_name with
    | None => mret T
    | Some xs =>
        T ← (match xs !! pl with
             | Some _ => mret T
             | None => init_playlist player_name pl T
             end);
        apply_result winners losers pl player_name T
    end.

(** One iteration of the loop over [games_to_process_for_xp]. *)
Definition ledger_game (T : tables) (g : game) : result tables :=
    let '(winners, losers) := determine_winners_losers g in
    match playlist g with
    | None => mret T
    | Some pl =>
        if String.eqb pl "" then mret T
        else foldM (ledger_player winners losers pl) (List.map name (players g)) T
    end.

  (** Step 3b over a list of games. *)
Definition ledger_replay (gs : list game) (T : tables) : result tables :=
    foldM ledger_game gs T.
End Ledger.

(** ** Playlist classification: [determine_playlist] *)

Definition PLAYLIST_MLG_4V4 : string := "MLG 4v4".
Definition PLAYLIST_TEAM_HARDCORE : string := "Team Hardcore".
Definition PLAYLIST_DOUBLE_TEAM : string := "Double Team".
Definition PLAYLIST_HEAD_TO_HEAD : string := "Head to Head".

Definition MIN_GAME_DURATION_SECONDS : Z := 120.

Definition VALID_MLG_4V4_COMBOS : list (string * list string) :=
  [ ("Midship", ["ctf"; "slayer"; "oddball"; "assault"]);
    ("Beaver Creek", ["ctf"; "slayer"]);
    ("Lockout", ["slayer"; "oddball"]);
    ("Warlock", ["ctf"; "slayer"; "oddball"]);
    ("Sanctuary", ["ctf"; "slayer"]) ].

Definition assoc (k : string) (l : list (string * list string)) : option (list string) :=
  option_map snd (List.find (fun kv => String.eqb (fst kv) k) l).

Definition is_valid_mlg_combo (map_name base_gametype : string) : bool :=
  match assoc map_name VALID_MLG_4V4_COMBOS with
  | None => false
  | Some valid_gametypes =>
      let base_gametype_lower := PyStr.lower base_gametype in
      let normalized_gametype :=
        if String.eqb base_gametype_lower "capture_the_flag" then "ctf"
        else if String.eqb base_gametype_lower "king_of_the_hill" then "koth"
        else if String.eqb base_gametype_lower "king" then "koth"
        else base_gametype_lower in
      existsb (fun valid_type =>
                 PyStr.contains valid_type normalized_gametype ||
                 PyStr.contains normalized_gametype valid_type)
              valid_gametypes
  end.

(** What [determine_playlist] reads from one stats file. *)
Record game_file := {
  basename : string;
  duration_seconds : Z;
  player_count : Z;
  file_teams : list string;
  game_players : list string;
  file_map_name : string;
  file_base_gametype : string
}.

Record active_match_t := {
  am_playlist : string;
  am_red_team : list string;
  am_blue_team : list string
}.

Definition players_match_active_match (game_players : list string)
    (active_match : option active_match_t) : bool :=
  match active_match with
  | None => false
  | Some am =>
      let active_players :=
        (List.map PyStr.lower (am_red_team am) ++ List.map PyStr.lower (am_blue_team am))%list in
      match active_players with
      | [] => false
      | _ =>
          let game_players_lower := List.map PyStr.lower game_players in
          let matches :=
            Z.of_nat (length (List.filter (fun p => PyStr.mem p active_players)
                                          game_players_lower)) in
          (* matches >= len(game_players) * 0.75 *)
          3 * Z.of_nat (length game_players) <=? 4 * matches
      end
  end.

Definition is_game_long_enough (f : game_file) : bool :=
  MIN_GAME_DURATION_SECONDS <=? duration_seconds f.

Definition is_team_game (f : game_file) : bool :=
  PyStr.mem "Red" (file_teams f) && PyStr.mem "Blue" (file_teams f).

Definition determine_playlist (f : game_file) (active_match : option active_match_t)
    (manual_playlists : gmap string string) : option string :=
  match manual_playlists !! basename f with
  | Some p => Some p
  | None =>
      if negb (is_game_long_enough f) then None
      else
        let is_team := is_team_game f in
        match active_match with
        | None => None
        | Some am =>
            let active_playlist := am_playlist am in
            if String.eqb active_playlist PLAYLIST_HEAD_TO_HEAD then
              if (player_count f =? 2) &&
                 players_match_active_match (game_players f) active_match
              then Some PLAYLIST_HEAD_TO_HEAD else None
            else if String.eqb active_playlist PLAYLIST_DOUBLE_TEAM then
              if (player_count f =? 4) && is_team &&
                 players_match_active_match (game_players f) active_match
              then Some PLAYLIST_DOUBLE_TEAM else None
            else if PyStr.mem active_playlist [PLAYLIST_MLG_4V4; PLAYLIST_TEAM_HARDCORE] then
              if (player_count f =? 8) && is_team &&
                 is_valid_mlg_combo (file_map_name f) (file_base_gametype f) &&
                 players_match_active_match (game_players f) active_match
              then Some active_playlist else None
            else None
        end
  end.

(** ** Checkpoint manager *)

(** One entry of [player_state[user_id]['playlists']]. *)
Record pl_state := {
  pl_xp : Z;
  pl_rank : Z;
  pl_highest_rank : Z;
  pl_wins : Z;
  pl_losses : Z;
  pl_games : Z
}.

(** One entry of [player_state]. *)
Record saved_player := {
  sp_xp : Z;
  sp_rank : Z;
  sp_wins : Z;
  sp_losses : Z;
  sp_total_games : Z;
  sp_kills : Z;
  sp_deaths : Z;
  sp_assists : Z;
  sp_headshots : Z;
  sp_highest_rank : Z;
  sp_playlists : gmap string pl_state
}.

(** [processed_state.json]; an absent key is the empty dict.  The
    [manual_playlists_hash] entry is written and read but never compared,
    and is left out. *)
Record processed_state := {
  ps_games : gmap string (option string);
  player_state : gmap string saved_player;
  player_name_to_id : gmap string string
}.

Definition empty_processed_state : processed_state :=
  {| ps_games := ∅; player_state := ∅; player_name_to_id := ∅ |}.

(** The body of the loop of [check_for_changes] over the stats files. *)
Definition changes_step (manual_playlists : gmap string string)
    (old_games : gmap string (option string))
    (acc : list string * gmap string (option string * option string))
    (filename : string) : list string * gmap string (option string * option string) :=
  let old_playlist : option string := mjoin (old_games !! filename) in
  let new_playlist : option string := manual_playlists !! filename in
  match old_games !! filename with
  | None => ((fst acc ++ [filename])%list, snd acc)
  | Some _ =>
      if bool_decide (old_playlist = new_playlist) then acc
      else (fst acc, <[filename := (old_playlist, new_playlist)]> (snd acc))
  end.

(** [check_for_changes]: (needs_full_rebuild, new_files, changed_playlists) *)
Definition check_for_changes (stats_files : list string)
    (manual_playlists : gmap string string) (state : processed_state)
    : bool * list string * gmap string (option string * option string) :=
  let old_games := ps_games state in
  let '(new_files, changed_playlists) :=
    fold_left (changes_step manual_playlists old_games) stats_files ([], ∅) in
  let needs_full_rebuild := bool_decide (0 < size changed_playlists)%nat in
  (needs_full_rebuild, new_files, changed_playlists).

Inductive mode := NOTHING_TO_PROCESS | FULL | INCREMENTAL.

#[global] Instance mode_eq_dec : EqDecision mode.
Proof. solve_decision. Defined.

Record plan_t := {
  plan_mode : mode;
  newMatchIds : list string;
  initialState : gmap string saved_player
}.

(** The processing-mode decision at the start of [main]. *)
Definition plan (stats_files : list string) (manual_playlists : gmap string string)
    (state : processed_state) : plan_t :=
  let '(needs_full_rebuild, new_files, changed_playlists) :=
    check_for_changes stats_files manual_playlists state in
  if bool_decide (new_files = []) && bool_decide (changed_playlists = ∅) then
    {| plan_mode := NOTHING_TO_PROCESS; newMatchIds := new_files; initialState := ∅ |}
  else
    let incremental_mode :=
      negb needs_full_rebuild && bool_decide (0 < length new_files)%nat in
    let saved_player_state : gmap string saved_player :=
      if incremental_mode then player_state state else ∅ in
    if needs_full_rebuild then
      {| plan_mode := FULL; newMatchIds := new_files; initialState := saved_player_state |}
    else if incremental_mode && bool_decide (0 < size saved_player_state)%nat then
      {| plan_mode := INCREMENTAL; newMatchIds := new_files;
         initialState := saved_player_state |}
    else
      {| plan_mode := FULL; newMatchIds := new_files; initialState := saved_player_state |}.

(** ** Run orchestrator: [main]

    The part of [main] that decides the processing mode, resolves names,
    restores or resets state, replays the ledger, consolidates per user
    and writes the checkpoint.  Files, the webhook and the series and
    match exports are outside this model; [set] iteration follows first
    insertion. *)

(** One entry of [rankstats]; a key read with [.get(k, v)] and absent is
    represented by [v]. *)
Record rs_entry := {
  discord_name : string;
  alias : string;
  rs_xp : Z;
  rs_wins : Z;
  rs_losses : Z;
  rs_total_games : Z;
  rs_series_wins : Z;
  rs_series_losses : Z;
  rs_total_series : Z;
  rs_rank : Z;
  rs_kills : Z;
  rs_deaths : Z;
  rs_assists : Z;
  rs_headshots : Z;
  rs_highest_rank : Z;
  rs_playlists : gmap string pl_state;
  rs_flat_rank : gmap string Z
}.

(** An entry of [player_game_stats]. *)
Record game_stats := {
  gs_kills : Z;
  gs_deaths : Z;
  gs_assists : Z;
  gs_games : Z;
  gs_headshots : Z
}.

Record run_state := {
  rankstats : gmap string rs_entry;
  player_to_id : gmap string string;
  all_player_names : list string;
  player_game_stats : gmap string game_stats;
  tabs : tables
}.

Record output := {
  out_rankstats : gmap string rs_entry;
  out_player_to_id : gmap string string;
  out_processed_state : processed_state
}.

Definition empty_tables : tables :=
  {| player_playlist_xp := ∅; player_playlist_wins := ∅; player_playlist_losses := ∅;
     player_playlist_games := ∅; player_playlist_rank := ∅;
     player_playlist_highest_rank := ∅ |}.

(** Step 1, incremental: restore one user from the saved state. *)
Definition restore_entry (e : rs_entry) (s : saved_player) : rs_entry :=
  {| discord_name := discord_name e; alias := alias e;
     rs_xp := sp_xp s; rs_wins := sp_wins s; rs_losses := sp_losses s;
     rs_total_games := sp_total_games s;
     rs_series_wins := rs_series_wins e; rs_series_losses := rs_series_losses e;
     rs_total_series := rs_total_series e;
     rs_rank := sp_rank s;
     rs_kills := sp_kills s; rs_deaths := sp_deaths s; rs_assists := sp_assists s;
     rs_headshots := sp_headshots s;
     rs_highest_rank := sp_highest_rank s;
     rs_playlists := sp_playlists s ∪ rs_playlists e;
     rs_flat_rank := (pl_rank <$> sp_playlists s) ∪ rs_flat_rank e |}.

(** Step 1, full: zero one user. *)
Definition zero_entry (e : rs_entry) : rs_entry :=
  {| discord_name := discord_name e; alias := alias e;
     rs_xp := 0; rs_wins := 0; rs_losses := 0; rs_total_games := 0;
     rs_series_wins := 0; rs_series_losses := 0; rs_total_series := 0;
     rs_rank := 1;
     rs_kills := 0; rs_deaths := 0; rs_assists := 0; rs_headshots := 0;
     rs_highest_rank := rs_highest_rank e;
     rs_playlists := rs_playlists e;
     rs_flat_rank := rs_flat_rank e |}.

(** The entry created for a name that could not be resolved. *)
Definition unmatched_entry (player_name : string) : rs_entry :=
  {| discord_name := player_name; alias := "";
     rs_xp := 0; rs_wins := 0; rs_losses := 0; rs_total_games := 0;
     rs_series_wins := 0; rs_series_losses := 0; rs_total_series := 0;
     rs_rank := 1;
     rs_kills := 0; rs_deaths := 0; rs_assists := 0; rs_headshots := 0;
     rs_highest_rank := 1; rs_playlists := ∅; rs_flat_rank := ∅ |}.

Definition with_tabs (T : tables) (st : run_state) : run_state :=
  {| rankstats := rankstats st; player_to_id := player_to_id st;
     all_player_names := all_player_names st;
     player_game_stats := player_game_stats st; tabs := T |}.

Definition saved_game_stats (s : saved_player) : game_stats :=
  {| gs_kills := sp_kills s; gs_deaths := sp_deaths s; gs_assists := sp_assists s;
     gs_games := sp_total_games s; gs_headshots := sp_headshots s |}.

Section Main.
Variable cfg : xp_config.
(** [resolve_player_to_discord], with the identity, MAC and profile
    lookups fixed. *)
Variable resolve : string -> gmap string rs_entry -> option string.
(** The built-in [hash] on strings of the running interpreter. *)
Variable py_hash : string -> Z.
Variable active_match : option active_match_t.
Variable manual_playlists : gmap string string.

(** Step 2: one stats file becomes one game with its playlist tag. *)
Definition load_game (f : game_file * game) : game :=
  {| game_details := game_details (snd f); players := players (snd f);
     source_file := basename (fst f);
     playlist := determine_playlist (fst f) active_match manual_playlists |}.

Definition games_of_playlist (p : string) (all_games : list game) : list game :=
  List.filter (fun g => bool_decide (playlist g = Some p)) all_games.

Definition ranked_games_of (all_games : list game) : list game :=
  (games_of_playlist PLAYLIST_MLG_4V4 all_games ++
   games_of_playlist PLAYLIST_TEAM_HARDCORE all_games ++
   games_of_playlist PLAYLIST_DOUBLE_TEAM all_games ++
   games_of_playlist PLAYLIST_HEAD_TO_HEAD all_games)%list.

Definition temp_id_of (player_name : string) : string :=
  PyStr.str (Z.abs (py_hash player_name) mod 10 ^ 18).

(** Step 3, the loop over every player of every game: resolution and
    first initialisation of the tracking dictionaries. *)
Definition resolve_step (incremental_mode : bool)
    (saved_player_state : gmap string saved_player)
    (st : run_state) (player_name : string) : run_state :=
  if is_dedicated_server player_name then st
  else
    let names :=
      if PyStr.mem player_name (all_player_names st) then all_player_names st
      else (all_player_names st ++ [player_name])%list in
    match player_to_id st !! player_name with
    | Some _ =>
        (* already resolved: continue *)
        {| rankstats := rankstats st; player_to_id := player_to_id st;
           all_player_names := names;
           player_game_stats := player_game_stats st; tabs := tabs st |}
    | None =>
        let resolved :=
          match resolve player_name (rankstats st) with
          | Some uid => if String.eqb uid "" then None else Some uid
          | None => None
          end in
        let '(ids, rs) :=
          match resolved with
          | Some uid => (<[player_name := uid]> (player_to_id st), rankstats st)
          | None =>
              let temp_id := temp_id_of player_name in
              (<[player_name := temp_id]> (player_to_id st),
               <[temp_id := unmatched_entry player_name]> (rankstats st))
          end in
        match player_game_stats st !! player_name with
        | Some _ =>
            {| rankstats := rs; player_to_id := ids; all_player_names := names;
               player_game_stats := player_game_stats st; tabs := tabs st |}
        | None =>
            let saved :=
              if incremental_mode then resolved ≫= (fun uid => saved_player_state !! uid)
              else None in
            let T := tabs st in
            match saved with
            | Some s =>
                {| rankstats := rs; player_to_id := ids; all_player_names := names;
                   player_game_stats :=
                     <[player_name := saved_game_stats s]> (player_game_stats st);
                   tabs :=
                     {| player_playlist_xp :=
                          <[player_name := pl_xp <$> sp_playlists s]> (player_playlist_xp T);
                        player_playlist_wins :=
                          <[player_name := pl_wins <$> sp_playlists s]> (player_playlist_wins T);
                        player_playlist_losses :=
                          <[player_name := pl_losses <$> sp_playlists s]>
                            (player_playlist_losses T);
                        player_playlist_games :=
                          <[player_name := pl_games <$> sp_playlists s]> (player_playlist_games T);
                        player_playlist_rank := player_playlist_rank T;
                        player_playlist_highest_rank := player_playlist_highest_rank T |} |}
            | None =>
                {| rankstats := rs; player_to_id := ids; all_player_names := names;
                   player_game_stats :=
                     <[player_name := {| gs_kills := 0; gs_deaths := 0; gs_assists := 0;
                                         gs_games := 0; gs_headshots := 0 |}]>
                       (player_game_stats st);
                   tabs :=
                     {| player_playlist_xp := <[player_name := ∅]> (player_playlist_xp T);
                        player_playlist_wins := <[player_name := ∅]> (player_playlist_wins T);
                        player_playlist_losses := <[player_name := ∅]> (player_playlist_losses T);
                        player_playlist_games := <[player_name := ∅]> (player_playlist_games T);
                        player_playlist_rank := player_playlist_rank T;
                        player_playlist_highest_rank := player_playlist_highest_rank T |} |}
            end
        end
    end.

Definition resolve_all (incremental_mode : bool)
    (saved_player_state : gmap string saved_player)
    (all_games : list game) (st : run_state) : run_state :=
  fold_left
    (fun st g =>
       fold_left (resolve_step incremental_mode saved_player_state)
                 (List.map name (players g)) st)
    all_games st.

(** The rank dictionaries: one (possibly restored) entry per name seen. *)
Definition init_ranks (incremental_mode : bool)
    (saved_player_state : gmap string saved_player) (st : run_state) : run_state :=
  fold_left
    (fun st n =>
       let saved :=
         if incremental_mode
         then player_to_id st !! n ≫= (fun uid => saved_player_state !! uid)
         else None in
       let pls : gmap string pl_state :=
         match saved with Some s => sp_playlists s | None => ∅ end in
       let T := tabs st in
       with_tabs
         {| player_playlist_xp := player_playlist_xp T;
            player_playlist_wins := player_playlist_wins T;
            player_playlist_losses := player_playlist_losses T;
            player_playlist_games := player_playlist_games T;
            player_playlist_rank := <[n := pl_rank <$> pls]> (player_playlist_rank T);
            player_playlist_highest_rank :=
              <[n := pl_highest_rank <$> pls]> (player_playlist_highest_rank T) |} st)
    (all_player_names st) st.

(** The restore loop of incremental mode: every name mapped to a saved
    user gets the saved per-playlist values written into its dictionaries. *)
Definition restore_playlist (player_name : string) (T : tables)
    (kv : string * pl_state) : result tables :=
  let '(pl, s) := kv in
  T ← set2 Fxp player_name pl (pl_xp s) T;
  T ← set2 Frank player_name pl (pl_rank s) T;
  T ← set2 Fhighest player_name pl (pl_highest_rank s) T;
  T ← set2 Fwins player_name pl (pl_wins s) T;
  T ← set2 Flosses player_name pl (pl_losses s) T;
  set2 Fgames player_name pl (pl_games s) T.

Definition restore_name (user_id : string) (s : saved_player) (st : run_state)
    (kv : string * string) : result run_state :=
  let '(player_name, pid) := kv in
  if String.eqb pid user_id then
    T ← foldM (restore_playlist player_name) (map_to_list (sp_playlists s)) (tabs st);
    let stats :=
      match player_game_stats st !! player_name with
      | Some _ => <[player_name := saved_game_stats s]> (player_game_stats st)
      | None => player_game_stats st
      end in
    mret {| rankstats := rankstats st; player_to_id := player_to_id st;
            all_player_names := all_player_names st;
            player_game_stats := stats; tabs := T |}
  else mret st.

Definition restore_saved (saved_player_state : gmap string saved_player)
    (st : run_state) : result run_state :=
  foldM (fun st (us : string * saved_player) =>
           foldM (restore_name (fst us) (snd us)) (map_to_list (player_to_id st)) st)
        (map_to_list saved_player_state) st.

(** Step 3a: cumulative statistics. *)
Definition stats_player (stats : gmap string game_stats) (p : player)
    : gmap string game_stats :=
  if is_dedicated_server (name p) then stats
  else
    match stats !! name p with
    | None => stats
    | Some s =>
        <[name p := {| gs_kills := gs_kills s + kills p;
                       gs_deaths := gs_deaths s + deaths p;
                       gs_assists := gs_assists s + assists p;
                       gs_games := gs_games s + 1;
                       gs_headshots := gs_headshots s + head_shots p |}]> stats
    end.

Definition stats_games (gs : list game) (stats : gmap string game_stats)
    : gmap string game_stats :=
  fold_left (fun stats g => fold_left stats_player (players g) stats) gs stats.

(** Step 4: names grouped by user id, in order of first appearance. *)
Fixpoint group_add (uid n : string) (l : list (string * list string))
    : list (string * list string) :=
  match l with
  | [] => [(uid, [n])]
  | (u, ns) :: l' =>
      if String.eqb u uid then (u, (ns ++ [n])%list) :: l'
      else (u, ns) :: group_add uid n l'
  end.

Definition user_id_to_names (st : run_state) : result (list (string * list string)) :=
  foldM (fun acc n => uid ← getitem (player_to_id st) n; mret (group_add uid n acc))
        (all_player_names st) [].

Definition sum_values (m : gmap string Z) : Z :=
  map_fold (fun _ v acc => acc + v) 0 m.

(** [sum(d[n].get(pl, dflt) for n in names)] and the like. *)
Definition fold_names (f : field) (T : tables) (pl : string) (dflt : Z)
    (op : Z -> Z -> Z) (init : Z) (names : list string) : result Z :=
  foldM (fun acc n => m ← getitem (sel f T) n; mret (op acc (default dflt (m !! pl))))
        names init.

Definition consolidate_playlist (T : tables) (names : list string) (pl : string)
    : result pl_state :=
  playlist_xp ← fold_names Fxp T pl 0 Z.add 0 names;
  playlist_highest ← fold_names Fhighest T pl 1 Z.max 1 names;
  playlist_wins ← fold_names Fwins T pl 0 Z.add 0 names;
  playlist_losses ← fold_names Flosses T pl 0 Z.add 0 names;
  playlist_games ← fold_names Fgames T pl 0 Z.add 0 names;
  mret {| pl_xp := playlist_xp;
          pl_rank := calculate_rank playlist_xp (rank_thresholds cfg);
          pl_highest_rank := playlist_highest;
          pl_wins := playlist_wins; pl_losses := playlist_losses;
          pl_games := playlist_games |}.

Definition consolidate_user (st : run_state) (un : string * list string)
    : result run_state :=
  let '(user_id, player_names) := un in
  let T := tabs st in
  totals ← foldM (fun (acc : game_stats) n =>
                    s ← getitem (player_game_stats st) n;
                    mret {| gs_kills := gs_kills acc + gs_kills s;
                            gs_deaths := gs_deaths acc + gs_deaths s;
                            gs_assists := gs_assists acc + gs_assists s;
                            gs_games := gs_games acc + gs_games s;
                            gs_headshots := gs_headshots acc + gs_headshots s |})
                 player_names
                 {| gs_kills := 0; gs_deaths := 0; gs_assists := 0; gs_games := 0;
                    gs_headshots := 0 |};
  e ← getitem (rankstats st) user_id;
  total_wins ← foldM (fun acc n => m ← getitem (player_playlist_wins T) n;
                                   mret (acc + sum_values m)) player_names 0;
  total_losses ← foldM (fun acc n => m ← getitem (player_playlist_losses T) n;
                                     mret (acc + sum_values m)) player_names 0;
  all_playlists ← foldM (fun (acc : gset string) n =>
                           m ← getitem (player_playlist_xp T) n; mret (acc ∪ dom m))
                        player_names ∅;
  playlists_data ← foldM (fun (acc : gmap string pl_state) pl =>
                            d ← consolidate_playlist T player_names pl;
                            mret (<[pl := d]> acc))
                         (elements all_playlists) ∅;
  let overall_highest_rank :=
    map_fold (fun _ d acc => Z.max acc (pl_highest_rank d)) 1 playlists_data in
  let primary_xp := map_fold (fun _ d acc => Z.max acc (pl_xp d)) 0 playlists_data in
  let e' :=
    {| discord_name := discord_name e; alias := alias e;
       rs_xp := primary_xp;
       rs_wins := total_wins; rs_losses := total_losses;
       rs_total_games := gs_games totals;
       rs_series_wins := rs_series_wins e; rs_series_losses := rs_series_losses e;
       rs_total_series := rs_total_series e;
       rs_rank := if 0 <? primary_xp then calculate_rank primary_xp (rank_thresholds cfg)
                  else 1;
       rs_kills := gs_kills totals; rs_deaths := gs_deaths totals;
       rs_assists := gs_assists totals; rs_headshots := gs_headshots totals;
       rs_highest_rank := overall_highest_rank;
       rs_playlists := playlists_data;
       rs_flat_rank := (pl_rank <$> playlists_data) ∪ rs_flat_rank e |} in
  mret {| rankstats := <[user_id := e']> (rankstats st);
          player_to_id := player_to_id st; all_player_names := all_player_names st;
          player_game_stats := player_game_stats st; tabs := T |}.

Definition consolidate (st : run_state) : result run_state :=
  groups ← user_id_to_names st;
  foldM consolidate_user groups st.

(** The checkpoint written at the end of a successful run. *)
Definition save_state (all_games : list game) (st : run_state) : processed_state :=
  let keep (e : rs_entry) :=
    (0 <? rs_total_games e) || (0 <? rs_wins e) || (0 <? rs_losses e) in
  {| ps_games := list_to_map (List.map (fun g => (source_file g, playlist g)) all_games);
     player_state :=
       (fun e => {| sp_xp := rs_xp e; sp_rank := rs_rank e; sp_wins := rs_wins e;
                    sp_losses := rs_losses e; sp_total_games := rs_total_games e;
                    sp_kills := rs_kills e; sp_deaths := rs_deaths e;
                    sp_assists := rs_assists e; sp_headshots := rs_headshots e;
                    sp_highest_rank := rs_highest_rank e;
                    sp_playlists := rs_playlists e |})
       <$> filter (fun kv => keep (snd kv) = true) (rankstats st);
     player_name_to_id := player_to_id st |}.

(** [main]: [None] when there is nothing to process.  [files] is the
    result of [get_all_game_files], sorted by file name, each file with what
    [determine_playlist] and [parse_excel_file] read from it. *)
Definition main (rankstats0 : gmap string rs_entry) (files : list (game_file * game))
    (state : processed_state) : result (option output) :=
  let stats_files := List.map (fun f => basename (fst f)) files in
  let p := plan stats_files manual_playlists state in
  match plan_mode p with
  | NOTHING_TO_PROCESS => mret None
  | m =>
      let incremental_mode := bool_decide (m = INCREMENTAL) in
      let saved_player_state := initialState p in
      let new_files := newMatchIds p in
      (* step 1 *)
      let rs1 : gmap string rs_entry :=
        if incremental_mode
        then map_imap (fun uid e =>
                         Some (match saved_player_state !! uid with
                               | Some s => restore_entry e s
                               | None => e
                               end)) rankstats0
        else zero_entry <$> rankstats0 in
      (* step 2 *)
      let all_games := List.map load_game files in
      let ranked_games := ranked_games_of all_games in
      (* step 3 *)
      let ids0 : gmap string string :=
        if incremental_mode then player_name_to_id state else ∅ in
      let st := {| rankstats := rs1; player_to_id := ids0; all_player_names := [];
                   player_game_stats := ∅; tabs := empty_tables |} in
      let st := resolve_all incremental_mode saved_player_state all_games st in
      let st := init_ranks incremental_mode saved_player_state st in
      st ← (if incremental_mode then restore_saved saved_player_state st else mret st);
      let is_new (g : game) := PyStr.mem (source_file g) new_files in
      let games_for_stats :=
        if incremental_mode then List.filter is_new all_games else all_games in
      let st := {| rankstats := rankstats st; player_to_id := player_to_id st;
                   all_player_names := all_player_names st;
                   player_game_stats := stats_games games_for_stats (player_game_stats st);
                   tabs := tabs st |} in
      let games_for_xp :=
        if incremental_mode then List.filter is_new ranked_games else ranked_games in
      T ← ledger_replay cfg games_for_xp (tabs st);
      (* step 4 *)
      st ← consolidate (with_tabs T st);
      mret (Some {| out_rankstats := rankstats st;
                    out_player_to_id := player_to_id st;
                    out_processed_state := save_state all_games st |})
  end.

End Main.

(** * Further functions of the two modules *)

(** ** [STATSRANKS_new.py]: rank progress and highest rank *)

(** [thresholds[level]] *)
Definition getlevel (thresholds : gmap Z (Z * Z)) (level : Z) : result (Z * Z) :=
  match thresholds !! level with
  | Some e => Ok e
  | None => KeyError (PyStr.str level)
  end.

(** [get_rank_progress]: current rank, XP in rank, XP needed for the next
    rank. *)
Definition get_rank_progress (xp : Z) (thresholds : gmap Z (Z * Z)) : result (Z * Z * Z) :=
  rank ← STATSRANKS_new.calculate_rank xp thresholds;
  if rank =? 50 then mret (rank, xp, 0)
  else
    cur ← getlevel thresholds rank;
    next ← getlevel thresholds (rank + 1);
    let xp_in_rank := xp - fst cur in
    let xp_for_next := fst next - xp in
    mret (rank, xp_in_rank, xp_for_next).

(** What [calculate_highest_rank] reads of a player's stats: the XP of
    each entry of [playlist_stats], in the order of the dict, and the
    global xp, wins and losses. *)
Record bot_player_stats := {
  bp_playlist_xp : list (string * Z);
  bp_xp : Z;
  bp_wins : Z;
  bp_losses : Z
}.

(** The loop over [playlist_stats.items()]: (highest, has_playlist_xp). *)
Definition highest_step (thresholds : gmap Z (Z * Z)) (acc : Z * bool)
    (entry : string * Z) : result (Z * bool) :=
  let playlist_xp := snd entry in
  if 0 <? playlist_xp then
    rank ← STATSRANKS_new.calculate_rank playlist_xp thresholds;
    mret (if fst acc <? rank then rank else fst acc, true)
  else mret acc.

(** [calculate_highest_rank]; [win_xp] and [loss_xp] are [game_win] and
    [game_loss] of the configuration. *)
Definition calculate_highest_rank (thresholds : gmap Z (Z * Z)) (win_xp loss_xp : Z)
    (player_stats : bot_player_stats) : result Z :=
  acc ← foldM (highest_step thresholds) (bp_playlist_xp player_stats) (1, false);
  let highest : Z := fst acc in
  let has_playlist_xp : bool := snd acc in
  if has_playlist_xp then mret highest
  else
    let global_xp := bp_xp player_stats in
    if 0 <? global_xp then STATSRANKS_new.calculate_rank global_xp thresholds
    else
      let estimated_xp := bp_wins player_stats * win_xp + bp_losses player_stats * loss_xp in
      if 0 <? estimated_xp then STATSRANKS_new.calculate_rank estimated_xp thresholds
      else mret highest.



(** ** The playlist groups of step 2: list objects and their aliases

    [games_by_playlist] maps a playlist to a list object; [ranked_games]
    is bound to the list object of the MLG 4v4 key when there is one, and
    is then extended in place. *)

Definition deref (h : list (list game)) (r : nat) : list game := default [] (h !! r).

(** [l.append(g)] *)
Definition list_append (r : nat) (g : game) (h : list (list game)) : list (list game) :=
  <[r := (deref h r ++ [g])%list]> h.

(** [l.extend(l')] *)
Definition list_extend (r r' : nat) (h : list (list game)) : list (list game) :=
  <[r := (deref h r ++ deref h r')%list]> h.

(** A new list object. *)
Definition alloc (l : list game) (h : list (list game)) : nat * list (list game) :=
  (length h, (h ++ [l])%list).

(** The loop of step 2 over the games, for [games_by_playlist]. *)
Definition group_step (G : list (list game) * gmap string nat) (g : game) : list (list game) * gmap string nat :=
  let '(h, games_by_playlist) := G in
  match playlist g with
  | None => G
  | Some pl =>
      if String.eqb pl "" then G
      else
        match games_by_playlist !! pl with
        | Some r => (list_append r g h, games_by_playlist)
        | None =>
            let '(r, h) := alloc [] h in
            (list_append r g h, <[pl := r]> games_by_playlist)
        end
  end.

Definition group_games (all_games : list game) : list (list game) * gmap string nat :=
  fold_left group_step all_games ([], ∅).

(** [games_by_playlist.get(pl, [])]: the list object of the key, or a new
    empty list. *)
Definition get_or_empty (games_by_playlist : gmap string nat) (pl : string) (h : list (list game))
    : nat * list (list game) :=
  match games_by_playlist !! pl with
  | Some r => (r, h)
  | None => alloc [] h
  end.

(** The four statements that build [ranked_games]. *)
Definition build_ranked (G : list (list game) * gmap string nat) : nat * list (list game) :=
  let '(h, games_by_playlist) := G in
  let '(ranked_games, h) := get_or_empty games_by_playlist PLAYLIST_MLG_4V4 h in
  let '(r, h) := get_or_empty games_by_playlist PLAYLIST_TEAM_HARDCORE h in
  let h := list_extend ranked_games r h in
  let '(r, h) := get_or_empty games_by_playlist PLAYLIST_DOUBLE_TEAM h in
  let h := list_extend ranked_games r h in
  let '(r, h) := get_or_empty games_by_playlist PLAYLIST_HEAD_TO_HEAD h in
  let h := list_extend ranked_games r h in
  (ranked_games, h).

(** What [games_by_playlist.get(pl, [])] reads. *)
Definition playlist_games (h : list (list game)) (games_by_playlist : gmap string nat) (pl : string)
    : list game :=
  match games_by_playlist !! pl with
  | Some r => deref h r
  | None => []
  end.



(** ** [get_all_game_files] *)

Definition STATS_DIR : string := "stats".
Definition STATS_PUBLIC_DIR : string := "/home/carnagereport/stats/public".
Definition STATS_PRIVATE_DIR : string := "/home/carnagereport/stats/private".

(** [s.endswith(suffix)] *)
Definition endswith (s suffix : string) : bool :=
  let n := String.length s in
  let m := String.length suffix in
  (m <=? n)%nat && String.eqb (String.substring (n - m) m s) suffix.

(** [f.endswith('.xlsx') and '_identity' not in f] *)
Definition is_stats_file (f : string) : bool :=
  endswith f ".xlsx" && negb (PyStr.contains "_identity" f).

(** One loop [for f in os.listdir(dir)]; [only_new] is the test of the
    second and third loop that the name is not yet in the list. *)
Definition scan_dir (only_new : bool) (dir : string) (listing : list string)
    (game_files : list (string * string)) : list (string * string) :=
  fold_left
    (fun game_files f =>
       if is_stats_file f then
         if only_new && existsb (fun gf => String.eqb (fst gf) f) game_files
         then game_files
         else (game_files ++ [(f, dir)])%list
       else game_files)
    listing game_files.

(** [get_all_game_files]; each argument is the listing of a directory, or
    [None] when the directory does not exist. *)
Definition get_all_game_files (stats public private : option (list string))
    : list (string * string) :=
  let game_files := [] in
  let game_files :=
    match stats with
    | Some l => scan_dir false STATS_DIR l game_files
    | None => game_files
    end in
  let game_files :=
    match public with
    | Some l => scan_dir true STATS_PUBLIC_DIR l game_files
    | None => game_files
    end in
  let game_files :=
    match private with
    | Some l => scan_dir true STATS_PRIVATE_DIR l game_files
    | None => game_files
    end in
  PyStr.sorted (fun a b => String.leb (fst a) (fst b)) game_files.

(** * Specification-level notions *)

(** ** Series *)

(** The games handed to [detect_series], in the order in which it
    processes them: sorted by their Start Time strings, compared as plain
    strings. *)
Definition sorted_by_start (gs : list game) : list game :=
  PyStr.sorted (fun a b => String.leb (start_time_key a) (start_time_key b)) gs.

(** The Start Time strings of a list of games ascend in string order.  For
    stamps of the form MM/DD/YYYY HH:MM this is the order in time as long
    as the stamps fall in one calendar year, and not in general. *)
Definition start_strings_ascend (gs : list game) : Prop :=
  StronglySorted
    (fun a b => String.leb (start_time_key a) (start_time_key b) = true) gs.

(** [n] is the lowercased name of a roster entry of [g] whose team is [t]. *)
Definition side_names (t : string) (g : game) (n : string) : Prop :=
  exists p, In p (players g) /\ team p = t /\ PyStr.lower (name p) = n.

(** Two matches have the same set of lowercased names on side [t]. *)
Definition same_side_names (t : string) (g1 g2 : game) : Prop :=
  forall n, side_names t g1 n <-> side_names t g2 n.

(** 1 when side [sd] won the match, 0 otherwise. *)
Definition win_of (sd : side) (g : game) : Z :=
  match game_winner g, sd with
  | Some Red, Red => 1
  | Some Blue, Blue => 1
  | _, _ => 0
  end.

(** The second of two consecutive matches is added to the series that is
    open after the first.  After the first match a series is open whose
    last game is that match; after the second match the open series has
    the same identifier and teams, its list of games is the former list
    with the second match appended, the win counter of the side that won
    the second match has grown by one, and neither the list of closed
    series nor the series counter has changed. *)
Definition continues_series (f : string -> string) (st : detect_state)
    (g1 g2 : game) : Prop :=
  let st1 := series_step f st g1 in
  let st2 := series_step f st1 g2 in
  exists sig1 cs1 sig2 cs2 earlier,
    current_series st1 = Some (sig1, cs1) /\
    games cs1 = earlier ++ [series_entry g1] /\
    current_series st2 = Some (sig2, cs2) /\
    games cs2 = earlier ++ [series_entry g1; series_entry g2] /\
    series_id cs2 = series_id cs1 /\
    red_team cs2 = red_team cs1 /\
    blue_team cs2 = blue_team cs1 /\
    red_wins cs2 = red_wins cs1 + win_of Red g2 /\
    blue_wins cs2 = blue_wins cs1 + win_of Blue g2 /\
    series_list st2 = series_list st1 /\
    series_counter st2 = series_counter st1.

(** The second of two consecutive matches closes the open series and
    starts the next one.  The series that was open after the first match
    is moved, with its games and identifier, to the end of the list of
    closed series; the series open after the second match holds that match
    alone and carries the next identifier, and the counter has grown by
    one. *)
Definition starts_new_series (f : string -> string) (st : detect_state)
    (g1 g2 : game) : Prop :=
  let st1 := series_step f st g1 in
  let st2 := series_step f st1 g2 in
  exists sig1 cs1 closed sig2 cs2 earlier,
    current_series st1 = Some (sig1, cs1) /\
    games cs1 = earlier ++ [series_entry g1] /\
    series_list st2 = series_list st1 ++ [closed] /\
    games closed = games cs1 /\
    series_id closed = series_id cs1 /\
    current_series st2 = Some (sig2, cs2) /\
    games cs2 = [series_entry g2] /\
    series_id cs2 = "series_" +:+ PyStr.str (series_counter st1 + 1) /\
    red_wins cs2 = win_of Red g2 /\
    blue_wins cs2 = win_of Blue g2 /\
    series_counter st2 = series_counter st1 + 1.

(** The two rosters of a match as an unordered pair: equal up to exchanging
    the sides. *)
Definition same_unordered_pair (a b : signature) : Prop :=
  a = b \/ a = (snd b, fst b).

(** The [t] rosters of two matches are equal as sets up to ASCII letter
    case of the names. *)
Definition rosters_eq_nocase (t : string) (g1 g2 : game) : Prop :=
  (forall n, In n (roster t g1) -> exists m, In m (roster t g2) /\ PyStr.eq_nocase n m) /\
  (forall m, In m (roster t g2) -> exists n, In n (roster t g1) /\ PyStr.eq_nocase n m).

(** ** Concrete matches used in examples *)

Module Fixtures.

Definition mk_player (n t : string) (score : Z) : player :=
  {| name := n; team := t; score_numeric := score;
     kills := 0; deaths := 0; assists := 0; head_shots := 0 |}.

Definition mk_details (t : string) : details :=
  {| Game_Type := Some "Slayer"; Variant_Name := Some "MLG TS";
     Map_Name := Some "Lockout"; Start_Time := Some t; End_Time := Some t |}.

Definition mk_game (t file : string) (ps : list player) : game :=
  {| game_details := mk_details t; players := ps; source_file := file;
     playlist := Some PLAYLIST_MLG_4V4 |}.

(** Roster A: Alice (Red) against Bob (Blue). *)
Definition game_A (t file : string) (red blue : Z) : game :=
  mk_game t file [mk_player "Alice" "Red" red; mk_player "Bob" "Blue" blue].

(** Roster B: Carol (Red) against Bob (Blue). *)
Definition game_B (t file : string) (red blue : Z) : game :=
  mk_game t file [mk_player "Carol" "Red" red; mk_player "Bob" "Blue" blue].

(** Roster A with the sides exchanged. *)
Definition game_A_swapped (t file : string) (red blue : Z) : game :=
  mk_game t file [mk_player "Bob" "Red" red; mk_player "Alice" "Blue" blue].

(** Roster A with other letter case. *)
Definition game_A_case (t file : string) (red blue : Z) : game :=
  mk_game t file [mk_player "ALICE" "Red" red; mk_player "bob" "Blue" blue].

Definition g1 : game := game_A "11/28/2025 20:00" "1.xlsx" 50 30.
Definition g2 : game := game_A "11/28/2025 20:15" "2.xlsx" 20 50.
Definition g3 : game := game_A "11/28/2025 20:30" "3.xlsx" 50 40.
Definition g4 : game := game_B "11/28/2025 20:45" "4.xlsx" 10 50.

Definition AAAB : list game := [g1; g2; g3; g4].

Definition g2_swapped : game := game_A_swapped "11/28/2025 20:15" "2.xlsx" 20 50.
Definition g2_case : game := game_A_case "11/28/2025 20:15" "2.xlsx" 20 50.

(** Four matches played across midnight of New Year's Eve, listed in the
    order in which they were played: roster A three times, then roster B. *)
Definition y1 : game := game_A "12/31/2025 23:30" "y1.xlsx" 50 30.
Definition y2 : game := game_A "12/31/2025 23:45" "y2.xlsx" 20 50.
Definition y3 : game := game_A "01/01/2026 00:05" "y3.xlsx" 50 40.
Definition y4 : game := game_B "01/01/2026 00:20" "y4.xlsx" 10 50.

Definition display (n : string) : string := n.

End Fixtures.

(** ** Factor and rank tables *)

(** Every multiplier listed in a factor table lies in (0, 1]. *)
Definition factor_table_ok (t : gmap string Q) : Prop :=
  forall k q, t !! k = Some q -> (0 < q)%Q /\ (q <= 1)%Q.

(** The entry of level [n] in a threshold table keyed by decimal strings. *)
Definition level_entry (th : gmap string (Z * Z)) (n : nat) : option (Z * Z) :=
  th !! PyStr.str (Z.of_nat n).

(** A threshold table with levels 1..50 that partitions [0, top] without
    gaps or overlaps: level 1 starts at 0, every level is non-empty and
    the next level starts right after the previous one ends. *)
Record valid_thresholds (th : gmap string (Z * Z)) : Prop := {
  vt_present : forall n, (1 <= n <= 50)%nat ->
      exists lo hi, level_entry th n = Some (lo, hi) /\ lo <= hi;
  vt_first : exists hi, level_entry th 1 = Some (0, hi);
  vt_contiguous : forall n lo hi lo' hi', (1 <= n < 50)%nat ->
      level_entry th n = Some (lo, hi) ->
      level_entry th (S n) = Some (lo', hi') -> lo' = hi + 1
}.

(** The upper bound of level 50. *)
Definition top_bound (th : gmap string (Z * Z)) : Z :=
  match level_entry th 50 with
  | Some (_, hi) => hi
  | None => 0
  end.

(** ** Progression ledger *)

#[global] Instance field_eq_dec : EqDecision field.
Proof. solve_decision. Defined.

(** [d[n][pl]] as a partial value. *)
Definition val (f : field) (T : tables) (n pl : string) : option Z :=
  sel f T !! n ≫= (fun m => m !! pl).

(** The initial value of each entry: xp, wins, losses and games start at
    0, rank and highest rank at 1. *)
Definition initial (f : field) : Z :=
  match f with
  | Frank | Fhighest => 1
  | _ => 0
  end.

(** The value of an entry, or its initial value before the first ranked
    match. *)
Definition value_of (f : field) (T : tables) (n pl : string) : Z :=
  default (initial f) (val f T n pl).

Definition xp_of := value_of Fxp.
Definition wins_of := value_of Fwins.
Definition losses_of := value_of Flosses.
Definition games_of := value_of Fgames.
Definition rank_of := value_of Frank.
Definition highest_of := value_of Fhighest.

(** A name that the ledger tracks has an entry in each of the six
    dictionaries, and these list the same playlists. *)
Definition well_formed (T : tables) : Prop :=
  forall n, is_Some (player_playlist_xp T !! n) ->
    (forall f, is_Some (sel f T !! n)) /\
    (forall f pl, is_Some (val f T n pl) <-> is_Some (val Fxp T n pl)).

Inductive outcome := Win | Loss | TieGame.

Definition classify (n : string) (winners losers : list string) : outcome :=
  if PyStr.mem n winners then Win
  else if PyStr.mem n losers then Loss
  else TieGame.

(** The XP after one match, from the XP and rank before it. *)
Definition next_xp (cfg : xp_config) (o : outcome) (xp rank_before : Z) : Z :=
  match o with
  | Win =>
      xp + py_int (py_float_mul (game_win cfg) (get_win_factor rank_before (win_factors cfg)))
  | Loss =>
      Z.max 0 (xp + py_int (py_float_mul (game_loss cfg)
                           (get_loss_factor rank_before (loss_factors cfg))))
  | TieGame => xp
  end.

(** The value of each entry after one match. *)
Definition next_value (cfg : xp_config) (o : outcome) (T : tables) (n pl : string)
    (f : field) : Z :=
  let xp' := next_xp cfg o (xp_of T n pl) (rank_of T n pl) in
  let rank' := calculate_rank xp' (rank_thresholds cfg) in
  match f with
  | Fxp => xp'
  | Fwins => wins_of T n pl + match o with Win => 1 | _ => 0 end
  | Flosses => losses_of T n pl + match o with Loss => 1 | _ => 0 end
  | Fgames => games_of T n pl + 1
  | Frank => rank'
  | Fhighest => Z.max (highest_of T n pl) rank'
  end.

(** [d[n][pl] = v] on a name that is present. *)
Definition put (f : field) (n pl : string) (v : Z) (T : tables) : tables :=
  with_field f (<[n := <[pl := v]> (default ∅ (sel f T !! n))]> (sel f T)) T.

(** The six writes of [init_playlist]. *)
Definition after_init (n pl : string) (T : tables) : tables :=
  put Fhighest n pl 1 (put Frank n pl 1 (put Fgames n pl 0 (put Flosses n pl 0
    (put Fwins n pl 0 (put Fxp n pl 0 T))))).

(** What one ledger transition of name [n] in playlist [pl] with outcome [o]
    does to the tables. *)
Definition transition (cfg : xp_config) (o : outcome) (n pl : string) (T T' : tables) : Prop :=
  (forall f, val f T' n pl = Some (next_value cfg o T n pl f)) /\
  (forall f n' pl', (n', pl') <> (n, pl) -> val f T' n' pl' = val f T n' pl') /\
  (forall f n', is_Some (sel f T' !! n') <-> is_Some (sel f T !! n')).

(** The win XP and the listed win factors are not negative. *)
Definition config_ok (cfg : xp_config) : Prop :=
  0 <= game_win cfg /\
  forall k q, win_factors cfg !! k = Some q -> (0 <= q)%Q.

Record ledger_inv (T : tables) : Prop := {
  inv_wf : well_formed T;
  inv_xp : forall n pl, 0 <= xp_of T n pl;
  inv_rank : forall n pl, rank_of T n pl <= highest_of T n pl
}.

(** A float that is not negative: its sign bit is clear, or it is a zero
    or a NaN. *)
Definition sf_nonneg (x : spec_float) : Prop :=
  match x with
  | S754_finite s _ _ | S754_infinity s => s = false
  | _ => True
  end.

(** Arithmetic rounding to the nearest integer, halves away from zero. *)
Definition round_half_away (q : Q) : Z :=
  if Qle_bool 0 q then Qfloor (q + (1 # 2)) else - Qfloor (- q + (1 # 2)).

(** A computation returns, and its value satisfies [Q]. *)
Definition succeeds {A} (r : result A) (Q : A -> Prop) : Prop :=
  match r with
  | Ok a => Q a
  | KeyError _ => False
  end.

(** The ledger processes a roster name: it is not a dedicated-server name
    and the name is tracked. *)
Definition participates (T : tables) (n : string) : bool :=
  negb (is_dedicated_server n) && bool_decide (is_Some (player_playlist_xp T !! n)).

(** No highest rank is lower in [T'] than in [T]. *)
Definition highest_rank_kept (T T' : tables) : Prop :=
  forall n pl, highest_of T n pl <= highest_of T' n pl.

(** ** Outcome resolver *)

(** The roster entry counts for side [t]. *)
Definition on_team (t : string) (p : player) : bool :=
  String.eqb (PyStr.strip (team p)) t.

(** Side [t] has at least one roster entry. *)
Definition has_team (t : string) (g : game) : bool :=
  existsb (on_team t) (players g).

(** The aggregate score of side [t]. *)
Definition team_total (t : string) (g : game) : Z :=
  fold_right Z.add 0 (List.map score_numeric (List.filter (on_team t) (players g))).



Definition roster_names (g : game) : list string := List.map name (players g).

(** The tables at the start of a full run: every name tracked, no
    playlist entered yet. *)
Definition clean_tables (names : list string) : tables :=
  let d : gmap string (gmap string Z) := gset_to_gmap ∅ (list_to_set names) in
  {| player_playlist_xp := d; player_playlist_wins := d; player_playlist_losses := d;
     player_playlist_games := d; player_playlist_rank := d;
     player_playlist_highest_rank := d |}.

(** The accumulation of one side in the loop of
    [determine_winners_losers]. *)
Definition side_add (acc : option (Z * list string)) (p : player)
    : option (Z * list string) :=
  match acc with
  | None => Some (0 + score_numeric p, [name p])
  | Some (s, l) => Some (s + score_numeric p, (l ++ [name p])%list)
  end.

Definition side_acc (t : string) (ps : list player) (init : option (Z * list string))
    : option (Z * list string) :=
  fold_left (fun acc p => if on_team t p then side_add acc p else acc) ps init.

Definition score_of (o : option (Z * list string)) : Z :=
  match o with
  | Some (s, _) => s
  | None => 0
  end.

(** The [teams] dict holds what was accumulated for Red and for Blue, in
    the order in which the sides first appeared. *)
Definition teams_shape (ts : teams_t) (r b : option (Z * list string)) : Prop :=
  match r, b with
  | None, None => ts = []
  | Some vr, None => ts = [("Red", vr)]
  | None, Some vb => ts = [("Blue", vb)]
  | Some vr, Some vb => ts = [("Red", vr); ("Blue", vb)] \/ ts = [("Blue", vb); ("Red", vr)]
  end.

Module LedgerFixtures.

Definition cfg : xp_config :=
  {| rank_thresholds := STATSRANKS_new.default_rank_thresholds;
     game_win := 50; game_loss := -10;
     loss_factors := {[ "1" := (7 # 8)%Q ]};
     win_factors := {[ "41" := (7 # 8)%Q ]} |}.

Definition MLG : string := PLAYLIST_MLG_4V4.

Definition T0 : tables := clean_tables ["Alice"; "Bob"; "Dedication"].

(** Alice (Red) beats Bob (Blue). *)
Definition win_game : game := Fixtures.g1.

(** Bob (Blue) beats Alice (Red). *)
Definition loss_game : game := Fixtures.g2.

(** Equal scores. *)
Definition tie_game : game :=
  Fixtures.mk_game "11/28/2025 21:00" "5.xlsx"
    [Fixtures.mk_player "Alice" "Red" 25; Fixtures.mk_player "Bob" "Blue" 25].


(** Three teams with different scores. *)
Definition three_team_game : game :=
  Fixtures.mk_game "11/28/2025 21:30" "7.xlsx"
    [Fixtures.mk_player "Alice" "Red" 10; Fixtures.mk_player "Bob" "Blue" 5;
     Fixtures.mk_player "Carol" "Green" 7].

(** Alice at level 41 with 8000 xp. *)
Definition T_high : tables :=
  put Fhighest "Alice" MLG 41 (put Frank "Alice" MLG 41 (put Fgames "Alice" MLG 200
    (put Flosses "Alice" MLG 40 (put Fwins "Alice" MLG 160
      (put Fxp "Alice" MLG 8000 T0))))).

End LedgerFixtures.

(** ** Checkpoint manager *)

(** Some current stats file that the checkpoint lists would now be
    classified, by [determine_playlist], differently from what the
    checkpoint records. *)
Definition classification_changed (files : list game_file)
    (active_match : option active_match_t) (manual_playlists : gmap string string)
    (state : processed_state) : Prop :=
  exists f recorded,
    In f files /\ ps_games state !! basename f = Some recorded /\
    determine_playlist f active_match manual_playlists <> recorded.

(** Some current stats file that the checkpoint lists has a recorded
    classification different from its entry in the manual override table
    (no entry counts as null). *)
Definition manual_entry_changed (stats_files : list string)
    (manual_playlists : gmap string string) (state : processed_state) : Prop :=
  exists f recorded,
    In f stats_files /\ ps_games state !! f = Some recorded /\
    recorded <> manual_playlists !! f.

(** The checkpoint lists [f] with a classification other than its manual
    entry. *)
Definition differs (manual_playlists : gmap string string) (state : processed_state)
    (f : string) : Prop :=
  exists recorded, ps_games state !! f = Some recorded /\ recorded <> manual_playlists !! f.

(** The stats files that the checkpoint does not list, in order. *)
Definition unlisted (stats_files : list string) (state : processed_state) : list string :=
  List.filter (fun f => bool_decide (ps_games state !! f = None)) stats_files.

Module PlanFixtures.

Definition roster8 : list string :=
  ["Alice"; "Bob"; "Carol"; "Dave"; "Erin"; "Frank"; "Grace"; "Heidi"].

(** An eight-player CTF game on Midship. *)
Definition session_file : game_file :=
  {| basename := "20251128_201839.xlsx"; duration_seconds := 600; player_count := 8;
     file_teams := ["Red"; "Blue"]; game_players := roster8;
     file_map_name := "Midship"; file_base_gametype := "CTF" |}.

(** The bot session that this game belongs to. *)
Definition session : active_match_t :=
  {| am_playlist := PLAYLIST_MLG_4V4;
     am_red_team := ["Alice"; "Bob"; "Carol"; "Dave"];
     am_blue_team := ["Erin"; "Frank"; "Grace"; "Heidi"] |}.

Definition a_player : saved_player :=
  {| sp_xp := 50; sp_rank := 1; sp_wins := 1; sp_losses := 0; sp_total_games := 1;
     sp_kills := 0; sp_deaths := 0; sp_assists := 0; sp_headshots := 0;
     sp_highest_rank := 1;
     sp_playlists := {[ PLAYLIST_MLG_4V4 :=
                          {| pl_xp := 50; pl_rank := 1; pl_highest_rank := 1;
                             pl_wins := 1; pl_losses := 0; pl_games := 1 |} ]} |}.

(** The checkpoint of a run that classified the game through the session. *)
Definition checkpoint_session : processed_state :=
  {| ps_games := {[ basename session_file :=
                      determine_playlist session_file (Some session) ∅ ]};
     player_state := {[ "111" := a_player ]};
     player_name_to_id := {[ "Alice" := "111" ]} |}.

(** The checkpoint of a run without a session: the game was left
    unranked. *)
Definition checkpoint_unranked : processed_state :=
  {| ps_games := {[ basename session_file := determine_playlist session_file None ∅ ]};
     player_state := {[ "111" := a_player ]};
     player_name_to_id := {[ "Alice" := "111" ]} |}.

(** A checkpoint whose one game was ranked through the manual table. *)
Definition manual : gmap string string :=
  {[ "20251128_201839.xlsx" := PLAYLIST_MLG_4V4; "20251128_202256.xlsx" := PLAYLIST_MLG_4V4 ]}.

Definition checkpoint_manual : processed_state :=
  {| ps_games := {[ "20251128_201839.xlsx" := Some PLAYLIST_MLG_4V4 ]};
     player_state := {[ "111" := a_player ]};
     player_name_to_id := {[ "Alice" := "111" ]} |}.

(** The same checkpoint without any saved player. *)
Definition checkpoint_no_players : processed_state :=
  {| ps_games := {[ "20251128_201839.xlsx" := Some PLAYLIST_MLG_4V4 ]};
     player_state := ∅;
     player_name_to_id := ∅ |}.

Definition two_files : list string := ["20251128_201839.xlsx"; "20251128_202256.xlsx"].

End PlanFixtures.

(** ** Runs of [main] *)

(** The per-playlist state of a user in the output of a run. *)
Definition playlist_state_of (r : result (option output)) (user_id pl : string)
    : option pl_state :=
  match r with
  | Ok (Some o) => out_rankstats o !! user_id ≫= (fun e => rs_playlists e !! pl)
  | _ => None
  end.

(** The identity given to a name in the output of a run. *)
Definition identity_of (r : result (option output)) (player_name : string)
    : option string :=
  match r with
  | Ok (Some o) => out_player_to_id o !! player_name
  | _ => None
  end.

(** The checkpoint written by a run; the empty one if the run wrote none. *)
Definition checkpoint_of (r : result (option output)) : processed_state :=
  match r with
  | Ok (Some o) => out_processed_state o
  | _ => empty_processed_state
  end.

Module MainFixtures.

Definition cfg : xp_config :=
  {| rank_thresholds := STATSRANKS_new.default_rank_thresholds;
     game_win := 50; game_loss := -10; loss_factors := ∅; win_factors := ∅ |}.

Definition info (file : string) (names : list string) : game_file :=
  {| basename := file; duration_seconds := 600; player_count := 2;
     file_teams := ["Red"; "Blue"]; game_players := names;
     file_map_name := "Lockout"; file_base_gametype := "Slayer" |}.

Definition parsed (t : string) (red blue : string) : game :=
  {| game_details := Fixtures.mk_details t;
     players := [Fixtures.mk_player red "Red" 50; Fixtures.mk_player blue "Blue" 30];
     source_file := ""; playlist := None |}.

(** Two stats files: Alice beats Bob, twice. *)
Definition file1 : game_file * game :=
  (info "20251128_201839.xlsx" ["Alice"; "Bob"], parsed "11/28/2025 20:18" "Alice" "Bob").
Definition file2 : game_file * game :=
  (info "20251128_202256.xlsx" ["Alice"; "Bob"], parsed "11/28/2025 20:22" "Alice" "Bob").

(** Two stats files with a name that no lookup resolves. *)
Definition file3 : game_file * game :=
  (info "20251128_201839.xlsx" ["Mallory"; "Bob"], parsed "11/28/2025 20:18" "Mallory" "Bob").
Definition file4 : game_file * game :=
  (info "20251128_202256.xlsx" ["Mallory"; "Bob"], parsed "11/28/2025 20:22" "Mallory" "Bob").

(** Both files are ranked through [manual_playlists.json]. *)
Definition manual : gmap string string :=
  {[ "20251128_201839.xlsx" := PLAYLIST_MLG_4V4; "20251128_202256.xlsx" := PLAYLIST_MLG_4V4 ]}.

Definition known (n : string) : rs_entry :=
  {| discord_name := n; alias := "";
     rs_xp := 0; rs_wins := 0; rs_losses := 0; rs_total_games := 0;
     rs_series_wins := 0; rs_series_losses := 0; rs_total_series := 0; rs_rank := 1;
     rs_kills := 0; rs_deaths := 0; rs_assists := 0; rs_headshots := 0;
     rs_highest_rank := 1; rs_playlists := ∅; rs_flat_rank := ∅ |}.

(** [rankstats.json]: Alice and Bob are known users. *)
Definition rankstats0 : gmap string rs_entry :=
  {[ "111" := known "alice"; "222" := known "bob" ]}.

(** Name resolution: Alice and Bob resolve, nobody else does. *)
Definition resolve (n : string) (rs : gmap string rs_entry) : option string :=
  if String.eqb (PyStr.lower (PyStr.strip n)) "alice" then Some "111"
  else if String.eqb (PyStr.lower (PyStr.strip n)) "bob" then Some "222"
  else None.

(** The string hash of two interpreter processes. *)
Definition hash_a (s : string) : Z := 7046029254386353131 + PyStr.len s.
Definition hash_b (s : string) : Z := - 2862933555777941757 + PyStr.len s.

Definition run (h : string -> Z) (files : list (game_file * game))
    (state : processed_state) : result (option output) :=
  main cfg resolve h None manual rankstats0 files state.

(** The checkpoint after the first file, from a clean slate. *)
Definition checkpoint1 : processed_state :=
  checkpoint_of (run hash_a [file1] empty_processed_state).

(** The same for the files with the unresolved name. *)
Definition checkpoint3 : processed_state :=
  checkpoint_of (run hash_a [file3] empty_processed_state).

Definition stats_files12 : list string := ["20251128_201839.xlsx"; "20251128_202256.xlsx"].

End MainFixtures.

(** * Specification-level notions for the further properties *)

(** The fifty levels are present in a table with integer keys. *)
Definition levels_present (thresholds : gmap Z (Z * Z)) : Prop :=
  forall n, (1 <= n <= 50)%nat -> is_Some (thresholds !! Z.of_nat n).

(** The lower bound of a level. *)
Definition level_min (thresholds : gmap Z (Z * Z)) (level : Z) : Z :=
  match thresholds !! level with
  | Some (lo, _) => lo
  | None => 0
  end.

(** The names of side [t], in roster order. *)
Definition team_roster (t : string) (g : game) : list string :=
  List.map name (List.filter (on_team t) (players g)).

Definition names_of (o : option (Z * list string)) : list string :=
  match o with
  | Some (_, l) => l
  | None => []
  end.

(** Some entry of [playlist_stats] has positive xp. *)
Definition has_positive_xp (l : list (string * Z)) : bool :=
  existsb (fun e => 0 <? snd e) l.

Module BotFixtures.

Definition veteran : bot_player_stats :=
  {| bp_playlist_xp := [("mlg_4v4", 5300); ("team_hardcore", 0); ("double_team", 120);
                        ("head_to_head", 0)];
     bp_xp := 5420; bp_wins := 120; bp_losses := 40 |}.

End BotFixtures.

(** ** Series *)

(** The identifier of the [i]-th series of a run. *)
Definition nth_series_id (i : nat) : string := "series_" +:+ PyStr.str (Z.of_nat i).

Definition won_by (sd : side) (e : series_game) : bool :=
  match sg_winner e, sd with
  | Some Red, Red => true
  | Some Blue, Blue => true
  | _, _ => false
  end.

(** The number of games of a series won by a side. *)
Definition count_won (sd : side) (l : list series_game) : Z :=
  Z.of_nat (length (List.filter (won_by sd) l)).

(** The side with strictly more game wins, or a tie. *)
Definition majority (s : series) : series_winner :=
  if blue_wins s <? red_wins s then Red_wins
  else if red_wins s <? blue_wins s then Blue_wins
  else Tie.

(** The games and the identifiers held by the state of the detector: the
    closed series first, then the open one. *)
Definition open_games (st : detect_state) : list series_game :=
  match current_series st with
  | Some (_, cs) => games cs
  | None => []
  end.

Definition state_games (st : detect_state) : list series_game :=
  (concat (List.map games (series_list st)) ++ open_games st)%list.

Definition state_ids (st : detect_state) : list string :=
  (List.map series_id (series_list st) ++
   match current_series st with
   | Some (_, cs) => [series_id cs]
   | None => []
   end)%list.

(** The win counters of a series count the games won by each side. *)
Definition wins_counted (s : series) : Prop :=
  red_wins s = count_won Red (games s) /\ blue_wins s = count_won Blue (games s).

Definition series_settled (s : series) : Prop :=
  wins_counted s /\ winner s = majority s.

(** ** Ledger *)

(** Wins and losses are counted from 0 and never exceed the games
    played. *)
Definition ledger_counts (T : tables) : Prop :=
  forall n pl, 0 <= wins_of T n pl /\ 0 <= losses_of T n pl /\
               wins_of T n pl + losses_of T n pl <= games_of T n pl.

(** Every stored rank is the level of the stored xp. *)
Definition rank_synced (cfg : xp_config) (T : tables) : Prop :=
  forall n pl, is_Some (val Frank T n pl) ->
    rank_of T n pl = calculate_rank (xp_of T n pl) (rank_thresholds cfg).

(** The two tables track the same names. *)
Definition same_names (T T' : tables) : Prop :=
  forall f n, is_Some (sel f T' !! n) <-> is_Some (sel f T !! n).

(** ** Classification *)

(** The number of players of a match of each ranked playlist. *)
Definition playlist_size (p : string) : option Z :=
  if String.eqb p PLAYLIST_HEAD_TO_HEAD then Some 2
  else if String.eqb p PLAYLIST_DOUBLE_TEAM then Some 4
  else if String.eqb p PLAYLIST_MLG_4V4 || String.eqb p PLAYLIST_TEAM_HARDCORE then Some 8
  else None.

(** The player is on one of the two teams of the session, letter case
    aside. *)
Definition in_session (am : active_match_t) (p : string) : Prop :=
  exists q, In q (am_red_team am ++ am_blue_team am)%list /\ PyStr.lower q = PyStr.lower p.

(** The maps of the MLG 4v4 table. *)
Definition mlg_maps : list string := List.map fst VALID_MLG_4V4_COMBOS.

(** ** The full run *)


Definition is_rank_field (f : field) : bool :=
  match f with
  | Frank | Fhighest => true
  | _ => false
  end.

(** A name occurs on the roster of some game and is not a
    dedicated-server name. *)
Definition seen_in (all_games : list game) (n : string) : Prop :=
  is_dedicated_server n = false /\ exists g, In g all_games /\ In n (roster_names g).

(** The state of a full run while names are resolved: the names seen so
    far are the keys of the identity map, of the cumulative statistics and
    of the four counting dictionaries, each with an empty playlist table;
    the two rank dictionaries are still empty. *)
Record resolving (st : run_state) : Prop := {
  rv_ids : forall n, is_Some (player_to_id st !! n) <-> In n (all_player_names st);
  rv_stats : forall n, is_Some (player_game_stats st !! n) <-> In n (all_player_names st);
  rv_tabs : forall f n,
    sel f (tabs st) !! n =
      if is_rank_field f then None
      else if PyStr.mem n (all_player_names st) then Some ∅ else None
}.

(** Every identity in use is a key of [rankstats], which has lost no key
    of [rs0]. *)
Record ids_known (rs0 : gmap string rs_entry) (st : run_state) : Prop := {
  ik_ids : forall n uid, player_to_id st !! n = Some uid -> is_Some (rankstats st !! uid);
  ik_grow : forall uid, is_Some (rs0 !! uid) -> is_Some (rankstats st !! uid)
}.

Definition start_state (rs : gmap string rs_entry) : run_state :=
  {| rankstats := rs; player_to_id := ∅; all_player_names := [];
     player_game_stats := ∅; tabs := empty_tables |}.


(** A name that [main] tracks: cumulative statistics and an entry in
    each of the six ledger dictionaries. *)
Definition tracked (st : run_state) (n : string) : Prop :=
  is_Some (player_game_stats st !! n) /\ forall f, is_Some (sel f (tabs st) !! n).

(** [st'] differs from [st] at most in [rankstats], which has lost no
    key. *)
Definition rankstats_updated (st st' : run_state) : Prop :=
  player_to_id st' = player_to_id st /\
  all_player_names st' = all_player_names st /\
  player_game_stats st' = player_game_stats st /\
  tabs st' = tabs st /\
  forall u, is_Some (rankstats st !! u) -> is_Some (rankstats st' !! u).

(** ** The incremental run *)


(** The names restored from the checkpoint keep their identity and have
    no entry in the xp dictionary. *)
Definition restored_untracked (ids0 : gmap string string) (st : run_state) : Prop :=
  (forall n, is_Some (ids0 !! n) -> player_playlist_xp (tabs st) !! n = None) /\
  (forall n uid, ids0 !! n = Some uid -> player_to_id st !! n = Some uid).

(** The checkpoint holds ranked history: some name is mapped to a saved
    user with at least one playlist. *)
Definition has_ranked_history (state : processed_state) : Prop :=
  exists n uid s,
    player_name_to_id state !! n = Some uid /\
    player_state state !! uid = Some s /\ sp_playlists s <> ∅.

(** ** Independence of the playlists *)


(** Two well-formed tables that track the same names and hold the same
    entries of playlist [pl]. *)
Record agree_on (pl : string) (Ta Tb : tables) : Prop := {
  ag_wf_a : well_formed Ta;
  ag_wf_b : well_formed Tb;
  ag_names : forall n, participates Ta n = participates Tb n;
  ag_val : forall f n, val f Ta n pl = val f Tb n pl
}.

(** ** The playlist groups *)

(** The store and the dictionary after the loop over [gs]. *)
Record grouped (gs : list game) (h : list (list game)) (d : gmap string nat) : Prop := {
  gr_some : forall pl r, d !! pl = Some r ->
      pl <> "" /\ (r < length h)%nat /\ deref h r = games_of_playlist pl gs /\
      games_of_playlist pl gs <> [];
  gr_none : forall pl, d !! pl = None -> pl <> "" -> games_of_playlist pl gs = [];
  gr_inj : forall pl pl' r, d !! pl = Some r -> d !! pl' = Some r -> pl = pl'
}.

(** The store while [ranked_games] is extended: [r] holds [L], every
    other list object of the dictionary holds the games of its key. *)
Record extending (gs : list game) (d : gmap string nat) (r : nat) (h : list (list game))
    (L : list game) : Prop := {
  ex_ranked : (r < length h)%nat /\ deref h r = L;
  ex_some : forall pl r', d !! pl = Some r' -> r' <> r ->
      (r' < length h)%nat /\ deref h r' = games_of_playlist pl gs;
  ex_none : forall pl, d !! pl = None -> pl <> "" -> games_of_playlist pl gs = []
}.

(** ** Runs of one signature *)


(** The signature of the first game of a group. *)
Definition group_sig (grp : list game) : option signature :=
  option_map get_team_signature (head grp).

(** A non-empty group of games with one signature. *)
Definition uniform (grp : list game) : Prop :=
  grp <> [] /\ exists s, Forall (fun g => get_team_signature g = s) grp.

(** No two neighbours of the list are equal. *)
Fixpoint no_adjacent_eq {A} (l : list A) : Prop :=
  match l with
  | a :: (b :: _) as t => a <> b /\ no_adjacent_eq t
  | _ => True
  end.

(** What the state of the detector holds after the games [p]: the closed
    groups and the open one. *)
Definition detecting (st : detect_state) (p : list game) : Prop :=
  match current_series st with
  | None => series_list st = [] /\ p = []
  | Some (sig, cs) =>
      exists closed open,
        p = (concat closed ++ open)%list /\ open <> [] /\
        Forall (fun g => get_team_signature g = sig) open /\
        games cs = List.map series_entry open /\
        List.map games (series_list st) = List.map (List.map series_entry) closed /\
        Forall uniform closed /\
        no_adjacent_eq (List.map group_sig (closed ++ [open]))
  end.

(** ** The stats files *)

(** The names that a directory lists. *)
Definition listed (dir : option (list string)) (f : string) : Prop :=
  In f (default [] dir).

(** ** Cumulative statistics *)


(** The roster entries named [n] in a list of games, in order. *)
Definition appearances (n : string) (gs : list game) : list player :=
  List.filter (fun p => String.eqb (name p) n) (concat (List.map players gs)).

Definition total (f : player -> Z) (l : list player) : Z :=
  fold_right (fun p acc => f p + acc) 0 l.

(** The cumulative statistics [s] with the roster entries [l] added. *)
Definition add_appearances (l : list player) (s : game_stats) : game_stats :=
  {| gs_kills := gs_kills s + total kills l;
     gs_deaths := gs_deaths s + total deaths l;
     gs_assists := gs_assists s + total assists l;
     gs_games := gs_games s + Z.of_nat (length l);
     gs_headshots := gs_headshots s + total head_shots l |}.

(** ** The two rank tables *)

(** [thresholds] is the table [rank_thresholds] with its keys converted to
    integers, as [get_rank_thresholds] returns it. *)
Definition same_table (rank_thresholds : gmap string (Z * Z))
    (thresholds : gmap Z (Z * Z)) : Prop :=
  forall n, (1 <= n <= 50)%nat -> thresholds !! Z.of_nat n = level_entry rank_thresholds n.

(** * Properties *)

(** ** Strings and sorting *)

Lemma lower_ascii_idem (a : ascii) :
  PyStr.lower_ascii (PyStr.lower_ascii a) = PyStr.lower_ascii a.
Proof. destruct a as [[] [] [] [] [] [] [] []]; reflexivity. Qed.

Lemma ascii_eq_nocase_lower (a b : ascii) :
  PyStr.ascii_eq_nocase a b -> PyStr.lower_ascii a = PyStr.lower_ascii b.
Proof.
  intros [-> | [<- | ->]]; [reflexivity | |]; now rewrite lower_ascii_idem.
Qed.

Lemma eq_nocase_lower (s t : string) :
  PyStr.eq_nocase s t -> PyStr.lower s = PyStr.lower t.
Proof.
  revert t; induction s as [| a s IH]; intros [| b t]; simpl; try tauto.
  intros [Hab Hst]. f_equal; [now apply ascii_eq_nocase_lower | now apply IH].
Qed.

Lemma insert_sorted_last {A} (le : A -> A -> bool) (x : A) (acc : list A) :
  Forall (fun y => le y x = true) acc ->
  PyStr.insert_sorted le x acc = (acc ++ [x])%list.
Proof.
  induction 1 as [| y acc Hy _ IH]; simpl; [reflexivity |].
  now rewrite Hy, IH.
Qed.

Lemma sorted_fold_app {A} (le : A -> A -> bool) (l acc : list A) :
  StronglySorted (fun a b => le a b = true) (acc ++ l) ->
  fold_left (fun acc x => PyStr.insert_sorted le x acc) l acc = (acc ++ l)%list.
Proof.
  revert acc; induction l as [| x l IH]; intros acc Hs; simpl.
  - now rewrite app_nil_r.
  - rewrite insert_sorted_last.
    + rewrite IH; rewrite <- app_assoc; [reflexivity | exact Hs].
    + clear IH. induction acc as [| y acc IHacc]; [constructor |].
      simpl in Hs. apply StronglySorted_inv in Hs as [Hs Hy].
      constructor; [| now apply IHacc].
      rewrite Forall_app in Hy. destruct Hy as [_ Hy].
      now apply Forall_inv in Hy.
Qed.

(** A list that is already in order is left as it is by [sorted]. *)
Lemma sorted_of_sorted {A} (le : A -> A -> bool) (l : list A) :
  StronglySorted (fun a b => le a b = true) l -> PyStr.sorted le l = l.
Proof. intros Hs. unfold PyStr.sorted. now rewrite sorted_fold_app. Qed.

(** ** Series detector *)

Section SeriesProps.
Variable f : string -> string.

Lemma series_step_same (st : detect_state) (sig : signature) (cs : series) (g : game) :
  current_series st = Some (sig, cs) ->
  get_team_signature g = sig ->
  series_step f st g =
    {| series_list := series_list st;
       current_series := Some (sig, add_game cs g);
       series_counter := series_counter st |}.
Proof.
  intros Hc Hs. unfold series_step. rewrite Hc, Hs.
  now rewrite bool_decide_eq_true_2.
Qed.

Lemma series_step_other (st : detect_state) (sig : signature) (cs : series) (g : game) :
  current_series st = Some (sig, cs) ->
  get_team_signature g <> sig ->
  series_step f st g =
    {| series_list := series_list st ++ [_finalize_series cs];
       current_series :=
         Some (get_team_signature g, new_series f (series_counter st + 1) g);
       series_counter := series_counter st + 1 |}.
Proof.
  intros Hc Hs. unfold series_step. rewrite Hc.
  rewrite bool_decide_eq_false_2; [reflexivity | congruence].
Qed.

Lemma series_step_first (st : detect_state) (g : game) :
  current_series st = None ->
  series_step f st g =
    {| series_list := series_list st;
       current_series :=
         Some (get_team_signature g, new_series f (series_counter st + 1) g);
       series_counter := series_counter st + 1 |}.
Proof. intros Hc. unfold series_step. now rewrite Hc. Qed.

(** After any step the open series carries the signature of the match just
    processed. *)
Lemma series_step_open (st : detect_state) (g : game) :
  exists cs, current_series (series_step f st g) = Some (get_team_signature g, cs).
Proof.
  destruct (current_series st) as [[sig cs] |] eqn:Hc.
  - destruct (decide (get_team_signature g = sig)) as [He | Hne].
    + rewrite (series_step_same st sig cs g Hc He). subst sig. now eexists.
    + rewrite (series_step_other st sig cs g Hc Hne). now eexists.
  - rewrite (series_step_first st g Hc). now eexists.
Qed.

(** The open series ends with the match just processed. *)
Lemma series_step_open_last (st : detect_state) (g : game) :
  exists cs earlier,
    current_series (series_step f st g) = Some (get_team_signature g, cs) /\
    games cs = earlier ++ [series_entry g].
Proof.
  destruct (current_series st) as [[sig cs] |] eqn:Hc.
  - destruct (decide (get_team_signature g = sig)) as [He | Hne].
    + rewrite (series_step_same st sig cs g Hc He). subst sig.
      now exists (add_game cs g), (games cs).
    + rewrite (series_step_other st sig cs g Hc Hne).
      now exists (new_series f (series_counter st + 1) g), [].
  - rewrite (series_step_first st g Hc).
    now exists (new_series f (series_counter st + 1) g), [].
Qed.

(** Consecutive matches with the same signature: the second one is added
    to the open series, no series is closed and none is opened. *)
Lemma consecutive_same_signature (st : detect_state) (g1 g2 : game) :
  get_team_signature g1 = get_team_signature g2 ->
  continues_series f st g1 g2.
Proof.
  intros He. unfold continues_series. cbv zeta.
  destruct (series_step_open_last st g1) as (cs & earlier & Hcs & Hg).
  rewrite (series_step_same _ _ _ g2 Hcs (eq_sym He)).
  exists (get_team_signature g1), cs, (get_team_signature g1), (add_game cs g2), earlier.
  cbn [current_series series_list series_counter add_game games series_id
       red_team blue_team red_wins blue_wins].
  repeat split; try assumption.
  - rewrite Hg, <- app_assoc. reflexivity.
  - unfold win_of. destruct (game_winner g2) as [[] |]; lia.
  - unfold win_of. destruct (game_winner g2) as [[] |]; lia.
Qed.

(** Consecutive matches with different signatures: the open series is
    closed and the second match opens the next one. *)
Lemma consecutive_other_signature (st : detect_state) (g1 g2 : game) :
  get_team_signature g1 <> get_team_signature g2 ->
  starts_new_series f st g1 g2.
Proof.
  intros Hne. unfold starts_new_series. cbv zeta.
  destruct (series_step_open_last st g1) as (cs & earlier & Hcs & Hg).
  rewrite (series_step_other _ _ _ g2 Hcs (not_eq_sym Hne)).
  exists (get_team_signature g1), cs, (_finalize_series cs), (get_team_signature g2),
    (new_series f (series_counter (series_step f st g1) + 1) g2), earlier.
  cbn [current_series series_list series_counter new_series _finalize_series games
       series_id red_wins blue_wins].
  repeat split; try assumption.
  all: unfold win_of; destruct (game_winner g2) as [[] |]; reflexivity.
Qed.

End SeriesProps.

(** The set that [get_team_signature] builds for a side holds exactly the
    lowercased names of the roster entries of that side. *)
Lemma side_names_elem (t : string) (g : game) (n : string) :
  n ∈ (list_to_set (List.map PyStr.lower (roster t g)) : gset string) <->
  side_names t g n.
Proof.
  rewrite elem_of_list_to_set, list_elem_of_In, in_map_iff.
  unfold roster, side_names. split.
  - intros (x & Hx & Hin). apply in_map_iff in Hin as (p & <- & Hp).
    apply filter_In in Hp as [Hp Ht]. apply String.eqb_eq in Ht. now exists p.
  - intros (p & Hp & Ht & Hn). exists (name p). split; [exact Hn |].
    apply in_map_iff. exists p. split; [reflexivity |].
    apply filter_In. split; [exact Hp | now apply String.eqb_eq].
Qed.

Lemma side_names_of_sets (t1 t2 : string) (g1 g2 : game) :
  (list_to_set (List.map PyStr.lower (roster t1 g1)) : gset string) =
  list_to_set (List.map PyStr.lower (roster t2 g2)) ->
  forall n, side_names t1 g1 n <-> side_names t2 g2 n.
Proof. intros H n. rewrite <- !side_names_elem, H. reflexivity. Qed.

Lemma same_side_names_sets (t : string) (g1 g2 : game) :
  same_side_names t g1 g2 <->
  (list_to_set (List.map PyStr.lower (roster t g1)) : gset string) =
  list_to_set (List.map PyStr.lower (roster t g2)).
Proof.
  unfold same_side_names. split.
  - intros H. apply set_eq. intros n. rewrite !side_names_elem. apply H.
  - apply side_names_of_sets.
Qed.

(** Two matches have the same signature exactly when they have the same
    names on the Red side and the same names on the Blue side. *)
Lemma signature_same_iff (g1 g2 : game) :
  get_team_signature g1 = get_team_signature g2 <->
  same_side_names "Red" g1 g2 /\ same_side_names "Blue" g1 g2.
Proof.
  rewrite !same_side_names_sets. unfold get_team_signature. split.
  - intros H. now injection H.
  - intros [-> ->]. reflexivity.
Qed.

Lemma signature_eq_nocase (g1 g2 : game) :
  rosters_eq_nocase "Red" g1 g2 -> rosters_eq_nocase "Blue" g1 g2 ->
  get_team_signature g1 = get_team_signature g2.
Proof.
  assert (Hset : forall t, rosters_eq_nocase t g1 g2 ->
            (list_to_set (List.map PyStr.lower (roster t g1)) : gset string) =
            list_to_set (List.map PyStr.lower (roster t g2))).
  { intros t [H12 H21]. apply set_eq. intros x.
    rewrite !elem_of_list_to_set, !list_elem_of_In, !in_map_iff.
    split; intros [n [<- Hn]].
    - destruct (H12 n Hn) as [m [Hm Hnm]]. exists m.
      split; [symmetry; now apply eq_nocase_lower | exact Hm].
    - destruct (H21 n Hn) as [m [Hm Hnm]]. exists m.
      split; [now apply eq_nocase_lower | exact Hm]. }
  intros Hr Hb. unfold get_team_signature.
  now rewrite (Hset "Red" Hr), (Hset "Blue" Hb).
Qed.

(** The detector orders the matches by their Start Time strings, which is
    not the order in time once the stamps span two calendar years: four
    matches played across New Year in the order A, A, A, B are processed
    as A, B, A, A and give three series. *)
Lemma start_string_order_across_new_year :
  sorted_by_start [Fixtures.y1; Fixtures.y2; Fixtures.y3; Fixtures.y4] =
    [Fixtures.y3; Fixtures.y4; Fixtures.y1; Fixtures.y2] /\
  get_team_signature Fixtures.y2 = get_team_signature Fixtures.y1 /\
  get_team_signature Fixtures.y3 = get_team_signature Fixtures.y1 /\
  get_team_signature Fixtures.y4 <> get_team_signature Fixtures.y1 /\
  length (detect_series Fixtures.display
            [Fixtures.y1; Fixtures.y2; Fixtures.y3; Fixtures.y4]) = 3%nat.
Proof.
  split; [vm_compute; reflexivity |].
  split; [vm_compute; reflexivity |].
  split; [vm_compute; reflexivity |].
  split; [apply (bool_decide_unpack _); vm_compute; exact I |].
  vm_compute; reflexivity.
Qed.

(** C2 (as amended): the detector first sorts the matches by their Start
    Time strings.  When the sorted list consists of four matches with
    signatures A, A, A, B, exactly two series are returned; the first holds
    the three A matches and has type Bo3; the second holds the B match
    alone and, having at most three games, also has type Bo3, with a win
    threshold of 2. *)
Theorem detect_series_AAAB (f : string -> string) (gs : list game)
    (g1 g2 g3 g4 : game) :
  sorted_by_start gs = [g1; g2; g3; g4] ->
  get_team_signature g2 = get_team_signature g1 ->
  get_team_signature g3 = get_team_signature g1 ->
  get_team_signature g4 <> get_team_signature g1 ->
  exists s1 s2,
    detect_series f gs = [s1; s2] /\
    games s1 = [series_entry g1; series_entry g2; series_entry g3] /\
    series_type s1 = Bo3 /\
    games s2 = [series_entry g4] /\
    series_type s2 = Bo3 /\
    wins_needed (Z.of_nat (length (games s2))) = 2.
Proof.
  intros Hs H2 H3 H4. unfold detect_series.
  destruct gs as [| g0 gs']; [discriminate Hs |].
  fold (sorted_by_start (g0 :: gs')). rewrite Hs. cbn [fold_left].
  rewrite (series_step_first f detect_init g1 eq_refl).
  erewrite (series_step_same f _ _ _ g2); [| reflexivity | exact H2].
  erewrite (series_step_same f _ _ _ g3); [| reflexivity | exact H3].
  erewrite (series_step_other f _ _ _ g4); [| reflexivity | exact H4].
  cbn [current_series series_list app].
  do 2 eexists. split; [reflexivity |]. cbn. repeat split; reflexivity.
Qed.

(** C2, witness of the hypotheses: the four concrete matches, handed to
    the detector out of order. *)
Lemma detect_series_AAAB_witness :
  exists s1 s2,
    detect_series Fixtures.display
      [Fixtures.g4; Fixtures.g1; Fixtures.g3; Fixtures.g2] = [s1; s2] /\
    games s1 = [series_entry Fixtures.g1; series_entry Fixtures.g2;
                series_entry Fixtures.g3] /\
    series_type s1 = Bo3 /\
    games s2 = [series_entry Fixtures.g4] /\
    series_type s2 = Bo3 /\
    wins_needed (Z.of_nat (length (games s2))) = 2.
Proof.
  apply (detect_series_AAAB Fixtures.display
           [Fixtures.g4; Fixtures.g1; Fixtures.g3; Fixtures.g2]
           Fixtures.g1 Fixtures.g2 Fixtures.g3 Fixtures.g4).
  - vm_compute; reflexivity.
  - vm_compute; reflexivity.
  - vm_compute; reflexivity.
  - apply (bool_decide_unpack _). vm_compute. exact I.
Defined.

(** C2 as stated fails: on four matches of one evening, given in the order
    in which they were played, with signatures A, A, A, B the second series
    does not have type Custom, and the win threshold for one game is
    not 1. *)
Lemma detect_series_AAAB_second_not_Custom :
  start_strings_ascend Fixtures.AAAB /\
  sorted_by_start Fixtures.AAAB = Fixtures.AAAB /\
  get_team_signature Fixtures.g2 = get_team_signature Fixtures.g1 /\
  get_team_signature Fixtures.g3 = get_team_signature Fixtures.g1 /\
  get_team_signature Fixtures.g4 <> get_team_signature Fixtures.g1 /\
  ~ (exists s1 s2,
       detect_series Fixtures.display Fixtures.AAAB = [s1; s2] /\
       length (games s1) = 3%nat /\ series_type s1 = Bo3 /\
       length (games s2) = 1%nat /\ series_type s2 = Custom /\
       wins_needed (Z.of_nat (length (games s2))) = 1).
Proof.
  split; [repeat constructor |].
  split; [vm_compute; reflexivity |].
  split; [vm_compute; reflexivity |].
  split; [vm_compute; reflexivity |].
  split; [apply (bool_decide_unpack _); vm_compute; exact I |].
  intros (s1 & s2 & Hd & _ & _ & _ & Ht & _).
  assert (Hk : List.map series_type (detect_series Fixtures.display Fixtures.AAAB)
               = [Bo3; Bo3]) by (vm_compute; reflexivity).
  rewrite Hd in Hk. cbn in Hk. rewrite Ht in Hk. discriminate.
Qed.

(** C4 (as amended): the signature of a match is the ordered pair (Red
    name set, Blue name set): its first component holds exactly the
    lowercased names of the Red roster entries and its second those of the
    Blue entries.  When two consecutive matches have the same Red set and
    the same Blue set, the second is appended to the games of the open
    series; when the Red sets or the Blue sets differ, which includes
    exchanged sides with different sets, the open series is closed and the
    second match starts a new series. *)
Theorem signature_is_ordered_pair (f : string -> string) (st : detect_state)
    (g1 g2 : game) :
  (forall n, n ∈ fst (get_team_signature g1) <-> side_names "Red" g1 n) /\
  (forall n, n ∈ snd (get_team_signature g1) <-> side_names "Blue" g1 n) /\
  (same_side_names "Red" g1 g2 -> same_side_names "Blue" g1 g2 ->
   continues_series f st g1 g2) /\
  (~ (same_side_names "Red" g1 g2 /\ same_side_names "Blue" g1 g2) ->
   starts_new_series f st g1 g2).
Proof.
  split; [intros n; apply side_names_elem |].
  split; [intros n; apply side_names_elem |].
  split.
  - intros Hr Hb. apply consecutive_same_signature.
    apply signature_same_iff. now split.
  - intros Hne. apply consecutive_other_signature.
    intros He. apply Hne. now apply signature_same_iff.
Qed.

(** C4, witness of the hypotheses: the same rosters twice, and the same
    rosters with the sides exchanged. *)
Lemma signature_is_ordered_pair_witness :
  continues_series Fixtures.display detect_init Fixtures.g1 Fixtures.g2 /\
  starts_new_series Fixtures.display detect_init Fixtures.g1 Fixtures.g2_swapped.
Proof.
  split.
  - apply (proj1 (proj2 (proj2 (signature_is_ordered_pair Fixtures.display
                                   detect_init Fixtures.g1 Fixtures.g2))));
      apply same_side_names_sets; vm_compute; reflexivity.
  - apply (proj2 (proj2 (proj2 (signature_is_ordered_pair Fixtures.display
                                   detect_init Fixtures.g1 Fixtures.g2_swapped)))).
    intros [Hr _]. apply same_side_names_sets in Hr. revert Hr.
    apply (bool_decide_unpack _). vm_compute. exact I.
Defined.

(** C4 as stated fails: two consecutive matches whose rosters form the same
    unordered pair, with Red and Blue exchanged, are not grouped; the
    second is not appended to the open series but starts a new one, and
    two series are returned. *)
Lemma swapped_sides_start_new_series :
  same_unordered_pair (get_team_signature Fixtures.g1)
                      (get_team_signature Fixtures.g2_swapped) /\
  (forall n, side_names "Red" Fixtures.g1 n <-> side_names "Blue" Fixtures.g2_swapped n) /\
  (forall n, side_names "Blue" Fixtures.g1 n <-> side_names "Red" Fixtures.g2_swapped n) /\
  ~ continues_series Fixtures.display detect_init Fixtures.g1 Fixtures.g2_swapped /\
  starts_new_series Fixtures.display detect_init Fixtures.g1 Fixtures.g2_swapped /\
  length (detect_series Fixtures.display [Fixtures.g1; Fixtures.g2_swapped]) = 2%nat.
Proof.
  split; [right; vm_compute; reflexivity |].
  split; [apply side_names_of_sets; vm_compute; reflexivity |].
  split; [apply side_names_of_sets; vm_compute; reflexivity |].
  split; [| split; [| vm_compute; reflexivity]].
  - unfold continues_series. cbv zeta.
    intros (sig1 & cs1 & sig2 & cs2 & earlier & _ & _ & _ & _ & _ & _ & _ & _ & _ & _ & Hc).
    vm_compute in Hc. discriminate.
  - apply consecutive_other_signature.
    apply (bool_decide_unpack _). vm_compute. exact I.
Qed.

(** C10: when the Red rosters and the Blue rosters of two consecutive
    matches are equal as sets up to ASCII letter case of the names, the
    signatures are equal and the second match continues the open series:
    it is appended to the games of the series that the first match is the
    last game of. *)
Theorem series_continuity_case_insensitive (f : string -> string)
    (st : detect_state) (g1 g2 : game) :
  rosters_eq_nocase "Red" g1 g2 ->
  rosters_eq_nocase "Blue" g1 g2 ->
  get_team_signature g1 = get_team_signature g2 /\
  continues_series f st g1 g2.
Proof.
  intros Hr Hb. pose proof (signature_eq_nocase g1 g2 Hr Hb) as He.
  split; [exact He | now apply consecutive_same_signature].
Qed.

(** C10, witness of the hypotheses: "Alice"/"Bob" followed by "ALICE"/"bob". *)
Lemma series_continuity_case_insensitive_witness :
  get_team_signature Fixtures.g1 = get_team_signature Fixtures.g2_case /\
  continues_series Fixtures.display detect_init Fixtures.g1 Fixtures.g2_case.
Proof.
  apply (series_continuity_case_insensitive Fixtures.display detect_init
           Fixtures.g1 Fixtures.g2_case).
  - split; intros n Hn; simpl in Hn; destruct Hn as [<- | []];
      eexists; (split; [left; reflexivity |]); vm_compute; tauto.
  - split; intros n Hn; simpl in Hn; destruct Hn as [<- | []];
      eexists; (split; [left; reflexivity |]); vm_compute; tauto.
Defined.

(** ** Factor table *)

(** C3 (as amended): both factor functions are total; when every table
    entry lies in (0, 1] so does the result.  The loss factor is exactly 1
    when the rank is at least 30 or the table has no entry for the rank.
    The win factor is exactly 1 when the rank is at most 40; above 40 it is
    the table entry, and 1/2 when the table has no entry for the rank. *)
Theorem factor_functions (rank : Z) (wf lf : gmap string Q) :
  factor_table_ok wf -> factor_table_ok lf ->
  ((0 < get_win_factor rank wf)%Q /\ (get_win_factor rank wf <= 1)%Q) /\
  ((0 < get_loss_factor rank lf)%Q /\ (get_loss_factor rank lf <= 1)%Q) /\
  (rank <= 40 -> get_win_factor rank wf = 1%Q) /\
  (40 < rank -> get_win_factor rank wf = default (1 # 2)%Q (wf !! PyStr.str rank)) /\
  (30 <= rank \/ lf !! PyStr.str rank = None -> get_loss_factor rank lf = 1%Q) /\
  (rank < 30 -> get_loss_factor rank lf = default 1%Q (lf !! PyStr.str rank)).
Proof.
  intros Hw Hl. unfold get_win_factor, get_loss_factor.
  assert (H1 : (0 < 1)%Q /\ (1 <= 1)%Q) by (split; [reflexivity | discriminate]).
  assert (H2 : (0 < 1 # 2)%Q /\ (1 # 2 <= 1)%Q) by (split; [reflexivity | discriminate]).
  repeat split.
  - destruct (rank <=? 40); [apply H1 |].
    destruct (wf !! PyStr.str rank) as [q |] eqn:E; simpl; [apply (Hw _ _ E) | apply H2].
  - destruct (rank <=? 40); [apply H1 |].
    destruct (wf !! PyStr.str rank) as [q |] eqn:E; simpl; [apply (Hw _ _ E) | apply H2].
  - destruct (30 <=? rank); [apply H1 |].
    destruct (lf !! PyStr.str rank) as [q |] eqn:E; simpl; [apply (Hl _ _ E) | apply H1].
  - destruct (30 <=? rank); [apply H1 |].
    destruct (lf !! PyStr.str rank) as [q |] eqn:E; simpl; [apply (Hl _ _ E) | apply H1].
  - intros H. destruct (Z.leb_spec rank 40); [reflexivity | lia].
  - intros H. destruct (Z.leb_spec rank 40); [lia | reflexivity].
  - intros [H | H].
    + destruct (Z.leb_spec 30 rank); [reflexivity | lia].
    + rewrite H. now destruct (30 <=? rank).
  - intros H. destruct (Z.leb_spec 30 rank); [lia | reflexivity].
Qed.

(** C3, witness of the hypotheses: rank 45 with the tables
    [{"45": 3/4}] and [{"10": 1/4}]. *)
Lemma factor_functions_witness :
  ((0 < get_win_factor 45 {[ "45" := (3 # 4)%Q ]})%Q /\
   (get_win_factor 45 {[ "45" := (3 # 4)%Q ]} <= 1)%Q) /\
  ((0 < get_loss_factor 45 {[ "10" := (1 # 4)%Q ]})%Q /\
   (get_loss_factor 45 {[ "10" := (1 # 4)%Q ]} <= 1)%Q) /\
  (45 <= 40 -> get_win_factor 45 {[ "45" := (3 # 4)%Q ]} = 1%Q) /\
  (40 < 45 -> get_win_factor 45 {[ "45" := (3 # 4)%Q ]} =
              default (1 # 2)%Q (({[ "45" := (3 # 4)%Q ]} : gmap string Q) !! PyStr.str 45)) /\
  (30 <= 45 \/ ({[ "10" := (1 # 4)%Q ]} : gmap string Q) !! PyStr.str 45 = None ->
   get_loss_factor 45 {[ "10" := (1 # 4)%Q ]} = 1%Q) /\
  (45 < 30 -> get_loss_factor 45 {[ "10" := (1 # 4)%Q ]} =
              default 1%Q (({[ "10" := (1 # 4)%Q ]} : gmap string Q) !! PyStr.str 45)).
Proof.
  apply (factor_functions 45 {[ "45" := (3 # 4)%Q ]} {[ "10" := (1 # 4)%Q ]}).
  - intros k q H. apply lookup_singleton_Some in H as [_ <-].
    split; [reflexivity | discriminate].
  - intros k q H. apply lookup_singleton_Some in H as [_ <-].
    split; [reflexivity | discriminate].
Defined.

(** C3 as stated fails: for rank 41 and a win table without an entry for
    41 the win factor is 1/2, not 1. *)
Lemma win_factor_default_is_half :
  (∅ : gmap string Q) !! PyStr.str 41 = None /\
  factor_table_ok ∅ /\
  get_win_factor 41 ∅ = (1 # 2)%Q /\
  ~ (get_win_factor 41 ∅ == 1)%Q.
Proof.
  split; [apply lookup_empty |].
  split; [intros k q H; now rewrite lookup_empty in H |].
  split; [reflexivity |].
  vm_compute. discriminate.
Qed.

(** ** Rank table *)

Lemma statsranks_rank_from_bounds (n : nat) (xp : Z) (th : gmap Z (Z * Z)) (r : Z) :
  STATSRANKS_new.calculate_rank_from n xp th = Ok r -> 1 <= r <= Z.max 1 (Z.of_nat n).
Proof.
  revert r; induction n as [| k IH]; intros r; cbn [STATSRANKS_new.calculate_rank_from].
  - intros [= <-]. lia.
  - destruct (th !! Z.of_nat (S k)) as [[lo hi] |]; [| discriminate].
    destruct (lo <=? xp).
    + intros [= <-]. lia.
    + intros H. apply IH in H. lia.
Qed.

(** The lookup of [STATSRANKS_new.py], which only tests the lower bound,
    never decreases when xp grows, whatever the table. *)
Lemma statsranks_rank_from_mono (n : nat) (xp1 xp2 : Z) (th : gmap Z (Z * Z)) (r1 r2 : Z) :
  xp1 <= xp2 ->
  STATSRANKS_new.calculate_rank_from n xp1 th = Ok r1 ->
  STATSRANKS_new.calculate_rank_from n xp2 th = Ok r2 ->
  r1 <= r2.
Proof.
  intros Hle. revert r1 r2; induction n as [| k IH]; intros r1 r2;
    cbn [STATSRANKS_new.calculate_rank_from].
  - intros [= <-] [= <-]. lia.
  - destruct (th !! Z.of_nat (S k)) as [[lo hi] |]; [| discriminate].
    destruct (Z.leb_spec lo xp1), (Z.leb_spec lo xp2); try lia.
    + intros [= <-] [= <-]. lia.
    + intros H1 [= <-]. apply statsranks_rank_from_bounds in H1. lia.
    + apply IH.
Qed.

Lemma statsranks_calculate_rank_mono (xp1 xp2 : Z) (th : gmap Z (Z * Z)) (r1 r2 : Z) :
  xp1 <= xp2 ->
  STATSRANKS_new.calculate_rank xp1 th = Ok r1 ->
  STATSRANKS_new.calculate_rank xp2 th = Ok r2 ->
  r1 <= r2.
Proof. apply statsranks_rank_from_mono. Qed.

(** [STATSRANKS_new.calculate_rank] returns a level as soon as the fifty
    levels are present. *)
Lemma statsranks_calculate_rank_total (xp : Z) (th : gmap Z (Z * Z)) :
  (forall n, (1 <= n <= 50)%nat -> is_Some (th !! Z.of_nat n)) ->
  exists r, STATSRANKS_new.calculate_rank xp th = Ok r.
Proof.
  intros Hp. unfold STATSRANKS_new.calculate_rank.
  assert (H : forall n, (n <= 50)%nat ->
            exists r, STATSRANKS_new.calculate_rank_from n xp th = Ok r).
  { induction n as [| k IH]; intros Hn; cbn [STATSRANKS_new.calculate_rank_from].
    - now eexists.
    - destruct (Hp (S k)) as [[lo hi] ->]; [lia |].
      destruct (lo <=? xp); [now eexists | apply IH; lia]. }
  now apply H.
Qed.

Section ValidThresholds.
Variable th : gmap string (Z * Z).
Hypothesis Hvalid : valid_thresholds th.

Lemma levels_increasing (m n : nat) (lo hi lo' hi' : Z) :
  (1 <= m)%nat -> (m < n)%nat -> (n <= 50)%nat ->
  level_entry th m = Some (lo, hi) ->
  level_entry th n = Some (lo', hi') ->
  hi < lo'.
Proof.
  intros Hm Hlt. revert lo' hi'.
  induction Hlt as [| n Hlt IH]; intros lo' hi' Hn Em En.
  - rewrite (vt_contiguous th Hvalid m lo hi lo' hi'); [lia | lia | exact Em | exact En].
  - destruct (vt_present th Hvalid n) as (lo1 & hi1 & E1 & Hle1); [lia |].
    specialize (IH lo1 hi1 ltac:(lia) Em E1).
    rewrite (vt_contiguous th Hvalid n lo1 hi1 lo' hi'); [lia | lia | exact E1 | exact En].
Qed.

(** An xp value inside level [m] is mapped to [m]. *)
Lemma calculate_rank_from_in_level (m n : nat) (lo hi xp : Z) :
  (1 <= m)%nat -> (m <= n)%nat -> (n <= 50)%nat ->
  level_entry th m = Some (lo, hi) ->
  lo <= xp <= hi ->
  calculate_rank_from n xp th = Z.of_nat m.
Proof.
  intros Hm Hmn. induction Hmn as [| n Hmn IH]; intros Hn Em Hxp.
  - destruct m as [| k]; [lia |]. cbn [calculate_rank_from].
    unfold level_entry in Em. rewrite Em.
    destruct (Z.leb_spec lo xp), (Z.leb_spec xp hi); try lia. reflexivity.
  - cbn [calculate_rank_from].
    destruct (vt_present th Hvalid (S n)) as (lo' & hi' & En & Hle); [lia |].
    unfold level_entry in En. rewrite En.
    pose proof (levels_increasing m (S n) lo hi lo' hi' Hm ltac:(lia) Hn Em En) as Hinc.
    destruct (Z.leb_spec lo' xp); [lia |]. cbn [andb].
    apply IH; [lia | exact Em | exact Hxp].
Qed.

Lemma level_exists_below (n : nat) (xp lo hi : Z) :
  (1 <= n <= 50)%nat ->
  level_entry th n = Some (lo, hi) ->
  0 <= xp <= hi ->
  exists m lo' hi', (1 <= m <= n)%nat /\ level_entry th m = Some (lo', hi') /\
                    lo' <= xp <= hi'.
Proof.
  revert lo hi. induction n as [| n IH]; intros lo hi Hn En Hxp; [lia |].
  destruct (Nat.eq_dec n 0%nat) as [-> | Hn0].
  - destruct (vt_first th Hvalid) as [hi1 E1]. rewrite E1 in En. injection En as <- <-.
    exists 1%nat, 0, hi1. repeat split; try lia. exact E1.
  - destruct (vt_present th Hvalid n) as (lo1 & hi1 & E1 & Hle1); [lia |].
    pose proof (vt_contiguous th Hvalid n lo1 hi1 lo hi ltac:(lia) E1 En) as Hc.
    destruct (Z_lt_le_dec xp lo) as [Hlt | Hge].
    + destruct (IH lo1 hi1 ltac:(lia) E1 ltac:(lia)) as (m & lo' & hi' & Hm & Em & Hin).
      exists m, lo', hi'. repeat split; try lia. exact Em.
    + exists (S n), lo, hi. repeat split; try lia. exact En.
Qed.

(** Inside the range covered by a valid table, [calculate_rank] of
    [populate_stats.py] never decreases when xp grows. *)
Lemma calculate_rank_mono_in_range (xp1 xp2 : Z) :
  0 <= xp1 -> xp1 <= xp2 -> xp2 <= top_bound th ->
  calculate_rank xp1 th <= calculate_rank xp2 th.
Proof.
  intros H0 H12 Htop. unfold top_bound in Htop.
  destruct (vt_present th Hvalid 50) as (lo50 & hi50 & E50 & Hle50); [lia |].
  rewrite E50 in Htop.
  destruct (level_exists_below 50 xp1 lo50 hi50 ltac:(lia) E50 ltac:(lia))
    as (m1 & l1 & h1 & Hm1 & E1 & Hin1).
  destruct (level_exists_below 50 xp2 lo50 hi50 ltac:(lia) E50 ltac:(lia))
    as (m2 & l2 & h2 & Hm2 & E2 & Hin2).
  unfold calculate_rank.
  rewrite (calculate_rank_from_in_level m1 50 l1 h1 xp1); try lia; try exact E1.
  rewrite (calculate_rank_from_in_level m2 50 l2 h2 xp2); try lia; try exact E2.
  destruct (Nat.le_gt_cases m1 m2) as [Hle | Hgt]; [lia |].
  pose proof (levels_increasing m2 m1 l2 h2 l1 h1 ltac:(lia) Hgt ltac:(lia) E2 E1).
  lia.
Qed.

End ValidThresholds.

Lemma default_thresholds_valid :
  valid_thresholds STATSRANKS_new.default_rank_thresholds.
Proof.
  assert (Hall : forall n, (1 <= n <= 50)%nat ->
            exists lo hi,
              level_entry STATSRANKS_new.default_rank_thresholds n = Some (lo, hi) /\
              lo <= hi /\ (n = 1%nat -> lo = 0) /\
              (forall lo' hi', (n < 50)%nat ->
                 level_entry STATSRANKS_new.default_rank_thresholds (S n) = Some (lo', hi') ->
                 lo' = hi + 1)).
  { intros n Hn.
    assert (Hlevel : forall k lo hi lo1 hi1,
              level_entry STATSRANKS_new.default_rank_thresholds k = Some (lo, hi) ->
              lo <= hi -> (k = 1%nat -> lo = 0) ->
              ((k < 50)%nat ->
               level_entry STATSRANKS_new.default_rank_thresholds (S k) = Some (lo1, hi1) /\
               lo1 = hi + 1) ->
              exists lo hi,
                level_entry STATSRANKS_new.default_rank_thresholds k = Some (lo, hi) /\
                lo <= hi /\ (k = 1%nat -> lo = 0) /\
                (forall lo' hi', (k < 50)%nat ->
                   level_entry STATSRANKS_new.default_rank_thresholds (S k) = Some (lo', hi') ->
                   lo' = hi + 1)).
    { intros k lo hi lo1 hi1 E Hle H1 Hnext. exists lo, hi.
      repeat split; try assumption.
      intros lo' hi' Hk E'. destruct (Hnext Hk) as [E1 ->]. congruence. }
    destruct n as [| n]; [lia |].
    do 49 (destruct n as [| n];
           [ eapply Hlevel;
             [ vm_compute; reflexivity | lia | intros; first [reflexivity | lia]
             | intros _; split; [vm_compute; reflexivity | reflexivity] ] |]).
    destruct n as [| n]; [| lia].
    eapply (Hlevel 50%nat _ _ 0 0);
      [ vm_compute; reflexivity | lia | intros; lia | intros; lia ]. }
  split.
  - intros n Hn. destruct (Hall n Hn) as (lo & hi & E & Hle & _). eauto.
  - destruct (Hall 1%nat ltac:(lia)) as (lo & hi & E & _ & H0 & _).
    rewrite (H0 eq_refl) in E. eauto.
  - intros n lo hi lo' hi' Hn E E'.
    destruct (Hall n ltac:(lia)) as (lo1 & hi1 & E1 & _ & _ & Hc).
    rewrite E in E1. injection E1 as <- <-. apply (Hc lo' hi'); [lia | exact E'].
Qed.

(** C7, the failing input: with the default table, which is valid,
    [calculate_rank] of [populate_stats.py] gives level 50 at xp 10239 and
    falls back to level 1 at xp 1000000001, above the upper bound of level
    50, while [calculate_rank] of [STATSRANKS_new.py] gives level 50 for
    both. *)
Theorem calculate_rank_drops_above_top :
  valid_thresholds STATSRANKS_new.default_rank_thresholds /\
  calculate_rank 10239 STATSRANKS_new.default_rank_thresholds = 50 /\
  calculate_rank 1000000001 STATSRANKS_new.default_rank_thresholds = 1 /\
  STATSRANKS_new.calculate_rank 10239 STATSRANKS_new.default_thresholds = Ok 50 /\
  STATSRANKS_new.calculate_rank 1000000001 STATSRANKS_new.default_thresholds = Ok 50.
Proof.
  split; [exact default_thresholds_valid |].
  repeat split; vm_compute; reflexivity.
Qed.

(** The same fall-back with the two-level table [{"1": [0, 88],
    "2": [89, 188]}]: 100 xp is level 2, 200 xp is level 1. *)
Lemma calculate_rank_two_levels :
  calculate_rank 100 {[ "1" := (0, 88); "2" := (89, 188) ]} = 2 /\
  calculate_rank 200 {[ "1" := (0, 88); "2" := (89, 188) ]} = 1.
Proof. split; vm_compute; reflexivity. Qed.

(** ** Outcome resolver *)

Lemma collect_step_shape (ts : teams_t) (r b : option (Z * list string)) (p : player) :
  teams_shape ts r b ->
  teams_shape (collect_step ts p)
    (if on_team "Red" p then side_add r p else r)
    (if on_team "Blue" p then side_add b p else b).
Proof.
  intros Hs. unfold collect_step, on_team, PyStr.mem. cbn [existsb].
  destruct (String.eqb_spec (PyStr.strip (team p)) "Red") as [-> | Hr].
  - cbn. destruct r as [[sr lr] |], b as [[sb lb] |]; cbn in Hs |- *.
    + destruct Hs as [-> | ->]; cbn; auto.
    + subst ts. reflexivity.
    + subst ts. cbn. auto.
    + subst ts. reflexivity.
  - destruct (String.eqb_spec (PyStr.strip (team p)) "Blue") as [-> | Hb].
    + cbn. destruct r as [[sr lr] |], b as [[sb lb] |]; cbn in Hs |- *.
      * destruct Hs as [-> | ->]; cbn; auto.
      * subst ts. cbn. auto.
      * subst ts. reflexivity.
      * subst ts. reflexivity.
    + rewrite andb_false_r. exact Hs.
Qed.

Lemma collect_teams_shape (ps : list player) (ts : teams_t)
    (r b : option (Z * list string)) :
  teams_shape ts r b ->
  teams_shape (fold_left collect_step ps ts) (side_acc "Red" ps r) (side_acc "Blue" ps b).
Proof.
  revert ts r b. induction ps as [| p ps IH]; intros ts r b Hs; [exact Hs |].
  cbn [fold_left side_acc]. apply IH. now apply collect_step_shape.
Qed.

Lemma side_acc_score (t : string) (ps : list player) (init : option (Z * list string)) :
  score_of (side_acc t ps init) =
  score_of init + fold_right Z.add 0 (List.map score_numeric (List.filter (on_team t) ps)).
Proof.
  revert init. induction ps as [| p ps IH]; intros init; cbn [side_acc fold_left].
  - cbn. lia.
  - unfold side_acc in IH. rewrite IH. cbn [List.filter].
    destruct (on_team t p); [| reflexivity].
    cbn [List.map fold_right]. destruct init as [[s l] |]; cbn; lia.
Qed.



(** ** Progression ledger *)

Lemma sel_with_field (f f' : field) (d : gmap string (gmap string Z)) (T : tables) :
  sel f' (with_field f d T) = if decide (f' = f) then d else sel f' T.
Proof. destruct f, f'; reflexivity. Qed.

Lemma val_put (f f' : field) (n n' pl pl' : string) (v : Z) (T : tables) :
  val f' (put f n pl v T) n' pl' =
  if decide (f' = f /\ n' = n /\ pl' = pl) then Some v else val f' T n' pl'.
Proof.
  unfold val, put. rewrite sel_with_field.
  destruct (decide (f' = f)) as [-> | Hf].
  - rewrite lookup_insert. destruct (decide (n = n')) as [-> | Hn].
    + simpl. rewrite lookup_insert. destruct (decide (pl = pl')) as [-> | Hp].
      * rewrite decide_True; [reflexivity | auto].
      * rewrite decide_False; [| intros (_ & _ & ->); contradiction].
        now destruct (sel f T !! n').
    + rewrite decide_False; [reflexivity | intros (_ & -> & _); contradiction].
  - rewrite decide_False; [reflexivity | intros (-> & _); contradiction].
Qed.

Lemma val_put_eq (f : field) (n pl : string) (v : Z) (T : tables) :
  val f (put f n pl v T) n pl = Some v.
Proof. rewrite val_put. now rewrite decide_True. Qed.

Lemma val_put_ne (f f' : field) (n n' pl pl' : string) (v : Z) (T : tables) :
  f' <> f \/ (n', pl') <> (n, pl) ->
  val f' (put f n pl v T) n' pl' = val f' T n' pl'.
Proof.
  intros H. rewrite val_put. rewrite decide_False; [reflexivity |].
  intros (-> & -> & ->). destruct H; congruence.
Qed.

Lemma sel_put_is_Some (f f' : field) (n n' pl : string) (v : Z) (T : tables) :
  is_Some (sel f T !! n) ->
  is_Some (sel f' (put f n pl v T) !! n') <-> is_Some (sel f' T !! n').
Proof.
  intros Hn. unfold put. rewrite sel_with_field.
  destruct (decide (f' = f)) as [-> | Hf]; [| reflexivity].
  rewrite lookup_insert. destruct (decide (n = n')) as [-> | Hne]; [| reflexivity].
  split; [intros _; exact Hn | intros _; now eexists].
Qed.

Lemma sel_put_mono (f f' : field) (n n' pl : string) (v : Z) (T : tables) :
  is_Some (sel f' T !! n') -> is_Some (sel f' (put f n pl v T) !! n').
Proof.
  intros H. unfold put. rewrite sel_with_field.
  destruct (decide (f' = f)) as [-> | Hf]; [| exact H].
  rewrite lookup_insert. destruct (decide (n = n')); [now eexists | exact H].
Qed.

Lemma val_is_Some_sel (f : field) (T : tables) (n pl : string) :
  is_Some (val f T n pl) -> is_Some (sel f T !! n).
Proof.
  unfold val. destruct (sel f T !! n); [now eexists | intros [x Hx]; discriminate].
Qed.

Lemma set2_put (f : field) (n pl : string) (v : Z) (T : tables) :
  is_Some (sel f T !! n) -> set2 f n pl v T = Ok (put f n pl v T).
Proof.
  intros [m Hm]. unfold set2, put, getitem. now rewrite Hm.
Qed.

Lemma get2_val (f : field) (n pl : string) (x : Z) (T : tables) :
  val f T n pl = Some x -> get2 f n pl T = Ok x.
Proof.
  unfold val, get2, getitem. destruct (sel f T !! n) as [m |]; [| discriminate].
  simpl. now intros ->.
Qed.

Lemma add2_put (f : field) (n pl : string) (x v : Z) (T : tables) :
  val f T n pl = Some x -> add2 f n pl v T = Ok (put f n pl (x + v) T).
Proof.
  intros Hx. unfold add2. rewrite (get2_val _ _ _ _ _ Hx). cbn.
  apply set2_put. apply (val_is_Some_sel f T n pl). exists x. exact Hx.
Qed.

Lemma value_of_Some (f : field) (T : tables) (n pl : string) (x : Z) :
  val f T n pl = Some x -> value_of f T n pl = x.
Proof. unfold value_of. now intros ->. Qed.

(** Rewriting of reads through a chain of writes. *)
Ltac val_simpl :=
  repeat first
    [ rewrite val_put_eq
    | rewrite val_put_ne by (left; discriminate) ].

Lemma init_playlist_ok (n pl : string) (T : tables) :
  (forall f, is_Some (sel f T !! n)) ->
  init_playlist n pl T = Ok (after_init n pl T).
Proof.
  intros Hn. unfold init_playlist, after_init.
  do 5 (rewrite set2_put by (repeat apply sel_put_mono; apply Hn); cbn).
  rewrite set2_put by (repeat apply sel_put_mono; apply Hn).
  reflexivity.
Qed.

Lemma after_init_val (n pl : string) (T : tables) (f : field) :
  val f (after_init n pl T) n pl = Some (initial f).
Proof. unfold after_init. destruct f; val_simpl; reflexivity. Qed.

Lemma after_init_frame (n pl n' pl' : string) (T : tables) (f : field) :
  (n', pl') <> (n, pl) -> val f (after_init n pl T) n' pl' = val f T n' pl'.
Proof.
  intros H. unfold after_init. now rewrite !val_put_ne by (right; exact H).
Qed.

Lemma after_init_sel (n pl n' : string) (T : tables) (f : field) :
  (forall f, is_Some (sel f T !! n)) ->
  is_Some (sel f (after_init n pl T) !! n') <-> is_Some (sel f T !! n').
Proof.
  intros Hn. unfold after_init.
  do 6 (rewrite sel_put_is_Some by (repeat apply sel_put_mono; apply Hn)).
  reflexivity.
Qed.

Lemma succeeds_ex {A} (r : result A) (Q : A -> Prop) :
  succeeds r Q -> exists a, r = Ok a /\ Q a.
Proof. destruct r; simpl; [eauto | tauto]. Qed.

Lemma bind_Ok {A B} (a : A) (k : A -> result B) : (Ok a ≫= k) = k a.
Proof. reflexivity. Qed.

Section LedgerProps.
Variable cfg : xp_config.

Ltac present Hall :=
  repeat apply sel_put_mono; eapply val_is_Some_sel; apply Hall.

Lemma apply_result_spec (winners losers : list string) (pl n : string) (T : tables) :
  (forall f, is_Some (val f T n pl)) ->
  exists T',
    apply_result cfg winners losers pl n T = Ok T' /\
    (forall f, val f T' n pl =
               Some (next_value cfg (classify n winners losers) T n pl f)) /\
    (forall f n' pl', (n', pl') <> (n, pl) -> val f T' n' pl' = val f T n' pl') /\
    (forall f n', is_Some (sel f T' !! n') <-> is_Some (sel f T !! n')).
Proof.
  intros Hall. apply succeeds_ex.
  destruct (Hall Fxp) as [x Hx]. destruct (Hall Fwins) as [w Hw].
  destruct (Hall Flosses) as [l Hl]. destruct (Hall Fgames) as [g Hg].
  destruct (Hall Frank) as [r Hr]. destruct (Hall Fhighest) as [h Hh].
  unfold apply_result, classify, next_value, xp_of, wins_of, losses_of, games_of,
    rank_of, highest_of.
  rewrite !(value_of_Some _ _ _ _ _ Hx), !(value_of_Some _ _ _ _ _ Hw),
    !(value_of_Some _ _ _ _ _ Hl), !(value_of_Some _ _ _ _ _ Hg),
    !(value_of_Some _ _ _ _ _ Hr), !(value_of_Some _ _ _ _ _ Hh).
  rewrite (get2_val _ _ _ _ _ Hx), bind_Ok, (get2_val _ _ _ _ _ Hr), bind_Ok.
  destruct (PyStr.mem n winners); [| destruct (PyStr.mem n losers)]; cbn [next_xp].
  - (* win *)
    erewrite add2_put by (val_simpl; eassumption). rewrite bind_Ok.
    erewrite add2_put by (val_simpl; eassumption). rewrite bind_Ok.
    erewrite add2_put by (val_simpl; eassumption). rewrite bind_Ok.
    erewrite get2_val by (val_simpl; reflexivity). rewrite bind_Ok.
    rewrite set2_put by (present Hall). rewrite bind_Ok.
    erewrite get2_val by (val_simpl; eassumption). rewrite bind_Ok.
    set (xp' := x + py_int _).
    destruct (Z.ltb_spec h (calculate_rank xp' (rank_thresholds cfg))).
    + rewrite set2_put by (present Hall). cbn [succeeds].
      split; [| split].
      * intros f; destruct f; val_simpl; rewrite ?Hx, ?Hw, ?Hl, ?Hg, ?Hr, ?Hh; f_equal; lia.
      * intros f n' pl' Hne. now rewrite !val_put_ne by (right; exact Hne).
      * intros f n'. rewrite !sel_put_is_Some by (present Hall). reflexivity.
    + cbn [succeeds mret result_ret].
      split; [| split].
      * intros f; destruct f; val_simpl; rewrite ?Hx, ?Hw, ?Hl, ?Hg, ?Hr, ?Hh; f_equal; lia.
      * intros f n' pl' Hne. now rewrite !val_put_ne by (right; exact Hne).
      * intros f n'. rewrite !sel_put_is_Some by (present Hall). reflexivity.
  - (* loss *)
    erewrite add2_put by (val_simpl; eassumption). rewrite bind_Ok.
    erewrite add2_put by (val_simpl; eassumption). rewrite bind_Ok.
    erewrite add2_put by (val_simpl; eassumption). rewrite bind_Ok.
    erewrite get2_val by (val_simpl; reflexivity). rewrite bind_Ok.
    set (d := py_int (py_float_mul (game_loss cfg) (get_loss_factor r (loss_factors cfg)))).
    destruct (Z.ltb_spec (x + d) 0) as [Hneg | Hpos].
    + rewrite set2_put by (present Hall). rewrite bind_Ok.
      erewrite get2_val by (val_simpl; reflexivity). rewrite bind_Ok.
      rewrite set2_put by (present Hall). rewrite bind_Ok.
      erewrite get2_val by (val_simpl; eassumption). rewrite bind_Ok.
      rewrite (Z.max_l 0 (x + d)) by lia.
      destruct (Z.ltb_spec h (calculate_rank 0 (rank_thresholds cfg))).
      * rewrite set2_put by (present Hall). cbn [succeeds].
        split; [| split].
        -- intros f; destruct f; val_simpl; rewrite ?Hx, ?Hw, ?Hl, ?Hg, ?Hr, ?Hh; f_equal; lia.
        -- intros f n' pl' Hne. now rewrite !val_put_ne by (right; exact Hne).
        -- intros f n'. rewrite !sel_put_is_Some by (present Hall). reflexivity.
      * cbn [succeeds mret result_ret].
        split; [| split].
        -- intros f; destruct f; val_simpl; rewrite ?Hx, ?Hw, ?Hl, ?Hg, ?Hr, ?Hh; f_equal; lia.
        -- intros f n' pl' Hne. now rewrite !val_put_ne by (right; exact Hne).
        -- intros f n'. rewrite !sel_put_is_Some by (present Hall). reflexivity.
    + cbn [mret result_ret]. rewrite bind_Ok.
      erewrite get2_val by (val_simpl; reflexivity). rewrite bind_Ok.
      rewrite set2_put by (present Hall). rewrite bind_Ok.
      erewrite get2_val by (val_simpl; eassumption). rewrite bind_Ok.
      rewrite (Z.max_r 0 (x + d)) by lia.
      destruct (Z.ltb_spec h (calculate_rank (x + d) (rank_thresholds cfg))).
      * rewrite set2_put by (present Hall). cbn [succeeds].
        split; [| split].
        -- intros f; destruct f; val_simpl; rewrite ?Hx, ?Hw, ?Hl, ?Hg, ?Hr, ?Hh; f_equal; lia.
        -- intros f n' pl' Hne. now rewrite !val_put_ne by (right; exact Hne).
        -- intros f n'. rewrite !sel_put_is_Some by (present Hall). reflexivity.
      * cbn [succeeds mret result_ret].
        split; [| split].
        -- intros f; destruct f; val_simpl; rewrite ?Hx, ?Hw, ?Hl, ?Hg, ?Hr, ?Hh; f_equal; lia.
        -- intros f n' pl' Hne. now rewrite !val_put_ne by (right; exact Hne).
        -- intros f n'. rewrite !sel_put_is_Some by (present Hall). reflexivity.
  - (* tie *)
    erewrite add2_put by (val_simpl; eassumption). rewrite bind_Ok.
    erewrite get2_val by (val_simpl; eassumption). rewrite bind_Ok.
    rewrite set2_put by (present Hall). rewrite bind_Ok.
    erewrite get2_val by (val_simpl; eassumption). rewrite bind_Ok.
    destruct (Z.ltb_spec h (calculate_rank x (rank_thresholds cfg))).
    + rewrite set2_put by (present Hall). cbn [succeeds].
      split; [| split].
      * intros f; destruct f; val_simpl; rewrite ?Hx, ?Hw, ?Hl, ?Hg, ?Hr, ?Hh; f_equal; lia.
      * intros f n' pl' Hne. now rewrite !val_put_ne by (right; exact Hne).
      * intros f n'. rewrite !sel_put_is_Some by (present Hall). reflexivity.
    + cbn [succeeds mret result_ret].
      split; [| split].
      * intros f; destruct f; val_simpl; rewrite ?Hx, ?Hw, ?Hl, ?Hg, ?Hr, ?Hh; f_equal; lia.
      * intros f n' pl' Hne. now rewrite !val_put_ne by (right; exact Hne).
      * intros f n'. rewrite !sel_put_is_Some by (present Hall). reflexivity.
Qed.

Lemma next_value_ext (o : outcome) (T T' : tables) (n pl : string) (f : field) :
  (forall f, value_of f T' n pl = value_of f T n pl) ->
  next_value cfg o T' n pl f = next_value cfg o T n pl f.
Proof.
  intros H. unfold next_value, xp_of, wins_of, losses_of, games_of, rank_of, highest_of.
  now rewrite !H.
Qed.

Lemma val_xp_lookup (T : tables) (n pl : string) (xs : gmap string Z) :
  player_playlist_xp T !! n = Some xs -> val Fxp T n pl = xs !! pl.
Proof. intros H. unfold val. cbn [sel]. now rewrite H. Qed.

(** A tracked name that is not a dedicated server makes one transition. *)
Lemma ledger_player_spec (winners losers : list string) (pl : string) (T : tables)
    (n : string) :
  well_formed T ->
  is_dedicated_server n = false ->
  is_Some (player_playlist_xp T !! n) ->
  exists T',
    ledger_player cfg winners losers pl T n = Ok T' /\
    transition cfg (classify n winners losers) n pl T T'.
Proof.
  intros Hwf Hd [xs Hxs]. unfold ledger_player. rewrite Hd, Hxs.
  destruct (Hwf n (mk_is_Some _ _ Hxs)) as [Hnames Hlock].
  pose proof (val_xp_lookup T n pl xs Hxs) as Hv.
  destruct (xs !! pl) as [x0 |] eqn:Hpl.
  - cbn [mret result_ret]. rewrite bind_Ok.
    apply apply_result_spec. intros f. apply Hlock. rewrite Hv. eauto.
  - rewrite (init_playlist_ok n pl T Hnames), bind_Ok.
    destruct (apply_result_spec winners losers pl n (after_init n pl T))
      as (T' & Hrun & Hval & Hframe & Hsel).
    { intros f. rewrite after_init_val. eauto. }
    exists T'. split; [exact Hrun |].
    assert (Hinit : forall f, value_of f (after_init n pl T) n pl = value_of f T n pl).
    { intros f. unfold value_of. rewrite after_init_val.
      assert (Hnone : val f T n pl = None).
      { destruct (val f T n pl) eqn:E; [| reflexivity].
        assert (Hs : is_Some (val Fxp T n pl)) by (apply (Hlock f pl); rewrite E; eauto).
        rewrite Hv in Hs. destruct Hs; discriminate. }
      now rewrite Hnone. }
    split; [| split].
    + intros f. rewrite Hval. apply (f_equal Some).
      apply next_value_ext. exact Hinit.
    + intros f n' pl' Hne. rewrite Hframe by exact Hne. now apply after_init_frame.
    + intros f n'. rewrite Hsel. now apply after_init_sel.
Qed.

(** Dedicated servers and names that are not tracked are skipped. *)
Lemma ledger_player_skip (winners losers : list string) (pl : string) (T : tables)
    (n : string) :
  is_dedicated_server n = true \/ player_playlist_xp T !! n = None ->
  ledger_player cfg winners losers pl T n = Ok T.
Proof.
  intros [H | H]; unfold ledger_player.
  - now rewrite H.
  - rewrite H. now destruct (is_dedicated_server n).
Qed.

Lemma value_of_frame (f : field) (T T' : tables) (n pl : string) :
  val f T' n pl = val f T n pl -> value_of f T' n pl = value_of f T n pl.
Proof. unfold value_of. now intros ->. Qed.

Lemma transition_value (o : outcome) (n pl : string) (T T' : tables) (f : field)
    (n' pl' : string) :
  transition cfg o n pl T T' ->
  value_of f T' n' pl' =
    if decide ((n', pl') = (n, pl)) then next_value cfg o T n pl f
    else value_of f T n' pl'.
Proof.
  intros (Hval & Hframe & _). destruct (decide ((n', pl') = (n, pl))) as [[= -> ->] | Hne].
  - unfold value_of. now rewrite Hval.
  - apply value_of_frame. now apply Hframe.
Qed.

Lemma transition_well_formed (o : outcome) (n pl : string) (T T' : tables) :
  well_formed T -> is_Some (player_playlist_xp T !! n) ->
  transition cfg o n pl T T' -> well_formed T'.
Proof.
  intros Hwf Hn (Hval & Hframe & Hsel) n0 Hn0.
  assert (Hn0' : is_Some (player_playlist_xp T !! n0)) by (now apply (Hsel Fxp n0)).
  destruct (Hwf n0 Hn0') as [Hnames Hlock]. split.
  - intros f. apply Hsel. apply Hnames.
  - intros f pl0. destruct (decide ((n0, pl0) = (n, pl))) as [[= -> ->] | Hne].
    + rewrite !Hval. split; intros _; eauto.
    + rewrite !Hframe by exact Hne. apply Hlock.
Qed.

(** The sign of a float is not negative. *)
Lemma binary_round_aux_sign (s : bool) (m e : Z) (l : location) :
  match binary_round_aux 53 1024 s m e l with
  | S754_finite s' _ _ | S754_infinity s' | S754_zero s' => s' = s
  | S754_nan => True
  end.
Proof.
  unfold binary_round_aux.
  destruct (shr_fexp 53 1024 m e l) as [mrs' e'].
  destruct (shr_fexp 53 1024 _ e' loc_Exact) as [mrs'' e''].
  destruct (shr_m mrs''); [reflexivity | | exact I].
  destruct (e'' <=? 1024 - 53); reflexivity.
Qed.

Lemma sf_nonneg_round (m e : Z) (l : location) :
  sf_nonneg (binary_round_aux 53 1024 false m e l).
Proof.
  pose proof (binary_round_aux_sign false m e l) as H. unfold sf_nonneg.
  destruct (binary_round_aux 53 1024 false m e l); auto.
Qed.

Lemma float_of_int_nonneg (n : Z) : 0 <= n -> sf_nonneg (float_of_int n).
Proof.
  intros Hn. unfold float_of_int, binary_normalize. destruct n as [| p | p]; [exact I | | lia].
  unfold binary_round. destruct (shl_align _ _ _) as [mz ez]. apply sf_nonneg_round.
Qed.

Lemma float_of_json_nonneg (q : Q) : (0 <= q)%Q -> sf_nonneg (float_of_json q).
Proof.
  unfold Qle, float_of_json. cbn [Qnum Qden]. intros H.
  destruct (Qnum q) as [| p | p]; [exact I | | lia].
  unfold SFdiv. destruct (SFdiv_core_binary _ _ _ _ _ _) as [[mz ez] lz].
  apply sf_nonneg_round.
Qed.

Lemma SFmul_nonneg (x y : spec_float) :
  sf_nonneg x -> sf_nonneg y -> sf_nonneg (SFmul 53 1024 x y).
Proof.
  destruct x as [sx | sx | | sx mx ex], y as [sy | sy | | sy my ey]; cbn [SFmul sf_nonneg];
    intros Hx Hy; subst; try exact I; try reflexivity.
  all: try (now destruct sx); try (now destruct sy).
  apply sf_nonneg_round.
Qed.

Lemma py_int_nonneg (x : spec_float) : sf_nonneg x -> 0 <= py_int x.
Proof.
  destruct x as [s | s | | s m e]; cbn [py_int sf_nonneg]; try (intros _; reflexivity).
  intros ->. cbv zeta. destruct (Z.leb_spec 0 e).
  - apply Z.mul_nonneg_nonneg; [lia | apply Z.pow_nonneg; lia].
  - apply Z.div_pos; [lia |]. apply Z.pow_pos_nonneg; lia.
Qed.

Lemma win_factor_nonneg (r : Z) :
  config_ok cfg -> (0 <= get_win_factor r (win_factors cfg))%Q.
Proof.
  intros [_ Hf]. unfold get_win_factor. destruct (r <=? 40); [discriminate |].
  destruct (win_factors cfg !! PyStr.str r) as [q |] eqn:E; simpl;
    [apply (Hf _ _ E) | discriminate].
Qed.

Lemma next_xp_nonneg (o : outcome) (x r : Z) :
  config_ok cfg -> 0 <= x -> 0 <= next_xp cfg o x r.
Proof.
  intros Hc Hx. destruct o; cbn [next_xp]; [| lia | lia].
  assert (0 <= py_int (py_float_mul (game_win cfg) (get_win_factor r (win_factors cfg))));
    [| lia].
  apply py_int_nonneg. apply SFmul_nonneg.
  - apply float_of_int_nonneg. now destruct Hc.
  - apply float_of_json_nonneg. now apply win_factor_nonneg.
Qed.

(** A transition keeps the invariant and does not lower any highest rank. *)
Lemma transition_invariant (o : outcome) (n pl : string) (T T' : tables) :
  config_ok cfg -> ledger_inv T -> is_Some (player_playlist_xp T !! n) ->
  transition cfg o n pl T T' ->
  ledger_inv T' /\ (forall n' pl', highest_of T n' pl' <= highest_of T' n' pl').
Proof.
  intros Hc [Hwf Hxp Hrk] Hn Htr. split; [split |].
  - exact (transition_well_formed o n pl T T' Hwf Hn Htr).
  - intros n' pl'. unfold xp_of. rewrite (transition_value o n pl T T' Fxp n' pl' Htr).
    destruct (decide ((n', pl') = (n, pl))); [| apply Hxp].
    cbn [next_value]. apply next_xp_nonneg; [exact Hc | apply Hxp].
  - intros n' pl'. unfold rank_of, highest_of.
    rewrite (transition_value o n pl T T' Frank n' pl' Htr),
      (transition_value o n pl T T' Fhighest n' pl' Htr).
    destruct (decide ((n', pl') = (n, pl))); [| apply Hrk].
    cbn [next_value]. lia.
  - intros n' pl'. unfold highest_of.
    rewrite (transition_value o n pl T T' Fhighest n' pl' Htr).
    destruct (decide ((n', pl') = (n, pl))) as [[= -> ->] | Hne]; [| lia].
    cbn [next_value]. unfold highest_of. lia.
Qed.

Lemma participates_true (T : tables) (n : string) :
  participates T n = true <->
  is_dedicated_server n = false /\ is_Some (player_playlist_xp T !! n).
Proof.
  unfold participates. rewrite andb_true_iff, negb_true_iff, bool_decide_eq_true.
  reflexivity.
Qed.

Lemma participates_false (T : tables) (n : string) :
  participates T n = false ->
  is_dedicated_server n = true \/ player_playlist_xp T !! n = None.
Proof.
  unfold participates. rewrite andb_false_iff, negb_false_iff, bool_decide_eq_false.
  intros [H | H]; [now left | right].
  destruct (player_playlist_xp T !! n); [exfalso; apply H; eauto | reflexivity].
Qed.

(** Every roster name either is skipped or makes one transition; the loop
    body never raises on well-formed tables. *)
Lemma ledger_player_total (winners losers : list string) (pl : string) (T : tables)
    (n : string) :
  well_formed T ->
  exists T',
    ledger_player cfg winners losers pl T n = Ok T' /\
    ((participates T n = false /\ T' = T) \/
     (participates T n = true /\ transition cfg (classify n winners losers) n pl T T')).
Proof.
  intros Hwf. destruct (participates T n) eqn:Hp.
  - apply participates_true in Hp as [Hd Hn].
    destruct (ledger_player_spec winners losers pl T n Hwf Hd Hn) as (T' & Hrun & Htr).
    exists T'. split; [exact Hrun | right; now split].
  - exists T. split; [| left; now split].
    apply ledger_player_skip. now apply participates_false.
Qed.

Lemma transition_participates (o : outcome) (n pl : string) (T T' : tables) (n' : string) :
  transition cfg o n pl T T' -> participates T' n' = participates T n'.
Proof.
  intros (_ & _ & Hsel). unfold participates. f_equal.
  apply bool_decide_ext. apply (Hsel Fxp n').
Qed.

Lemma mem_In (x : string) (l : list string) : PyStr.mem x l = true <-> In x l.
Proof.
  unfold PyStr.mem. rewrite existsb_exists. split.
  - intros (y & Hy & He). apply String.eqb_eq in He. now subst.
  - intros H. exists x. split; [exact H | apply String.eqb_refl].
Qed.

Lemma mem_cons (x a : string) (l : list string) :
  PyStr.mem x (a :: l) = String.eqb x a || PyStr.mem x l.
Proof. reflexivity. Qed.

(** The loop over the roster of one match: every name that participates
    makes exactly one transition from its values before the match; nothing
    else changes. *)
Lemma ledger_names_spec (winners losers : list string) (pl : string)
    (names : list string) (T : tables) :
  well_formed T -> NoDup names ->
  exists T',
    foldM (ledger_player cfg winners losers pl) names T = Ok T' /\
    well_formed T' /\
    (forall n, participates T' n = participates T n) /\
    (forall f n pl',
       value_of f T' n pl' =
         if PyStr.mem n names && participates T n && bool_decide (pl' = pl)
         then next_value cfg (classify n winners losers) T n pl f
         else value_of f T n pl').
Proof.
  revert T. induction names as [| a rest IH]; intros T Hwf Hnd.
  - exists T. split; [reflexivity |]. split; [exact Hwf |].
    split; [reflexivity |]. intros f n pl'. reflexivity.
  - apply NoDup_cons in Hnd as [Ha Hnd]. cbn [foldM].
    destruct (ledger_player_total winners losers pl T a Hwf) as (T1 & Hrun & Hcase).
    rewrite Hrun, bind_Ok.
    assert (Hwf1 : well_formed T1).
    { destruct Hcase as [[_ ->] | [Hp Htr]]; [exact Hwf |].
      apply participates_true in Hp as [_ Hn].
      exact (transition_well_formed _ _ _ _ _ Hwf Hn Htr). }
    assert (Hp1 : forall n, participates T1 n = participates T n).
    { intros n. destruct Hcase as [[_ ->] | [_ Htr]]; [reflexivity |].
      exact (transition_participates _ _ _ _ _ n Htr). }
    destruct (IH T1 Hwf1 Hnd) as (T' & Hfold & Hwf' & Hp' & Hv').
    exists T'. split; [exact Hfold |]. split; [exact Hwf' |].
    split; [intros n; now rewrite Hp', Hp1 |].
    intros f n pl'. rewrite Hv', Hp1, mem_cons.
    destruct (String.eqb_spec n a) as [-> | Hna].
    + assert (Hm : PyStr.mem a rest = false).
      { destruct (PyStr.mem a rest) eqn:E; [| reflexivity].
        apply mem_In, list_elem_of_In in E. contradiction. }
      rewrite Hm. cbn [andb orb].
      destruct Hcase as [[Hp ->] | [Hp Htr]]; rewrite Hp; [reflexivity |].
      cbn [andb]. rewrite (transition_value _ _ _ _ _ f a pl' Htr).
      destruct (decide (pl' = pl)) as [-> | Hpl].
      * rewrite decide_True by reflexivity. now rewrite bool_decide_eq_true_2.
      * rewrite decide_False by congruence. now rewrite bool_decide_eq_false_2.
    + cbn [orb].
      assert (Hsame : forall f pl0, value_of f T1 n pl0 = value_of f T n pl0).
      { intros f0 pl0. destruct Hcase as [[_ ->] | [_ Htr]]; [reflexivity |].
        rewrite (transition_value _ _ _ _ _ f0 n pl0 Htr).
        rewrite decide_False by congruence. reflexivity. }
      rewrite Hsame. rewrite (next_value_ext _ T T1 n pl f) by (intros; apply Hsame).
      reflexivity.
Qed.

(** The same loop keeps the ledger invariant and lowers no highest
    rank. *)
Lemma ledger_names_invariant (winners losers : list string) (pl : string)
    (names : list string) (T : tables) :
  config_ok cfg -> ledger_inv T ->
  exists T',
    foldM (ledger_player cfg winners losers pl) names T = Ok T' /\
    ledger_inv T' /\ highest_rank_kept T T'.
Proof.
  intros Hc. revert T. induction names as [| a rest IH]; intros T Hinv.
  - exists T. split; [reflexivity |]. split; [exact Hinv |]. intros n pl'. lia.
  - cbn [foldM].
    destruct (ledger_player_total winners losers pl T a (inv_wf T Hinv))
      as (T1 & Hrun & Hcase).
    rewrite Hrun, bind_Ok.
    assert (H1 : ledger_inv T1 /\ highest_rank_kept T T1).
    { destruct Hcase as [[_ ->] | [Hp Htr]].
      - split; [exact Hinv | intros n pl'; lia].
      - apply participates_true in Hp as [_ Hn].
        exact (transition_invariant _ _ _ _ _ Hc Hinv Hn Htr). }
    destruct H1 as [Hinv1 Hk1].
    destruct (IH T1 Hinv1) as (T' & Hfold & Hinv' & Hk').
    exists T'. split; [exact Hfold |]. split; [exact Hinv' |].
    intros n pl'. specialize (Hk1 n pl'). specialize (Hk' n pl'). lia.
Qed.

Lemma ledger_game_invariant (T : tables) (g : game) :
  config_ok cfg -> ledger_inv T ->
  exists T',
    ledger_game cfg T g = Ok T' /\ ledger_inv T' /\ highest_rank_kept T T'.
Proof.
  intros Hc Hinv. unfold ledger_game.
  destruct (determine_winners_losers g) as [winners losers].
  destruct (playlist g) as [pl |].
  - destruct (String.eqb pl "").
    + exists T. split; [reflexivity |]. split; [exact Hinv |]. intros n pl'. lia.
    + now apply ledger_names_invariant.
  - exists T. split; [reflexivity |]. split; [exact Hinv |]. intros n pl'. lia.
Qed.

Lemma ledger_replay_invariant (gs : list game) (T : tables) :
  config_ok cfg -> ledger_inv T ->
  exists T',
    ledger_replay cfg gs T = Ok T' /\ ledger_inv T' /\ highest_rank_kept T T'.
Proof.
  intros Hc. revert T. induction gs as [| g gs IH]; intros T Hinv.
  - exists T. split; [reflexivity |]. split; [exact Hinv |]. intros n pl'. lia.
  - unfold ledger_replay. cbn [foldM].
    destruct (ledger_game_invariant T g Hc Hinv) as (T1 & Hrun & Hinv1 & Hk1).
    rewrite Hrun, bind_Ok.
    destruct (IH T1 Hinv1) as (T' & Hfold & Hinv' & Hk').
    exists T'. split; [exact Hfold |]. split; [exact Hinv' |].
    intros n pl'. specialize (Hk1 n pl'). specialize (Hk' n pl'). lia.
Qed.

Lemma ledger_replay_app (gs1 gs2 : list game) (T : tables) :
  ledger_replay cfg (gs1 ++ gs2) T =
  (T1 ← ledger_replay cfg gs1 T; ledger_replay cfg gs2 T1).
Proof.
  unfold ledger_replay. revert T. induction gs1 as [| g gs1 IH]; intros T.
  - reflexivity.
  - cbn [foldM app]. destruct (ledger_game cfg T g) as [T1 | k]; [| reflexivity].
    rewrite !bind_Ok. apply IH.
Qed.

End LedgerProps.

(** ** The ledger claims *)

Lemma clean_tables_val (names : list string) (f : field) (n pl : string) :
  val f (clean_tables names) n pl = None.
Proof.
  unfold val. replace (sel f (clean_tables names))
    with (gset_to_gmap (∅ : gmap string Z) (list_to_set names : gset string))
    by (destruct f; reflexivity).
  rewrite lookup_gset_to_gmap.
  destruct (decide (n ∈ (list_to_set names : gset string))) as [Hin | Hout].
  - rewrite option_guard_True by exact Hin. reflexivity.
  - rewrite option_guard_False by exact Hout. reflexivity.
Qed.

Lemma clean_tables_sel (names : list string) (f : field) (n : string) :
  is_Some (sel f (clean_tables names) !! n) <-> In n names.
Proof.
  replace (sel f (clean_tables names))
    with (gset_to_gmap (∅ : gmap string Z) (list_to_set names : gset string))
    by (destruct f; reflexivity).
  rewrite lookup_gset_to_gmap, <- list_elem_of_In, <- (elem_of_list_to_set (C := gset string)).
  destruct (decide (n ∈ (list_to_set names : gset string))) as [Hin | Hout].
  - rewrite option_guard_True by exact Hin. split; eauto.
  - rewrite option_guard_False by exact Hout. split; [intros [x Hx]; discriminate | tauto].
Qed.

(** The tables of a clean slate satisfy the ledger invariant. *)
Lemma clean_tables_inv (names : list string) : ledger_inv (clean_tables names).
Proof.
  split.
  - intros n Hn. split.
    + intros f. apply clean_tables_sel. now apply (clean_tables_sel names Fxp n).
    + intros f pl. now rewrite !clean_tables_val.
  - intros n pl. unfold xp_of, value_of. rewrite clean_tables_val. cbn. lia.
  - intros n pl. unfold rank_of, highest_of, value_of. rewrite !clean_tables_val. cbn. lia.
Qed.

Section LedgerClaims.
Variable cfg : xp_config.

(** The roster loop of one ranked match, for a roster without repeated
    names. *)
Lemma ledger_game_spec (T : tables) (g : game) (pl : string) :
  well_formed T -> playlist g = Some pl -> pl <> "" -> NoDup (roster_names g) ->
  exists T',
    ledger_game cfg T g = Ok T' /\
    forall f n pl',
      value_of f T' n pl' =
        if PyStr.mem n (roster_names g) && participates T n && bool_decide (pl' = pl)
        then next_value cfg
               (classify n (fst (determine_winners_losers g))
                           (snd (determine_winners_losers g))) T n pl f
        else value_of f T n pl'.
Proof.
  intros Hwf Hpl Hne Hnd. unfold ledger_game. rewrite Hpl.
  destruct (determine_winners_losers g) as [winners losers]. cbn [fst snd].
  destruct (String.eqb_spec pl "") as [-> | _]; [contradiction |].
  destruct (ledger_names_spec cfg winners losers pl (roster_names g) T Hwf Hnd)
    as (T' & Hrun & _ & _ & Hv).
  exists T'. split; [exact Hrun | exact Hv].
Qed.

(** C6 (as amended): in a ranked match whose roster lists no name twice,
    the XP of a participant among the winners grows by
    [int(game_win * win factor (rank before))], and the XP of a participant
    among the losers changes by [int(game_loss * loss factor (rank before))]
    and is then clamped at 0; the product is the binary64 product that
    Python computes and [int] truncates it toward zero. *)
Theorem xp_delta_is_truncated_product (T : tables) (g : game) (pl n : string) :
  well_formed T -> playlist g = Some pl -> pl <> "" -> NoDup (roster_names g) ->
  In n (roster_names g) -> participates T n = true ->
  exists T',
    ledger_game cfg T g = Ok T' /\
    (In n (fst (determine_winners_losers g)) ->
     xp_of T' n pl =
       xp_of T n pl +
       py_int (py_float_mul (game_win cfg)
                 (get_win_factor (rank_of T n pl) (win_factors cfg)))) /\
    (~ In n (fst (determine_winners_losers g)) ->
     In n (snd (determine_winners_losers g)) ->
     xp_of T' n pl =
       Z.max 0 (xp_of T n pl +
                py_int (py_float_mul (game_loss cfg)
                          (get_loss_factor (rank_of T n pl) (loss_factors cfg))))).
Proof.
  intros Hwf Hpl Hne Hnd Hin Hp.
  destruct (ledger_game_spec T g pl Hwf Hpl Hne Hnd) as (T' & Hrun & Hv).
  exists T'. split; [exact Hrun |].
  assert (Hx : xp_of T' n pl =
               next_value cfg
                 (classify n (fst (determine_winners_losers g))
                             (snd (determine_winners_losers g))) T n pl Fxp).
  { unfold xp_of. rewrite Hv. apply mem_In in Hin. rewrite Hin, Hp.
    now rewrite bool_decide_eq_true_2. }
  split.
  - intros Hw. apply mem_In in Hw. rewrite Hx. unfold classify. now rewrite Hw.
  - intros Hnw Hl. apply mem_In in Hl. rewrite Hx. unfold classify. rewrite Hl.
    destruct (PyStr.mem n (fst (determine_winners_losers g))) eqn:E; [| reflexivity].
    apply mem_In in E. contradiction.
Qed.

(** C8: in a replay that starts from tables satisfying the ledger
    invariant, with a win XP and win factors that are not negative, every
    match is processed without error, and after every match every xp is at
    least 0, no highest rank is lower than before the match, and every
    highest rank is at least the current rank. *)
Theorem ledger_xp_nonneg_highest_monotone (T0 : tables) (gs1 : list game) (g : game)
    (gs2 : list game) :
  config_ok cfg -> ledger_inv T0 ->
  exists T1 T2 T3,
    ledger_replay cfg gs1 T0 = Ok T1 /\
    ledger_game cfg T1 g = Ok T2 /\
    ledger_replay cfg (gs1 ++ g :: gs2) T0 = Ok T3 /\
    forall n pl,
      0 <= xp_of T2 n pl /\
      highest_of T1 n pl <= highest_of T2 n pl /\
      rank_of T2 n pl <= highest_of T2 n pl.
Proof.
  intros Hc Hinv.
  destruct (ledger_replay_invariant cfg gs1 T0 Hc Hinv) as (T1 & Hr1 & Hinv1 & _).
  destruct (ledger_game_invariant cfg T1 g Hc Hinv1) as (T2 & Hr2 & Hinv2 & Hk2).
  destruct (ledger_replay_invariant cfg gs2 T2 Hc Hinv2) as (T3 & Hr3 & _ & _).
  exists T1, T2, T3. split; [exact Hr1 |]. split; [exact Hr2 |]. split.
  - rewrite ledger_replay_app, Hr1, bind_Ok.
    unfold ledger_replay in *. cbn [foldM]. now rewrite Hr2, bind_Ok.
  - intros n pl. split; [apply (inv_xp T2 Hinv2) |].
    split; [apply Hk2 | apply (inv_rank T2 Hinv2)].
Qed.


End LedgerClaims.

(** C6, witness of the hypotheses: Alice wins her first ranked match from
    a clean slate. *)
Lemma xp_delta_is_truncated_product_witness :
  exists T',
    ledger_game LedgerFixtures.cfg LedgerFixtures.T0 LedgerFixtures.win_game = Ok T' /\
    (In "Alice" (fst (determine_winners_losers LedgerFixtures.win_game)) ->
     xp_of T' "Alice" LedgerFixtures.MLG =
       xp_of LedgerFixtures.T0 "Alice" LedgerFixtures.MLG +
       py_int (py_float_mul (game_win LedgerFixtures.cfg)
                 (get_win_factor (rank_of LedgerFixtures.T0 "Alice" LedgerFixtures.MLG)
                                 (win_factors LedgerFixtures.cfg)))) /\
    (~ In "Alice" (fst (determine_winners_losers LedgerFixtures.win_game)) ->
     In "Alice" (snd (determine_winners_losers LedgerFixtures.win_game)) ->
     xp_of T' "Alice" LedgerFixtures.MLG =
       Z.max 0 (xp_of LedgerFixtures.T0 "Alice" LedgerFixtures.MLG +
                py_int (py_float_mul (game_loss LedgerFixtures.cfg)
                          (get_loss_factor
                             (rank_of LedgerFixtures.T0 "Alice" LedgerFixtures.MLG)
                             (loss_factors LedgerFixtures.cfg))))).
Proof.
  apply (xp_delta_is_truncated_product LedgerFixtures.cfg LedgerFixtures.T0
           LedgerFixtures.win_game LedgerFixtures.MLG "Alice").
  - exact (inv_wf _ (clean_tables_inv _)).
  - reflexivity.
  - discriminate.
  - apply (bool_decide_unpack _). vm_compute. exact I.
  - left. reflexivity.
  - vm_compute. reflexivity.
Defined.

(** The binary64 product, truncated: what Python computes for
    [int(-100 * 0.29)], [int(100 * 0.57)], [int(100 * 1.15)] and
    [int(10 * 0.7)] is -28, 56, 114 and 7, where the exact products of the
    decimal values are -29, 57, 115 and 7; products of numbers that binary64
    represents exactly, such as [-10 * 0.875] and [50 * 0.875], are
    exact. *)
Lemma float_product_examples :
  py_int (py_float_mul (-100) (29 # 100)) = -28 /\
  py_int (py_float_mul 100 (57 # 100)) = 56 /\
  py_int (py_float_mul 100 (115 # 100)) = 114 /\
  py_int (py_float_mul 10 (7 # 10)) = 7 /\
  py_float_mul (-10) (7 # 8) = S754_finite true 4925812092436480 (-49) /\
  py_int (py_float_mul (-10) (7 # 8)) = -8 /\
  py_int (py_float_mul 50 (7 # 8)) = 43.
Proof. repeat split; vm_compute; reflexivity. Qed.

(** C6 as stated fails.  With [game_loss = -10] and loss factor 7/8 at rank
    1, Alice at 50 xp loses a ranked match: the product is -8.75, exactly
    also in binary64, the code applies -8 and she has 42 xp, where rounding
    gives -9 and 41 xp.  With [game_win = 50] and win factor 7/8 at rank 41,
    Alice at 8000 xp wins: the product is 43.75, the code applies 43, where
    rounding gives 44. *)
Lemma xp_delta_is_not_rounded :
  succeeds
    (T1 ← ledger_game LedgerFixtures.cfg LedgerFixtures.T0 LedgerFixtures.win_game;
     T2 ← ledger_game LedgerFixtures.cfg T1 LedgerFixtures.loss_game;
     mret (T1, T2))
    (fun '(T1, T2) =>
       In "Alice" (snd (determine_winners_losers LedgerFixtures.loss_game)) /\
       xp_of T1 "Alice" LedgerFixtures.MLG = 50 /\
       rank_of T1 "Alice" LedgerFixtures.MLG = 1 /\
       xp_of T2 "Alice" LedgerFixtures.MLG = 42 /\
       Z.max 0 (50 + round_half_away
                       (inject_Z (game_loss LedgerFixtures.cfg) *
                        get_loss_factor 1 (loss_factors LedgerFixtures.cfg))) = 41) /\
  succeeds
    (ledger_game LedgerFixtures.cfg LedgerFixtures.T_high LedgerFixtures.win_game)
    (fun T3 =>
       In "Alice" (fst (determine_winners_losers LedgerFixtures.win_game)) /\
       xp_of LedgerFixtures.T_high "Alice" LedgerFixtures.MLG = 8000 /\
       rank_of LedgerFixtures.T_high "Alice" LedgerFixtures.MLG = 41 /\
       xp_of T3 "Alice" LedgerFixtures.MLG = 8043 /\
       8000 + round_half_away
                (inject_Z (game_win LedgerFixtures.cfg) *
                 get_win_factor 41 (win_factors LedgerFixtures.cfg)) = 8044).
Proof.
  split; vm_compute; repeat split; auto.
Qed.

(** C8, witness of the hypotheses: a win, a loss and a tie replayed from a
    clean slate. *)
Lemma ledger_xp_nonneg_highest_monotone_witness :
  exists T1 T2 T3,
    ledger_replay LedgerFixtures.cfg [LedgerFixtures.win_game] LedgerFixtures.T0 = Ok T1 /\
    ledger_game LedgerFixtures.cfg T1 LedgerFixtures.loss_game = Ok T2 /\
    ledger_replay LedgerFixtures.cfg
      ([LedgerFixtures.win_game] ++ LedgerFixtures.loss_game :: [LedgerFixtures.tie_game])
      LedgerFixtures.T0 = Ok T3 /\
    forall n pl,
      0 <= xp_of T2 n pl /\
      highest_of T1 n pl <= highest_of T2 n pl /\
      rank_of T2 n pl <= highest_of T2 n pl.
Proof.
  apply (ledger_xp_nonneg_highest_monotone LedgerFixtures.cfg LedgerFixtures.T0
           [LedgerFixtures.win_game] LedgerFixtures.loss_game [LedgerFixtures.tie_game]).
  - split; [vm_compute; discriminate |].
    intros k q H. unfold LedgerFixtures.cfg in H. cbn [win_factors] in H.
    apply lookup_singleton_Some in H as [_ <-]. discriminate.
  - exact (clean_tables_inv _).
Defined.



(** ** Checkpoint manager *)

Section PlanProps.
Variable manual_playlists : gmap string string.
Variable state : processed_state.

Lemma changes_step_spec (acc : list string * gmap string (option string * option string))
    (f : string) :
  let acc' := changes_step manual_playlists (ps_games state) acc f in
  fst acc' = (fst acc ++ unlisted [f] state)%list /\
  forall k, is_Some (snd acc' !! k) <-> is_Some (snd acc !! k) \/ (k = f /\ differs manual_playlists state f).
Proof.
  unfold changes_step, unlisted, differs. cbn [List.filter].
  destruct (ps_games state !! f) as [recorded |] eqn:E; cbn [mjoin option_join].
  - rewrite (bool_decide_eq_false_2 (Some recorded = None)) by discriminate.
    rewrite app_nil_r.
    destruct (decide (recorded = manual_playlists !! f)) as [He | Hne].
    + rewrite bool_decide_eq_true_2 by exact He. split; [reflexivity |].
      intros k. split; [auto |]. intros [H | [_ (r & [= <-] & Hr)]]; [exact H | contradiction].
    + rewrite bool_decide_eq_false_2 by exact Hne. cbn [fst snd]. split; [reflexivity |].
      intros k. rewrite lookup_insert. destruct (decide (f = k)) as [-> | Hk].
      * split; [intros _; right; eauto | eauto].
      * split; [auto |]. intros [H | [-> _]]; [exact H | contradiction].
  - rewrite (bool_decide_eq_true_2 (None = None)) by reflexivity.
    cbn [fst snd]. split; [reflexivity |].
    intros k. split; [auto |]. intros [H | [_ (r & Hr & _)]]; [exact H | discriminate].
Qed.

Lemma changes_fold_spec (files : list string)
    (acc : list string * gmap string (option string * option string)) :
  let acc' := fold_left (changes_step manual_playlists (ps_games state)) files acc in
  fst acc' = (fst acc ++ unlisted files state)%list /\
  forall k, is_Some (snd acc' !! k) <->
            is_Some (snd acc !! k) \/ (In k files /\ differs manual_playlists state k).
Proof.
  revert acc. induction files as [| f files IH]; intros acc; cbn [fold_left].
  - split; [unfold unlisted; cbn; now rewrite app_nil_r |].
    intros k. cbn [In]. tauto.
  - destruct (changes_step_spec acc f) as [Hf Hc].
    destruct (IH (changes_step manual_playlists (ps_games state) acc f)) as [Hf' Hc'].
    split.
    + rewrite Hf', Hf, <- app_assoc. f_equal.
      unfold unlisted. cbn [List.filter].
      destruct (bool_decide (ps_games state !! f = None)); reflexivity.
    + intros k. rewrite Hc', Hc. cbn [In]. split.
      * intros [[H | [-> H]] | [H1 H2]]; auto.
      * intros [H | [[-> | H1] H2]]; auto.
Qed.

Lemma check_for_changes_spec (stats_files : list string) :
  exists changed,
    check_for_changes stats_files manual_playlists state =
      (bool_decide (0 < size changed)%nat, unlisted stats_files state, changed) /\
    ((0 < size changed)%nat <-> manual_entry_changed stats_files manual_playlists state) /\
    (changed = ∅ <-> ~ manual_entry_changed stats_files manual_playlists state).
Proof.
  unfold check_for_changes.
  destruct (changes_fold_spec stats_files ([], ∅)) as [Hf Hc].
  destruct (fold_left _ stats_files ([], ∅)) as [new_files changed].
  cbn [fst snd app] in Hf, Hc. subst new_files.
  exists changed. split; [reflexivity |].
  assert (Hne : changed <> ∅ <-> manual_entry_changed stats_files manual_playlists state).
  { split.
    - intros H. apply map_choose in H as (k & v & Hk).
      destruct (proj1 (Hc k) (mk_is_Some _ _ Hk)) as [[x Hx] | [Hin (r & Hr & Hd)]].
      + rewrite lookup_empty in Hx. discriminate.
      + exists k, r. auto.
    - intros (k & r & Hin & Hr & Hd) ->.
      assert (Hs : is_Some ((∅ : gmap string (option string * option string)) !! k)).
      { apply Hc. right. split; [exact Hin | exists r; auto]. }
      rewrite lookup_empty in Hs. destruct Hs; discriminate. }
  split.
  - rewrite <- Hne, <- map_size_non_empty_iff. lia.
  - rewrite <- Hne. split; [auto |]. intros H.
    destruct (decide (changed = ∅)); [assumption | contradiction].
Qed.

(** C5 (as amended): the new match ids are exactly the current ids that
    the checkpoint does not list.  The mode is FULL as soon as some current
    id listed in the checkpoint has a recorded classification different
    from its entry in the manual override table; session matching is not
    consulted.  When no such id exists the mode is INCREMENTAL, with the
    checkpoint's saved player state as initial state, provided there is a
    new id and the saved player state is not empty; it is FULL when there
    is a new id and the saved player state is empty; and there is nothing
    to process when there is no new id. *)
Theorem plan_decision (stats_files : list string) :
  let p := plan stats_files manual_playlists state in
  newMatchIds p = unlisted stats_files state /\
  (manual_entry_changed stats_files manual_playlists state -> plan_mode p = FULL) /\
  (~ manual_entry_changed stats_files manual_playlists state ->
   unlisted stats_files state <> [] -> player_state state <> ∅ ->
   plan_mode p = INCREMENTAL /\ initialState p = player_state state) /\
  (~ manual_entry_changed stats_files manual_playlists state ->
   unlisted stats_files state <> [] -> player_state state = ∅ ->
   plan_mode p = FULL) /\
  (~ manual_entry_changed stats_files manual_playlists state ->
   unlisted stats_files state = [] -> plan_mode p = NOTHING_TO_PROCESS).
Proof.
  cbn zeta. unfold plan.
  destruct (check_for_changes_spec stats_files) as (changed & -> & Hsz & Hempty).
  set (new_files := unlisted stats_files state) in *.
  assert (Hlen : new_files <> [] -> (0 < length new_files)%nat).
  { destruct new_files; [congruence | cbn; lia]. }
  split.
  - destruct (bool_decide (new_files = []) && bool_decide (changed = ∅)); [reflexivity |].
    destruct (bool_decide (0 < size changed)%nat); [reflexivity |].
    destruct (_ && _); reflexivity.
  - split; [| split; [| split]].
    + intros Hch.
      assert (Hc : changed <> ∅) by (intros He; now apply Hempty in He).
      rewrite (bool_decide_eq_false_2 (changed = ∅)) by exact Hc.
      rewrite andb_false_r.
      rewrite (bool_decide_eq_true_2 (0 < size changed)%nat) by (now apply Hsz).
      reflexivity.
    + intros Hch Hnew Hps. apply Hempty in Hch. subst changed.
      rewrite (bool_decide_eq_false_2 (new_files = [])) by exact Hnew. cbn [andb].
      rewrite (bool_decide_eq_false_2 (0 < size (∅ : gmap string (option string * option string)))%nat)
        by (rewrite map_size_empty; lia).
      cbn [negb andb].
      rewrite (bool_decide_eq_true_2 (0 < length new_files)%nat) by (now apply Hlen).
      rewrite bool_decide_eq_true_2; [split; reflexivity |].
      apply map_size_non_empty_iff in Hps. lia.
    + intros Hch Hnew Hps. apply Hempty in Hch. subst changed.
      rewrite (bool_decide_eq_false_2 (new_files = [])) by exact Hnew. cbn [andb].
      rewrite (bool_decide_eq_false_2 (0 < size (∅ : gmap string (option string * option string)))%nat)
        by (rewrite map_size_empty; lia).
      cbn [negb andb].
      rewrite (bool_decide_eq_true_2 (0 < length new_files)%nat) by (now apply Hlen).
      rewrite Hps. rewrite bool_decide_eq_false_2 by (rewrite map_size_empty; lia).
      reflexivity.
    + intros Hch Hnew. apply Hempty in Hch. subst changed. rewrite Hnew.
      rewrite !bool_decide_eq_true_2 by reflexivity. reflexivity.
Qed.

End PlanProps.

Lemma no_manual_change (manual_playlists : gmap string string) (state : processed_state)
    (stats_files : list string) :
  snd (check_for_changes stats_files manual_playlists state) = ∅ ->
  ~ manual_entry_changed stats_files manual_playlists state.
Proof.
  intros H. destruct (check_for_changes_spec manual_playlists state stats_files)
    as (changed & Heq & _ & Hempty).
  rewrite Heq in H. cbn [snd] in H. now apply Hempty.
Qed.

Lemma some_manual_change (manual_playlists : gmap string string) (state : processed_state)
    (stats_files : list string) :
  snd (check_for_changes stats_files manual_playlists state) <> ∅ ->
  manual_entry_changed stats_files manual_playlists state.
Proof.
  intros H. destruct (check_for_changes_spec manual_playlists state stats_files)
    as (changed & Heq & Hsz & _).
  rewrite Heq in H. cbn [snd] in H. apply Hsz.
  apply map_size_non_empty_iff in H. lia.
Qed.

(** C5, witness of the hypotheses: a session-classified game with an empty
    manual table (FULL); a manually classified game and one new file
    (INCREMENTAL); the same without saved players (FULL); and no new file
    (nothing to process). *)
Lemma plan_decision_witness :
  plan_mode (plan [basename PlanFixtures.session_file] ∅ PlanFixtures.checkpoint_session)
    = FULL /\
  (plan_mode (plan PlanFixtures.two_files PlanFixtures.manual PlanFixtures.checkpoint_manual)
     = INCREMENTAL /\
   initialState (plan PlanFixtures.two_files PlanFixtures.manual
                      PlanFixtures.checkpoint_manual)
     = player_state PlanFixtures.checkpoint_manual) /\
  plan_mode (plan PlanFixtures.two_files PlanFixtures.manual
                  PlanFixtures.checkpoint_no_players) = FULL /\
  plan_mode (plan ["20251128_201839.xlsx"] PlanFixtures.manual
                  PlanFixtures.checkpoint_manual) = NOTHING_TO_PROCESS.
Proof.
  split; [| split; [| split]].
  - apply (proj1 (proj2 (plan_decision ∅ PlanFixtures.checkpoint_session
                           [basename PlanFixtures.session_file]))).
    apply some_manual_change. apply (bool_decide_unpack _). vm_compute. exact I.
  - apply (proj1 (proj2 (proj2 (plan_decision PlanFixtures.manual
                                  PlanFixtures.checkpoint_manual PlanFixtures.two_files)))).
    + apply no_manual_change. vm_compute. reflexivity.
    + vm_compute. discriminate.
    + apply (bool_decide_unpack _). vm_compute. exact I.
  - apply (proj1 (proj2 (proj2 (proj2 (plan_decision PlanFixtures.manual
                                         PlanFixtures.checkpoint_no_players
                                         PlanFixtures.two_files))))).
    + apply no_manual_change. vm_compute. reflexivity.
    + vm_compute. discriminate.
    + reflexivity.
  - apply (proj2 (proj2 (proj2 (proj2 (plan_decision PlanFixtures.manual
                                         PlanFixtures.checkpoint_manual
                                         ["20251128_201839.xlsx"]))))).
    + apply no_manual_change. vm_compute. reflexivity.
    + vm_compute. reflexivity.
Defined.

(** C5 as stated fails in both directions.  A game that the previous run
    classified through the bot session, and that the same session still
    classifies the same way, forces FULL, because the manual table has no
    entry for it.  A game recorded as unranked that the session would now
    classify as MLG 4v4 does not force FULL: nothing is processed. *)
Lemma plan_ignores_session_matching :
  (~ classification_changed [PlanFixtures.session_file] (Some PlanFixtures.session) ∅
       PlanFixtures.checkpoint_session /\
   plan_mode (plan [basename PlanFixtures.session_file] ∅ PlanFixtures.checkpoint_session)
     = FULL) /\
  (classification_changed [PlanFixtures.session_file] (Some PlanFixtures.session) ∅
     PlanFixtures.checkpoint_unranked /\
   plan_mode (plan [basename PlanFixtures.session_file] ∅ PlanFixtures.checkpoint_unranked)
     = NOTHING_TO_PROCESS).
Proof.
  split; split.
  - intros (f & r & [<- | []] & Hr & Hd).
    assert (Hk : ps_games PlanFixtures.checkpoint_session
                   !! basename PlanFixtures.session_file = Some (Some PLAYLIST_MLG_4V4))
      by (vm_compute; reflexivity).
    rewrite Hk in Hr. injection Hr as <-. apply Hd. vm_compute. reflexivity.
  - vm_compute. reflexivity.
  - exists PlanFixtures.session_file, None.
    split; [left; reflexivity |]. split; [vm_compute; reflexivity |].
    vm_compute. discriminate.
  - vm_compute. reflexivity.
Qed.

(** ** Full replay and incremental replay *)

(** C1, the failing input.  The first stats file is processed from a clean
    slate and the checkpoint is written.  A second file arrives; no recorded
    classification has changed, so the run is incremental.  The full replay
    of both files returns (Alice: 100 xp, rank 2, two wins in two games),
    but the incremental run on top of the checkpoint raises [KeyError]:
    the names restored from the checkpoint are skipped by the resolution
    loop before their tracking dictionaries are created. *)
Theorem incremental_run_raises_KeyError :
  (exists o, MainFixtures.run MainFixtures.hash_a [MainFixtures.file1]
               empty_processed_state = Ok (Some o)) /\
  ~ manual_entry_changed MainFixtures.stats_files12 MainFixtures.manual
      MainFixtures.checkpoint1 /\
  plan_mode (plan MainFixtures.stats_files12 MainFixtures.manual MainFixtures.checkpoint1)
    = INCREMENTAL /\
  playlist_state_of
    (MainFixtures.run MainFixtures.hash_a [MainFixtures.file1; MainFixtures.file2]
       empty_processed_state) "111" PLAYLIST_MLG_4V4
    = Some {| pl_xp := 100; pl_rank := 2; pl_highest_rank := 2;
              pl_wins := 2; pl_losses := 0; pl_games := 2 |} /\
  MainFixtures.run MainFixtures.hash_a [MainFixtures.file1; MainFixtures.file2]
    MainFixtures.checkpoint1 = KeyError "Alice".
Proof.
  split; [eexists; vm_compute; reflexivity |].
  split; [apply no_manual_change; vm_compute; reflexivity |].
  repeat split; vm_compute; reflexivity.
Qed.

(** With a name that no lookup resolves: the checkpoint holds the
    placeholder identity computed with the string hash of the first
    process; a full replay in a process with another hash computes another
    placeholder; the incremental run raises as above. *)
Lemma unresolved_name_identity :
  identity_of (MainFixtures.run MainFixtures.hash_a [MainFixtures.file3]
                 empty_processed_state) "Mallory" = Some "46029254386353138" /\
  player_name_to_id MainFixtures.checkpoint3 !! "Mallory" = Some "46029254386353138" /\
  identity_of (MainFixtures.run MainFixtures.hash_b [MainFixtures.file3; MainFixtures.file4]
                 empty_processed_state) "Mallory" = Some "862933555777941750" /\
  plan_mode (plan MainFixtures.stats_files12 MainFixtures.manual MainFixtures.checkpoint3)
    = INCREMENTAL /\
  MainFixtures.run MainFixtures.hash_b [MainFixtures.file3; MainFixtures.file4]
    MainFixtures.checkpoint3 = KeyError "Bob".
Proof.
  repeat split; vm_compute; reflexivity.
Qed.

(** * Further properties *)

(** ** Rank lookup *)

(** X1: inside the range covered by a gap-free table, [calculate_rank] of
    [populate_stats.py] never decreases when xp grows. *)
Theorem calculate_rank_monotone_within_table (th : gmap string (Z * Z)) (xp1 xp2 : Z) :
  valid_thresholds th ->
  0 <= xp1 -> xp1 <= xp2 -> xp2 <= top_bound th ->
  calculate_rank xp1 th <= calculate_rank xp2 th.
Proof. intros Hv. now apply calculate_rank_mono_in_range. Qed.

Lemma calculate_rank_monotone_within_table_witness :
  calculate_rank 100 STATSRANKS_new.default_rank_thresholds <=
  calculate_rank 5000 STATSRANKS_new.default_rank_thresholds.
Proof.
  apply (calculate_rank_monotone_within_table STATSRANKS_new.default_rank_thresholds 100 5000).
  - exact default_thresholds_valid.
  - lia.
  - lia.
  - vm_compute. discriminate.
Defined.

(** X2: with a gap-free table, an xp value inside the bounds of level [m]
    is mapped to level [m]. *)
Theorem calculate_rank_finds_level (th : gmap string (Z * Z)) (m : nat) (lo hi xp : Z) :
  valid_thresholds th ->
  (1 <= m <= 50)%nat ->
  level_entry th m = Some (lo, hi) ->
  lo <= xp <= hi ->
  calculate_rank xp th = Z.of_nat m.
Proof.
  intros Hv Hm He Hx. unfold calculate_rank.
  apply (calculate_rank_from_in_level th Hv m 50 lo hi xp); try lia; assumption.
Qed.

Lemma calculate_rank_finds_level_witness :
  calculate_rank 100 STATSRANKS_new.default_rank_thresholds = Z.of_nat 2.
Proof.
  apply (calculate_rank_finds_level STATSRANKS_new.default_rank_thresholds 2 89 188 100).
  - exact default_thresholds_valid.
  - lia.
  - vm_compute. reflexivity.
  - lia.
Defined.

Lemma calculate_rank_from_sound (n : nat) (xp : Z) (th : gmap string (Z * Z)) :
  1 <= calculate_rank_from n xp th <= Z.max 1 (Z.of_nat n) /\
  (calculate_rank_from n xp th <> 1 ->
   exists k lo hi, (1 <= k <= n)%nat /\ calculate_rank_from n xp th = Z.of_nat k /\
                   level_entry th k = Some (lo, hi) /\ lo <= xp <= hi).
Proof.
  induction n as [| k IH]; cbn [calculate_rank_from].
  - split; [lia | congruence].
  - destruct (th !! PyStr.str (Z.of_nat (S k))) as [[lo hi] |] eqn:E.
    + destruct (Z.leb_spec lo xp), (Z.leb_spec xp hi); cbn [andb];
        try (destruct IH as [Hr Hs]; split; [lia |];
             intros Hne; destruct (Hs Hne) as (j & l & h & Hj & Hj2 & Hj3 & Hj4);
             exists j, l, h; repeat split; try lia; assumption).
      split; [lia |]. intros _. exists (S k), lo, hi.
      repeat split; try lia. exact E.
    + destruct IH as [Hr Hs]. split; [lia |].
      intros Hne. destruct (Hs Hne) as (j & l & h & Hj & Hj2 & Hj3 & Hj4).
      exists j, l, h. repeat split; try lia; assumption.
Qed.

(** X3: whatever the table and the xp, [calculate_rank] of
    [populate_stats.py] returns a level from 1 to 50, and a level other than
    1 is returned only when the table has that level and xp lies within its
    two bounds. *)
Theorem calculate_rank_sound (xp : Z) (th : gmap string (Z * Z)) :
  1 <= calculate_rank xp th <= 50 /\
  (calculate_rank xp th <> 1 ->
   exists k lo hi, (1 <= k <= 50)%nat /\ calculate_rank xp th = Z.of_nat k /\
                   level_entry th k = Some (lo, hi) /\ lo <= xp <= hi).
Proof.
  unfold calculate_rank. destruct (calculate_rank_from_sound 50 xp th) as [Hr Hs].
  split; [lia | exact Hs].
Qed.

(** X4: [calculate_rank] of [STATSRANKS_new.py] never decreases when xp
    grows, for every table on which it returns. *)
Theorem statsranks_calculate_rank_monotone (xp1 xp2 : Z) (th : gmap Z (Z * Z)) (r1 r2 : Z) :
  xp1 <= xp2 ->
  STATSRANKS_new.calculate_rank xp1 th = Ok r1 ->
  STATSRANKS_new.calculate_rank xp2 th = Ok r2 ->
  r1 <= r2.
Proof. apply statsranks_calculate_rank_mono. Qed.

Lemma statsranks_calculate_rank_monotone_witness : 2 <= 50.
Proof.
  apply (statsranks_calculate_rank_monotone 100 1000000001 STATSRANKS_new.default_thresholds).
  - lia.
  - vm_compute. reflexivity.
  - vm_compute. reflexivity.
Defined.

Lemma statsranks_rank_from_char (n : nat) (xp : Z) (th : gmap Z (Z * Z)) (r : Z) :
  STATSRANKS_new.calculate_rank_from n xp th = Ok r ->
  (forall k, (1 <= k <= n)%nat -> r < Z.of_nat k -> xp < level_min th (Z.of_nat k)) /\
  (level_min th r <= xp \/ (r = 1 /\ forall k, (1 <= k <= n)%nat -> xp < level_min th (Z.of_nat k))).
Proof.
  revert r. induction n as [| k IH]; intros r; cbn [STATSRANKS_new.calculate_rank_from].
  - intros [= <-]. split; [intros; lia | right; split; [reflexivity | intros; lia]].
  - destruct (th !! Z.of_nat (S k)) as [[lo hi] |] eqn:E; [| discriminate].
    destruct (Z.leb_spec lo xp) as [Hle | Hgt].
    + intros [= <-]. split; [intros; lia |]. left. unfold level_min. now rewrite E.
    + intros H. pose proof (statsranks_rank_from_bounds _ _ _ _ H) as Hb.
      destruct (IH r H) as [Habove Hr]. split.
      * intros j Hj Hrj. destruct (Nat.eq_dec j (S k)) as [-> | Hne].
        -- unfold level_min. now rewrite E.
        -- apply Habove; [lia | exact Hrj].
      * destruct Hr as [Hr | [-> Hall]]; [now left |]. right. split; [reflexivity |].
        intros j Hj. destruct (Nat.eq_dec j (S k)) as [-> | Hne].
        -- unfold level_min. now rewrite E.
        -- apply Hall. lia.
Qed.

(** X5: when the fifty levels are present, [calculate_rank] of
    [STATSRANKS_new.py] returns, its result is a level from 1 to 50, every
    higher level has a lower bound above xp, and the lower bound of the
    result is at most xp unless xp is below every lower bound, in which
    case the result is 1. *)
Theorem statsranks_calculate_rank_highest_level (xp : Z) (th : gmap Z (Z * Z)) :
  levels_present th ->
  exists r,
    STATSRANKS_new.calculate_rank xp th = Ok r /\
    1 <= r <= 50 /\
    (forall k, (1 <= k <= 50)%nat -> r < Z.of_nat k -> xp < level_min th (Z.of_nat k)) /\
    (level_min th r <= xp \/
     (r = 1 /\ forall k, (1 <= k <= 50)%nat -> xp < level_min th (Z.of_nat k))).
Proof.
  intros Hp. destruct (statsranks_calculate_rank_total xp th Hp) as [r Hr].
  exists r. split; [exact Hr |].
  pose proof (statsranks_rank_from_bounds _ _ _ _ Hr) as Hb.
  destruct (statsranks_rank_from_char _ _ _ _ Hr) as [Ha Hm].
  split; [lia |]. split; assumption.
Qed.

Lemma default_levels_present : levels_present STATSRANKS_new.default_thresholds.
Proof.
  intros n Hn.
  assert (H : forall k, (k <= 50)%nat -> (1 <= k)%nat ->
            is_Some (STATSRANKS_new.default_thresholds !! Z.of_nat k)).
  { intros k Hk. do 51 (destruct k as [| k]; [intros; first [lia | vm_compute; eauto] |]).
    lia. }
  apply H; lia.
Qed.

Lemma statsranks_calculate_rank_highest_level_witness :
  exists r,
    STATSRANKS_new.calculate_rank 100 STATSRANKS_new.default_thresholds = Ok r /\
    1 <= r <= 50 /\
    (forall k, (1 <= k <= 50)%nat -> r < Z.of_nat k ->
       100 < level_min STATSRANKS_new.default_thresholds (Z.of_nat k)) /\
    (level_min STATSRANKS_new.default_thresholds r <= 100 \/
     (r = 1 /\ forall k, (1 <= k <= 50)%nat ->
        100 < level_min STATSRANKS_new.default_thresholds (Z.of_nat k))).
Proof.
  apply (statsranks_calculate_rank_highest_level 100 STATSRANKS_new.default_thresholds).
  exact default_levels_present.
Defined.

Lemma getlevel_present (th : gmap Z (Z * Z)) (r : Z) :
  levels_present th -> 1 <= r <= 50 ->
  exists hi, getlevel th r = Ok (level_min th r, hi).
Proof.
  intros Hp Hr. unfold getlevel, level_min.
  destruct (Hp (Z.to_nat r)) as [[lo hi] He]; [lia |].
  rewrite Z2Nat.id in He by lia. rewrite He. now exists hi.
Qed.

(** X6: when the fifty levels are present, [get_rank_progress] returns.  At
    level 50 it reports the whole xp and 0 xp to go.  Below level 50 the xp
    still needed for the next level is positive, and the xp inside the
    level is not negative as soon as xp reaches the lower bound of level
    1. *)
Theorem get_rank_progress_spec (xp : Z) (th : gmap Z (Z * Z)) :
  levels_present th ->
  exists r a b,
    get_rank_progress xp th = Ok (r, a, b) /\
    STATSRANKS_new.calculate_rank xp th = Ok r /\
    (r = 50 -> a = xp /\ b = 0) /\
    (r <> 50 ->
     a = xp - level_min th r /\ b = level_min th (r + 1) - xp /\ 0 < b /\
     (level_min th 1 <= xp -> 0 <= a)).
Proof.
  intros Hp.
  destruct (statsranks_calculate_rank_total xp th Hp) as [r Hr].
  pose proof (statsranks_rank_from_bounds _ _ _ _ Hr) as Hb.
  destruct (statsranks_rank_from_char _ _ _ _ Hr) as [Ha Hm].
  unfold get_rank_progress. rewrite Hr, bind_Ok.
  destruct (Z.eqb_spec r 50) as [-> | Hne].
  - exists 50, xp, 0. repeat split; try reflexivity; intros; congruence.
  - destruct (getlevel_present th r Hp ltac:(lia)) as [hi1 H1].
    destruct (getlevel_present th (r + 1) Hp ltac:(lia)) as [hi2 H2].
    rewrite H1, bind_Ok, H2, bind_Ok. cbn [fst].
    exists r, (xp - level_min th r), (level_min th (r + 1) - xp).
    split; [reflexivity |]. split; [reflexivity |]. split; [congruence |].
    intros _. split; [reflexivity |]. split; [reflexivity |].
    assert (Hnext : xp < level_min th (r + 1)).
    { specialize (Ha (Z.to_nat (r + 1)) ltac:(lia)).
      rewrite Z2Nat.id in Ha by lia. apply Ha. lia. }
    split; [lia |]. intros H1le.
    destruct Hm as [Hm | [-> Hall]]; [lia |].
    specialize (Hall 1%nat ltac:(lia)). cbn in Hall. lia.
Qed.

Lemma get_rank_progress_spec_witness :
  exists r a b,
    get_rank_progress 100 STATSRANKS_new.default_thresholds = Ok (r, a, b) /\
    STATSRANKS_new.calculate_rank 100 STATSRANKS_new.default_thresholds = Ok r /\
    (r = 50 -> a = 100 /\ b = 0) /\
    (r <> 50 ->
     a = 100 - level_min STATSRANKS_new.default_thresholds r /\
     b = level_min STATSRANKS_new.default_thresholds (r + 1) - 100 /\ 0 < b /\
     (level_min STATSRANKS_new.default_thresholds 1 <= 100 -> 0 <= a)).
Proof.
  apply (get_rank_progress_spec 100 STATSRANKS_new.default_thresholds).
  exact default_levels_present.
Defined.

Lemma highest_step_pos (th : gmap Z (Z * Z)) (h0 : Z) (b0 : bool) (p : string) (x r : Z) :
  0 < x -> STATSRANKS_new.calculate_rank x th = Ok r ->
  highest_step th (h0, b0) (p, x) = Ok (if h0 <? r then r else h0, true).
Proof.
  intros Hx Hr. unfold highest_step. cbn [snd fst].
  destruct (Z.ltb_spec 0 x); [| lia]. now rewrite Hr.
Qed.

Lemma highest_step_nonpos (th : gmap Z (Z * Z)) (h0 : Z) (b0 : bool) (p : string) (x : Z) :
  x <= 0 -> highest_step th (h0, b0) (p, x) = Ok (h0, b0).
Proof.
  intros Hx. unfold highest_step. cbn [snd fst].
  destruct (Z.ltb_spec 0 x); [lia | reflexivity].
Qed.

Lemma highest_fold_spec (th : gmap Z (Z * Z)) (l : list (string * Z)) (h0 : Z) (b0 : bool) :
  levels_present th -> 1 <= h0 <= 50 ->
  exists h,
    foldM (highest_step th) l (h0, b0) = Ok (h, b0 || has_positive_xp l) /\
    h0 <= h <= 50 /\
    (forall p x r, In (p, x) l -> 0 < x ->
       STATSRANKS_new.calculate_rank x th = Ok r -> r <= h) /\
    (h = h0 \/ exists p x, In (p, x) l /\ 0 < x /\ STATSRANKS_new.calculate_rank x th = Ok h).
Proof.
  intros Hp. revert h0 b0. induction l as [| [p x] l IH]; intros h0 b0 Hh0.
  - exists h0. cbn [foldM has_positive_xp existsb]. rewrite orb_false_r.
    split; [reflexivity |]. split; [lia |].
    split; [intros p x r Hin; contradiction | now left].
  - cbn [foldM has_positive_xp existsb snd].
    destruct (Z.ltb_spec 0 x) as [Hpos | Hnp].
    + destruct (statsranks_calculate_rank_total x th Hp) as [r Hr].
      pose proof (statsranks_rank_from_bounds _ _ _ _ Hr) as Hb.
      rewrite (highest_step_pos th h0 b0 p x r Hpos Hr), bind_Ok.
      destruct (IH (if h0 <? r then r else h0) true
                  ltac:(destruct (Z.ltb_spec h0 r); lia)) as (h & Hf & Hh & Hall & Hatt).
      exists h. rewrite orb_true_r. cbn [orb] in Hf. split; [exact Hf |].
      assert (Hstep : h0 <= (if h0 <? r then r else h0) /\ r <= (if h0 <? r then r else h0))
        by (destruct (Z.ltb_spec h0 r); lia).
      split; [lia |]. split.
      * intros p' x' r' [[= <- <-] | Hin] Hx' Hr'.
        -- rewrite Hr in Hr'. injection Hr' as <-. lia.
        -- now apply (Hall p' x' r').
      * destruct Hatt as [-> | (p' & x' & Hin & Hx' & Hr')].
        -- destruct (Z.ltb_spec h0 r); [| now left].
           right. exists p, x. split; [now left | split; assumption].
        -- right. exists p', x'. split; [now right | split; assumption].
    + rewrite (highest_step_nonpos th h0 b0 p x Hnp), bind_Ok. cbn [orb].
      destruct (IH h0 b0 Hh0) as (h & Hf & Hh & Hall & Hatt).
      exists h. split; [exact Hf |]. split; [exact Hh |]. split.
      * intros p' x' r' [[= <- <-] | Hin] Hx' Hr'; [lia | now apply (Hall p' x' r')].
      * destruct Hatt as [-> | (p' & x' & Hin & Hx' & Hr')]; [now left |].
        right. exists p', x'. split; [now right | split; assumption].
Qed.

(** X7: when the fifty levels are present, [calculate_highest_rank]
    returns a level from 1 to 50.  If some playlist has positive xp, the
    result is the rank of one of these playlists and no such playlist has a
    higher rank; playlists at 0 xp are ignored.  If none has, the result
    is the rank of the global xp when that is positive. *)
Theorem calculate_highest_rank_spec (th : gmap Z (Z * Z)) (win_xp loss_xp : Z)
    (s : bot_player_stats) :
  levels_present th ->
  exists h,
    calculate_highest_rank th win_xp loss_xp s = Ok h /\
    1 <= h <= 50 /\
    (has_positive_xp (bp_playlist_xp s) = true ->
     (exists p x, In (p, x) (bp_playlist_xp s) /\ 0 < x /\
                  STATSRANKS_new.calculate_rank x th = Ok h) /\
     (forall p x r, In (p, x) (bp_playlist_xp s) -> 0 < x ->
        STATSRANKS_new.calculate_rank x th = Ok r -> r <= h)) /\
    (has_positive_xp (bp_playlist_xp s) = false -> 0 < bp_xp s ->
     STATSRANKS_new.calculate_rank (bp_xp s) th = Ok h).
Proof.
  intros Hp. unfold calculate_highest_rank.
  destruct (highest_fold_spec th (bp_playlist_xp s) 1 false Hp ltac:(lia))
    as (h & Hf & Hh & Hall & Hatt).
  rewrite Hf, bind_Ok. cbn [fst snd orb].
  destruct (has_positive_xp (bp_playlist_xp s)) eqn:Hpos.
  - exists h. split; [reflexivity |]. split; [lia |]. split; [| discriminate].
    intros _. split; [| exact Hall].
    destruct Hatt as [-> | Hatt]; [| exact Hatt].
    unfold has_positive_xp in Hpos. apply existsb_exists in Hpos as ([p x] & Hin & Hx).
    cbn [snd] in Hx. apply Z.ltb_lt in Hx.
    destruct (statsranks_calculate_rank_total x th Hp) as [r Hr].
    pose proof (statsranks_rank_from_bounds _ _ _ _ Hr) as Hb.
    pose proof (Hall p x r Hin Hx Hr) as Hle.
    exists p, x. split; [exact Hin |]. split; [exact Hx |].
    rewrite Hr. f_equal. lia.
  - destruct (Z.ltb_spec 0 (bp_xp s)) as [Hg | Hg].
    + destruct (statsranks_calculate_rank_total (bp_xp s) th Hp) as [r Hr].
      pose proof (statsranks_rank_from_bounds _ _ _ _ Hr) as Hb.
      exists r. split; [exact Hr |]. split; [lia |]. split; [discriminate |].
      intros _ _. exact Hr.
    + destruct (Z.ltb_spec 0 (bp_wins s * win_xp + bp_losses s * loss_xp)) as [He | He].
      * destruct (statsranks_calculate_rank_total
                    (bp_wins s * win_xp + bp_losses s * loss_xp) th Hp) as [r Hr].
        pose proof (statsranks_rank_from_bounds _ _ _ _ Hr) as Hb.
        exists r. split; [exact Hr |]. split; [lia |]. split; [discriminate |].
        intros _ Hc. lia.
      * exists h. split; [reflexivity |]. split; [lia |]. split; [discriminate |].
        intros _ Hc. lia.
Qed.

Lemma calculate_highest_rank_spec_witness :
  exists h,
    calculate_highest_rank STATSRANKS_new.default_thresholds 50 10 BotFixtures.veteran
      = Ok h /\
    1 <= h <= 50 /\
    (has_positive_xp (bp_playlist_xp BotFixtures.veteran) = true ->
     (exists p x, In (p, x) (bp_playlist_xp BotFixtures.veteran) /\ 0 < x /\
                  STATSRANKS_new.calculate_rank x STATSRANKS_new.default_thresholds = Ok h) /\
     (forall p x r, In (p, x) (bp_playlist_xp BotFixtures.veteran) -> 0 < x ->
        STATSRANKS_new.calculate_rank x STATSRANKS_new.default_thresholds = Ok r -> r <= h)) /\
    (has_positive_xp (bp_playlist_xp BotFixtures.veteran) = false ->
     0 < bp_xp BotFixtures.veteran ->
     STATSRANKS_new.calculate_rank (bp_xp BotFixtures.veteran)
       STATSRANKS_new.default_thresholds = Ok h).
Proof.
  apply (calculate_highest_rank_spec STATSRANKS_new.default_thresholds 50 10
           BotFixtures.veteran).
  exact default_levels_present.
Defined.

Lemma statsranks_rank_from_in_level (th : gmap string (Z * Z)) (th' : gmap Z (Z * Z))
    (m n : nat) (lo hi xp : Z) :
  valid_thresholds th -> same_table th th' ->
  (1 <= m)%nat -> (m <= n)%nat -> (n <= 50)%nat ->
  level_entry th m = Some (lo, hi) ->
  lo <= xp <= hi ->
  STATSRANKS_new.calculate_rank_from n xp th' = Ok (Z.of_nat m).
Proof.
  intros Hv Hsame Hm Hmn. induction Hmn as [| n Hmn IH]; intros Hn Em Hxp.
  - destruct m as [| k]; [lia |]. cbn [STATSRANKS_new.calculate_rank_from].
    rewrite (Hsame (S k)) by lia. rewrite Em.
    destruct (Z.leb_spec lo xp); [reflexivity | lia].
  - cbn [STATSRANKS_new.calculate_rank_from].
    destruct (vt_present th Hv (S n)) as (lo' & hi' & En & Hle); [lia |].
    rewrite (Hsame (S n)) by lia. rewrite En.
    pose proof (levels_increasing th Hv m (S n) lo hi lo' hi' Hm ltac:(lia) Hn Em En) as Hinc.
    destruct (Z.leb_spec lo' xp); [lia |]. apply IH; [lia | exact Em | exact Hxp].
Qed.

(** X29: on a gap-free table, and for xp between 0 and the upper bound
    of level 50, the rank lookup of [STATSRANKS_new.py], which reads the
    table with integer keys and tests lower bounds only, returns the level
    that [calculate_rank] of [populate_stats.py] returns. *)
Theorem rank_lookups_agree_within_table (th : gmap string (Z * Z)) (th' : gmap Z (Z * Z))
    (xp : Z) :
  valid_thresholds th -> same_table th th' ->
  0 <= xp <= top_bound th ->
  STATSRANKS_new.calculate_rank xp th' = Ok (calculate_rank xp th).
Proof.
  intros Hv Hsame Hxp. unfold top_bound in Hxp.
  destruct (vt_present th Hv 50) as (lo50 & hi50 & E50 & Hle50); [lia |].
  rewrite E50 in Hxp.
  destruct (level_exists_below th Hv 50 xp lo50 hi50 ltac:(lia) E50 ltac:(lia))
    as (m & lo & hi & Hm & Em & Hin).
  unfold calculate_rank, STATSRANKS_new.calculate_rank.
  rewrite (calculate_rank_from_in_level th Hv m 50 lo hi xp); try lia; try assumption.
  apply (statsranks_rank_from_in_level th th' m 50 lo hi xp); try lia; assumption.
Qed.

Lemma default_same_table :
  same_table STATSRANKS_new.default_rank_thresholds STATSRANKS_new.default_thresholds.
Proof.
  intros n Hn.
  assert (H : forall k, (k <= 50)%nat -> (1 <= k)%nat ->
            STATSRANKS_new.default_thresholds !! Z.of_nat k =
            level_entry STATSRANKS_new.default_rank_thresholds k).
  { intros k Hk. do 51 (destruct k as [| k]; [intros; first [lia | vm_compute; reflexivity] |]).
    lia. }
  apply H; lia.
Qed.

(** X29, witness of the hypotheses: the default table at 5000 xp. *)
Lemma rank_lookups_agree_within_table_witness :
  STATSRANKS_new.calculate_rank 5000 STATSRANKS_new.default_thresholds =
    Ok (calculate_rank 5000 STATSRANKS_new.default_rank_thresholds).
Proof.
  apply (rank_lookups_agree_within_table STATSRANKS_new.default_rank_thresholds
           STATSRANKS_new.default_thresholds 5000).
  - exact default_thresholds_valid.
  - exact default_same_table.
  - split; [lia | vm_compute; discriminate].
Defined.

(** ** Outcome resolver *)

Lemma side_acc_names (t : string) (ps : list player) (init : option (Z * list string)) :
  names_of (side_acc t ps init) =
  (names_of init ++ List.map name (List.filter (on_team t) ps))%list.
Proof.
  revert init. induction ps as [| p ps IH]; intros init; cbn [side_acc fold_left].
  - cbn. now rewrite app_nil_r.
  - unfold side_acc in IH. rewrite IH. cbn [List.filter].
    destruct (on_team t p); [| reflexivity].
    cbn [List.map]. destruct init as [[s l] |]; cbn; [now rewrite <- app_assoc | reflexivity].
Qed.

Lemma side_acc_Some (t : string) (ps : list player) (init : option (Z * list string)) :
  is_Some init \/ existsb (on_team t) ps = true -> is_Some (side_acc t ps init).
Proof.
  revert init. induction ps as [| p ps IH]; intros init; cbn [side_acc fold_left existsb].
  - intros [H | H]; [exact H | discriminate].
  - intros H. apply IH. destruct (on_team t p).
    + left. destruct init as [[s l] |]; cbn; eauto.
    + destruct H as [H | H]; [now left | now right].
Qed.

Lemma winners_losers_decided (g : game) :
  has_team "Red" g = true -> has_team "Blue" g = true ->
  team_total "Red" g <> team_total "Blue" g ->
  determine_winners_losers g =
    if team_total "Blue" g <? team_total "Red" g
    then (team_roster "Red" g, team_roster "Blue" g)
    else (team_roster "Blue" g, team_roster "Red" g).
Proof.
  intros Hr Hb Hne. unfold determine_winners_losers, collect_teams.
  pose proof (collect_teams_shape (players g) [] None None eq_refl) as Hs.
  pose proof (side_acc_score "Red" (players g) None) as Hsr.
  pose proof (side_acc_score "Blue" (players g) None) as Hsb.
  pose proof (side_acc_names "Red" (players g) None) as Hnr.
  pose proof (side_acc_names "Blue" (players g) None) as Hnb.
  fold (team_total "Red" g) in Hsr. fold (team_total "Blue" g) in Hsb.
  fold (team_roster "Red" g) in Hnr. fold (team_roster "Blue" g) in Hnb.
  destruct (side_acc_Some "Red" (players g) None (or_intror Hr)) as [[sr lr] Er].
  destruct (side_acc_Some "Blue" (players g) None (or_intror Hb)) as [[sb lb] Eb].
  rewrite Er, Eb in Hs. rewrite Er in Hsr, Hnr. rewrite Eb in Hsb, Hnb.
  cbn in Hs, Hsr, Hsb, Hnr, Hnb. subst sr sb lr lb.
  set (r := team_total "Red" g) in *. set (b := team_total "Blue" g) in *.
  destruct Hs as [-> | ->]; cbn [fst snd]; rewrite !Z.add_0_l.
  - destruct (Z.ltb_spec r b) as [Hlt | Hge]; cbn [fst snd].
    + destruct (Z.eqb_spec b r); [lia |].
      destruct (Z.ltb_spec b r); [lia | reflexivity].
    + destruct (Z.eqb_spec r b); [lia |].
      destruct (Z.ltb_spec b r); [reflexivity | lia].
  - destruct (Z.ltb_spec b r) as [Hlt | Hge]; cbn [fst snd].
    + destruct (Z.eqb_spec r b); [lia | reflexivity].
    + destruct (Z.eqb_spec b r); [lia | reflexivity].
Qed.

(** X8: when Red and Blue both have roster entries and their aggregate
    scores differ, the winners are the names of the side with the higher
    aggregate score and the losers the names of the other side, each in
    roster order. *)
Theorem decided_match_rosters (g : game) :
  has_team "Red" g = true -> has_team "Blue" g = true ->
  team_total "Red" g <> team_total "Blue" g ->
  determine_winners_losers g =
    if team_total "Blue" g <? team_total "Red" g
    then (team_roster "Red" g, team_roster "Blue" g)
    else (team_roster "Blue" g, team_roster "Red" g).
Proof. exact (winners_losers_decided g). Qed.

Lemma decided_match_rosters_witness :
  determine_winners_losers LedgerFixtures.three_team_game =
    if team_total "Blue" LedgerFixtures.three_team_game <?
       team_total "Red" LedgerFixtures.three_team_game
    then (team_roster "Red" LedgerFixtures.three_team_game,
          team_roster "Blue" LedgerFixtures.three_team_game)
    else (team_roster "Blue" LedgerFixtures.three_team_game,
          team_roster "Red" LedgerFixtures.three_team_game).
Proof.
  apply (decided_match_rosters LedgerFixtures.three_team_game).
  - vm_compute. reflexivity.
  - vm_compute. reflexivity.
  - vm_compute. discriminate.
Defined.

Lemma game_winner_of_side (g : game) (t : string) (sd : side) (losers : list string) :
  determine_winners_losers g = (team_roster t g, losers) ->
  has_team t g = true ->
  (if String.eqb t "Red" then Some Red
   else if String.eqb t "Blue" then Some Blue else None) = Some sd ->
  (forall p q, In p (players g) -> In q (players g) -> name p = name q -> team p = team q) ->
  (forall p, In p (players g) -> on_team t p = true -> team p = t) ->
  game_winner g = Some sd.
Proof.
  intros Hw Ht Hsd Hname Hlabel. unfold game_winner. rewrite Hw. cbn [fst].
  unfold has_team in Ht. apply existsb_exists in Ht as (q0 & Hq0 & Hon0).
  assert (Hin0 : In (name q0) (team_roster t g)).
  { unfold team_roster. apply in_map. apply filter_In. now split. }
  destruct (team_roster t g) as [| w ws] eqn:Hroster; [destruct Hin0 |].
  rewrite <- Hroster in *. clear w ws Hroster.
  destruct (List.find (fun p => PyStr.mem (name p) (team_roster t g)) (players g))
    as [p |] eqn:Hfind.
  - apply find_some in Hfind as [Hp Hmem]. apply mem_In in Hmem.
    unfold team_roster in Hmem. apply in_map_iff in Hmem as (q & Hq & Hqin).
    apply filter_In in Hqin as [Hqin Hqon].
    rewrite (Hname p q Hp Hqin (eq_sym Hq)), (Hlabel q Hqin Hqon). exact Hsd.
  - exfalso. pose proof (find_none _ _ Hfind q0 Hq0) as Hn. cbv beta in Hn.
    apply mem_In in Hin0. congruence.
Qed.

(** X28: in a match with Red and Blue entries and different aggregate
    scores, in which entries with the same name have the same team label
    and the labels of the Red and Blue entries carry no surrounding
    whitespace, the game winner that [detect_series] records is the side
    with the higher aggregate score. *)
Theorem game_winner_is_higher_score (g : game) :
  has_team "Red" g = true -> has_team "Blue" g = true ->
  team_total "Red" g <> team_total "Blue" g ->
  (forall p q, In p (players g) -> In q (players g) -> name p = name q -> team p = team q) ->
  (forall p t, In p (players g) -> In t ["Red"; "Blue"] -> on_team t p = true -> team p = t) ->
  game_winner g = Some (if team_total "Blue" g <? team_total "Red" g then Red else Blue).
Proof.
  intros Hr Hb Hne Hname Hlabel.
  pose proof (winners_losers_decided g Hr Hb Hne) as Hw.
  destruct (team_total "Blue" g <? team_total "Red" g).
  - apply (game_winner_of_side g "Red" Red _ Hw Hr eq_refl Hname).
    intros p Hp. apply Hlabel; [exact Hp | now left].
  - apply (game_winner_of_side g "Blue" Blue _ Hw Hb eq_refl Hname).
    intros p Hp. apply Hlabel; [exact Hp | right; now left].
Qed.

(** X28, witness of the hypotheses: Alice (Red, 50) against Bob (Blue,
    30). *)
Lemma game_winner_is_higher_score_witness :
  game_winner Fixtures.g1 =
    Some (if team_total "Blue" Fixtures.g1 <? team_total "Red" Fixtures.g1
          then Red else Blue).
Proof.
  apply (game_winner_is_higher_score Fixtures.g1).
  - vm_compute. reflexivity.
  - vm_compute. reflexivity.
  - vm_compute. discriminate.
  - intros p q Hp Hq. cbn in Hp, Hq.
    destruct Hp as [<- | [<- | []]], Hq as [<- | [<- | []]];
      first [reflexivity | intros H; vm_compute in H; discriminate].
  - intros p t Hp Ht. cbn in Hp, Ht.
    destruct Hp as [<- | [<- | []]], Ht as [<- | [<- | []]];
      first [reflexivity | intros H; vm_compute in H; discriminate].
Defined.

(** ** Series detector *)

Section SeriesExtra.
Variable f : string -> string.

Lemma finalize_games (cs : series) : games (_finalize_series cs) = games cs.
Proof. reflexivity. Qed.

Lemma series_step_games (st : detect_state) (g : game) :
  state_games (series_step f st g) = (state_games st ++ [series_entry g])%list.
Proof.
  unfold state_games, open_games.
  destruct (current_series st) as [[sig cs] |] eqn:Hc.
  - destruct (decide (get_team_signature g = sig)) as [He | Hne].
    + rewrite (series_step_same f st sig cs g Hc He). cbn [series_list current_series].
      cbn [add_game games]. now rewrite app_assoc.
    + rewrite (series_step_other f st sig cs g Hc Hne). cbn [series_list current_series].
      rewrite map_app, concat_app. cbn [List.map concat new_series games].
      rewrite app_nil_r, finalize_games. now rewrite <- app_assoc.
  - rewrite (series_step_first f st g Hc). cbn [series_list current_series new_series games].
    now rewrite app_nil_r.
Qed.

Lemma series_fold_games (gs : list game) (st : detect_state) :
  state_games (fold_left (series_step f) gs st) =
  (state_games st ++ List.map series_entry gs)%list.
Proof.
  revert st. induction gs as [| g gs IH]; intros st; cbn [fold_left List.map].
  - now rewrite app_nil_r.
  - rewrite IH, series_step_games, <- app_assoc. reflexivity.
Qed.

Lemma series_step_ids (st : detect_state) (g : game) (n : nat) :
  state_ids st = List.map nth_series_id (seq 1 n) ->
  series_counter st = Z.of_nat n ->
  exists m, state_ids (series_step f st g) = List.map nth_series_id (seq 1 m) /\
            series_counter (series_step f st g) = Z.of_nat m /\
            is_Some (current_series (series_step f st g)).
Proof.
  intros Hids Hcnt. unfold state_ids in *.
  assert (Hnext : forall l, l = List.map nth_series_id (seq 1 n) ->
            (l ++ [nth_series_id (S n)])%list = List.map nth_series_id (seq 1 (S n))).
  { intros l ->. rewrite seq_S, map_app. reflexivity. }
  assert (Hid : "series_" +:+ PyStr.str (series_counter st + 1) = nth_series_id (S n)).
  { unfold nth_series_id. rewrite Hcnt. do 2 f_equal. lia. }
  destruct (current_series st) as [[sig cs] |] eqn:Hc.
  - destruct (decide (get_team_signature g = sig)) as [He | Hne].
    + rewrite (series_step_same f st sig cs g Hc He). cbn [series_list current_series].
      exists n. cbn [add_game series_id]. split; [exact Hids |]. split; [exact Hcnt | eauto].
    + rewrite (series_step_other f st sig cs g Hc Hne). cbn [series_list current_series].
      exists (S n). split; [| split; [cbn [series_counter]; lia | eauto]].
      rewrite map_app. cbn [List.map new_series series_id _finalize_series].
      rewrite Hid. now apply Hnext.
  - rewrite (series_step_first f st g Hc). cbn [series_list current_series].
    exists (S n). split; [| split; [cbn [series_counter]; lia | eauto]].
    cbn [new_series series_id]. rewrite Hid. rewrite app_nil_r in Hids. now apply Hnext.
Qed.

Lemma series_fold_ids (gs : list game) (st : detect_state) (n : nat) :
  state_ids st = List.map nth_series_id (seq 1 n) ->
  series_counter st = Z.of_nat n ->
  exists m, state_ids (fold_left (series_step f) gs st) = List.map nth_series_id (seq 1 m).
Proof.
  revert st n. induction gs as [| g gs IH]; intros st n Hids Hcnt; cbn [fold_left].
  - now exists n.
  - destruct (series_step_ids st g n Hids Hcnt) as (m & Hm & Hc & _).
    exact (IH _ m Hm Hc).
Qed.

Lemma sorted_insert_length {A} (le : A -> A -> bool) (x : A) (l : list A) :
  length (PyStr.insert_sorted le x l) = S (length l).
Proof.
  induction l as [| y l IH]; cbn; [reflexivity |].
  destruct (le y x); cbn; [now rewrite IH | reflexivity].
Qed.

Lemma sorted_length {A} (le : A -> A -> bool) (l : list A) :
  length (PyStr.sorted le l) = length l.
Proof.
  unfold PyStr.sorted.
  assert (H : forall acc, length (fold_left (fun acc x => PyStr.insert_sorted le x acc) l acc)
                          = (length acc + length l)%nat).
  { induction l as [| x l IH]; intros acc; cbn [fold_left length]; [lia |].
    rewrite IH, sorted_insert_length. lia. }
  now rewrite H.
Qed.

Lemma detect_series_fold (gs : list game) :
  gs <> [] ->
  exists st sig cs,
    st = fold_left (series_step f) (sorted_by_start gs) detect_init /\
    current_series st = Some (sig, cs) /\
    detect_series f gs = (series_list st ++ [_finalize_series cs])%list.
Proof.
  intros Hne. unfold detect_series. fold (sorted_by_start gs).
  destruct gs as [| g0 gs0]; [contradiction |].
  set (gs := g0 :: gs0) in *.
  assert (Hs : sorted_by_start gs <> []).
  { intros He. apply (f_equal (@length game)) in He.
    unfold sorted_by_start in He. rewrite sorted_length in He. discriminate. }
  destruct (sorted_by_start gs) as [| g l] eqn:E; [contradiction |].
  cbn [fold_left].
  assert (Hopen : forall l st, is_Some (current_series st) ->
            is_Some (current_series (fold_left (series_step f) l st))).
  { clear. induction l as [| g l IH]; intros st Hst; cbn [fold_left]; [exact Hst |].
    apply IH. destruct (series_step_open f st g) as [cs Hcs]. rewrite Hcs. eauto. }
  destruct (Hopen l (series_step f detect_init g)) as [[sig cs] Hcs].
  { destruct (series_step_open f detect_init g) as [cs Hcs]. rewrite Hcs. eauto. }
  exists (fold_left (series_step f) l (series_step f detect_init g)), sig, cs.
  split; [reflexivity |]. split; [exact Hcs |]. now rewrite Hcs.
Qed.

(** X9: the series returned by [detect_series] hold every input game
    exactly once: their game lists, concatenated, are the entries of the
    input games in the order of their start times; the number of games in
    all series is the number of input games. *)
Theorem detect_series_keeps_every_game (gs : list game) :
  concat (List.map games (detect_series f gs)) =
    List.map series_entry (sorted_by_start gs) /\
  length (concat (List.map games (detect_series f gs))) = length gs.
Proof.
  assert (H : concat (List.map games (detect_series f gs)) =
              List.map series_entry (sorted_by_start gs)).
  { destruct gs as [| g0 gs0]; [reflexivity |].
    destruct (detect_series_fold (g0 :: gs0) ltac:(discriminate))
      as (st & sig & cs & Hst & Hcs & ->).
    pose proof (series_fold_games (sorted_by_start (g0 :: gs0)) detect_init) as Hg.
    rewrite <- Hst in Hg. unfold state_games, open_games in Hg. rewrite Hcs in Hg.
    cbn [detect_init series_list current_series List.map concat app] in Hg.
    rewrite map_app, concat_app. cbn [List.map concat]. rewrite app_nil_r, finalize_games.
    exact Hg. }
  split; [exact H |].
  rewrite H, length_map. unfold sorted_by_start. apply sorted_length.
Qed.

(** X10: the series returned by [detect_series] are numbered in order:
    the [i]-th one has the identifier [series_i], counting from 1. *)
Theorem detect_series_ids_in_order (gs : list game) :
  List.map series_id (detect_series f gs) =
  List.map nth_series_id (seq 1 (length (detect_series f gs))).
Proof.
  destruct gs as [| g0 gs0]; [reflexivity |].
  destruct (detect_series_fold (g0 :: gs0) ltac:(discriminate))
    as (st & sig & cs & Hst & Hcs & ->).
  destruct (series_fold_ids (sorted_by_start (g0 :: gs0)) detect_init 0 eq_refl eq_refl)
    as [m Hm].
  rewrite <- Hst in Hm. unfold state_ids in Hm. rewrite Hcs in Hm.
  assert (He : List.map series_id (series_list st ++ [_finalize_series cs]) =
               List.map nth_series_id (seq 1 m)).
  { rewrite map_app. exact Hm. }
  rewrite He. apply (f_equal (@length string)) in He.
  rewrite !length_map, length_seq in He. now rewrite He.
Qed.

Lemma count_won_app (sd : side) (l1 l2 : list series_game) :
  count_won sd (l1 ++ l2) = count_won sd l1 + count_won sd l2.
Proof. unfold count_won. rewrite List.filter_app, length_app. lia. Qed.

Lemma count_won_bound (l : list series_game) :
  0 <= count_won Red l /\ 0 <= count_won Blue l /\
  count_won Red l + count_won Blue l <= Z.of_nat (length l).
Proof.
  unfold count_won. induction l as [| e l IH]; cbn [List.filter length]; [lia |].
  assert (Hx : won_by Red e = true -> won_by Blue e = false).
  { unfold won_by. destruct (sg_winner e) as [[] |]; congruence. }
  destruct (won_by Red e), (won_by Blue e); cbn [length];
    try (specialize (Hx eq_refl); discriminate); lia.
Qed.

Lemma wins_counted_new (n : Z) (g : game) : wins_counted (new_series f n g).
Proof.
  unfold wins_counted, count_won, won_by. cbn.
  destruct (game_winner g) as [[] |]; cbn; split; reflexivity.
Qed.

Lemma wins_counted_add (cs : series) (g : game) :
  wins_counted cs -> wins_counted (add_game cs g).
Proof.
  intros [Hr Hb]. unfold wins_counted. cbn [add_game red_wins blue_wins games].
  rewrite !count_won_app, <- Hr, <- Hb. unfold count_won, won_by. cbn.
  destruct (game_winner g) as [[] |]; cbn; split; lia.
Qed.

Lemma wins_needed_majority (n : Z) : 0 <= n -> n < 2 * wins_needed n.
Proof.
  intros Hn. unfold wins_needed.
  destruct (Z.leb_spec n 3); [lia |]. destruct (Z.leb_spec n 5); [lia |].
  destruct (Z.leb_spec n 7); [lia |].
  pose proof (Z.div_mod n 2 ltac:(lia)). pose proof (Z.mod_pos_bound n 2 ltac:(lia)). lia.
Qed.

Lemma finalize_majority (cs : series) :
  wins_counted cs ->
  wins_counted (_finalize_series cs) /\
  winner (_finalize_series cs) = majority (_finalize_series cs).
Proof.
  intros Hw. split; [exact Hw |]. destruct Hw as [Hr Hb].
  pose proof (count_won_bound (games cs)) as (H0r & H0b & Hsum).
  pose proof (wins_needed_majority (Z.of_nat (length (games cs))) ltac:(lia)) as Hn.
  unfold majority. cbn [_finalize_series winner red_wins blue_wins].
  rewrite <- Hr, <- Hb in *.
  destruct (Z.leb_spec (wins_needed (Z.of_nat (length (games cs)))) (red_wins cs)).
  - destruct (Z.ltb_spec (blue_wins cs) (red_wins cs)); [reflexivity | lia].
  - destruct (Z.leb_spec (wins_needed (Z.of_nat (length (games cs)))) (blue_wins cs)).
    + destruct (Z.ltb_spec (blue_wins cs) (red_wins cs)); [lia |].
      destruct (Z.ltb_spec (red_wins cs) (blue_wins cs)); [reflexivity | lia].
    + reflexivity.
Qed.

Lemma series_step_settled (st : detect_state) (g : game) :
  Forall series_settled (series_list st) ->
  (forall sig cs, current_series st = Some (sig, cs) -> wins_counted cs) ->
  Forall series_settled (series_list (series_step f st g)) /\
  (forall sig cs, current_series (series_step f st g) = Some (sig, cs) -> wins_counted cs).
Proof.
  intros Hl Hc. destruct (current_series st) as [[sig cs] |] eqn:E.
  - destruct (decide (get_team_signature g = sig)) as [He | Hne].
    + rewrite (series_step_same f st sig cs g E He). cbn [series_list current_series].
      split; [exact Hl |]. intros sig' cs' [= <- <-].
      apply wins_counted_add. now apply (Hc sig).
    + rewrite (series_step_other f st sig cs g E Hne). cbn [series_list current_series].
      split.
      * apply Forall_app. split; [exact Hl |]. constructor; [| constructor].
        apply finalize_majority. now apply (Hc sig).
      * intros sig' cs' [= <- <-]. apply wins_counted_new.
  - rewrite (series_step_first f st g E). cbn [series_list current_series].
    split; [exact Hl |]. intros sig' cs' [= <- <-]. apply wins_counted_new.
Qed.

Lemma series_fold_settled (gs : list game) (st : detect_state) :
  Forall series_settled (series_list st) ->
  (forall sig cs, current_series st = Some (sig, cs) -> wins_counted cs) ->
  Forall series_settled (series_list (fold_left (series_step f) gs st)) /\
  (forall sig cs, current_series (fold_left (series_step f) gs st) = Some (sig, cs) ->
     wins_counted cs).
Proof.
  revert st. induction gs as [| g gs IH]; intros st Hl Hc; cbn [fold_left]; [auto |].
  destruct (series_step_settled st g Hl Hc) as [Hl' Hc']. now apply IH.
Qed.

(** X11: in every series returned by [detect_series], [red_wins] and
    [blue_wins] are the numbers of games of the series won by Red and by
    Blue, and the winner is the side with strictly more game wins, or Tie
    when both have the same number; it is never left at Ongoing. *)
Theorem detect_series_winner_is_majority (gs : list game) :
  Forall (fun s =>
            red_wins s = count_won Red (games s) /\
            blue_wins s = count_won Blue (games s) /\
            winner s = majority s /\ winner s <> Ongoing)
         (detect_series f gs).
Proof.
  assert (H : Forall series_settled (detect_series f gs)).
  { destruct gs as [| g0 gs0]; [constructor |].
    destruct (detect_series_fold (g0 :: gs0) ltac:(discriminate))
      as (st & sig & cs & Hst & Hcs & ->).
    destruct (series_fold_settled (sorted_by_start (g0 :: gs0)) detect_init)
      as [Hl Hc]; [constructor | discriminate |].
    rewrite <- Hst in Hl, Hc. apply Forall_app. split; [exact Hl |].
    constructor; [| constructor]. apply finalize_majority. now apply (Hc sig). }
  eapply Forall_impl; [exact H |].
  intros s [[Hr Hb] Hw]. repeat split; try assumption.
  rewrite Hw. unfold majority.
  destruct (_ <? _); [discriminate |]. destruct (_ <? _); discriminate.
Qed.

End SeriesExtra.

(** ** Ledger: what a replay keeps and what it leaves alone *)

Section LedgerExtra.
Variable cfg : xp_config.

Section Preserved.
Variable P : tables -> Prop.
Hypothesis P_step : forall o n pl T T',
  well_formed T -> P T -> participates T n = true ->
  transition cfg o n pl T T' -> P T'.

Lemma ledger_names_preserves (winners losers : list string) (pl : string)
    (names : list string) (T : tables) :
  well_formed T -> P T ->
  exists T',
    foldM (ledger_player cfg winners losers pl) names T = Ok T' /\
    well_formed T' /\ P T'.
Proof.
  revert T. induction names as [| a rest IH]; intros T Hwf HP.
  - exists T. now split.
  - cbn [foldM].
    destruct (ledger_player_total cfg winners losers pl T a Hwf) as (T1 & Hrun & Hcase).
    rewrite Hrun, bind_Ok. apply IH.
    + destruct Hcase as [[_ ->] | [Hp Htr]]; [exact Hwf |].
      pose proof Hp as Hp'. apply participates_true in Hp' as [_ Hn].
      exact (transition_well_formed cfg _ _ _ _ _ Hwf Hn Htr).
    + destruct Hcase as [[_ ->] | [Hp Htr]]; [exact HP |].
      exact (P_step _ _ _ _ _ Hwf HP Hp Htr).
Qed.

Lemma ledger_game_preserves (T : tables) (g : game) :
  well_formed T -> P T ->
  exists T', ledger_game cfg T g = Ok T' /\ well_formed T' /\ P T'.
Proof.
  intros Hwf HP. unfold ledger_game.
  destruct (determine_winners_losers g) as [winners losers].
  destruct (playlist g) as [pl |]; [| exists T; now split].
  destruct (String.eqb pl ""); [exists T; now split |].
  now apply ledger_names_preserves.
Qed.

Lemma ledger_replay_preserves (gs : list game) (T : tables) :
  well_formed T -> P T ->
  exists T', ledger_replay cfg gs T = Ok T' /\ well_formed T' /\ P T'.
Proof.
  revert T. induction gs as [| g gs IH]; intros T Hwf HP.
  - exists T. now split.
  - unfold ledger_replay. cbn [foldM].
    destruct (ledger_game_preserves T g Hwf HP) as (T1 & Hrun & Hwf1 & HP1).
    rewrite Hrun, bind_Ok. now apply IH.
Qed.

End Preserved.

Lemma transition_counts (o : outcome) (n pl : string) (T T' : tables) :
  ledger_counts T -> transition cfg o n pl T T' -> ledger_counts T'.
Proof.
  intros Hc Htr n' pl'. unfold wins_of, losses_of, games_of.
  rewrite (transition_value cfg o n pl T T' Fwins n' pl' Htr),
    (transition_value cfg o n pl T T' Flosses n' pl' Htr),
    (transition_value cfg o n pl T T' Fgames n' pl' Htr).
  destruct (decide ((n', pl') = (n, pl))); [| apply Hc].
  cbn [next_value]. specialize (Hc n pl). destruct o; lia.
Qed.

Lemma transition_synced (o : outcome) (n pl : string) (T T' : tables) :
  rank_synced cfg T -> transition cfg o n pl T T' -> rank_synced cfg T'.
Proof.
  intros Hs Htr n' pl' Hsome. unfold rank_of, xp_of.
  rewrite (transition_value cfg o n pl T T' Frank n' pl' Htr),
    (transition_value cfg o n pl T T' Fxp n' pl' Htr).
  destruct (decide ((n', pl') = (n, pl))) as [He | Hne]; [reflexivity |].
  apply Hs. destruct Htr as (_ & Hframe & _). now rewrite <- (Hframe Frank n' pl' Hne).
Qed.

(** X12: a replay of any list of games from well-formed tables in
    which wins and losses are counted within the games played and every
    stored rank is the level of the stored xp returns without error, and
    both properties hold of the tables it returns. *)
Theorem ledger_replay_counts_and_ranks (gs : list game) (T : tables) :
  well_formed T -> ledger_counts T -> rank_synced cfg T ->
  exists T',
    ledger_replay cfg gs T = Ok T' /\ ledger_counts T' /\ rank_synced cfg T'.
Proof.
  intros Hwf Hc Hs.
  destruct (ledger_replay_preserves (fun T => ledger_counts T /\ rank_synced cfg T))
    with (gs := gs) (T := T) as (T' & Hrun & _ & Hc' & Hs'); [| exact Hwf | now split |].
  - intros o n pl T1 T2 _ [Hc1 Hs1] _ Htr. split.
    + exact (transition_counts o n pl T1 T2 Hc1 Htr).
    + exact (transition_synced o n pl T1 T2 Hs1 Htr).
  - exists T'. now split.
Qed.

Lemma ledger_names_frame (winners losers : list string) (pl : string)
    (names : list string) (T : tables) :
  well_formed T ->
  exists T',
    foldM (ledger_player cfg winners losers pl) names T = Ok T' /\
    same_names T T' /\
    forall f n pl',
      ~ In n names \/ pl' <> pl \/ participates T n = false ->
      val f T' n pl' = val f T n pl'.
Proof.
  revert T. induction names as [| a rest IH]; intros T Hwf.
  - exists T. split; [reflexivity |]. split; [intros f n; reflexivity | reflexivity].
  - cbn [foldM].
    destruct (ledger_player_total cfg winners losers pl T a Hwf) as (T1 & Hrun & Hcase).
    rewrite Hrun, bind_Ok.
    assert (Hwf1 : well_formed T1).
    { destruct Hcase as [[_ ->] | [Hp Htr]]; [exact Hwf |].
      apply participates_true in Hp as [_ Hn].
      exact (transition_well_formed cfg _ _ _ _ _ Hwf Hn Htr). }
    assert (Hp1 : forall n, participates T1 n = participates T n).
    { intros n. destruct Hcase as [[_ ->] | [_ Htr]]; [reflexivity |].
      exact (transition_participates cfg _ _ _ _ _ n Htr). }
    assert (Hn1 : same_names T T1).
    { destruct Hcase as [[_ ->] | [_ (_ & _ & Hsel)]]; [intros f n; reflexivity | exact Hsel]. }
    destruct (IH T1 Hwf1) as (T' & Hfold & Hn' & Hv').
    exists T'. split; [exact Hfold |]. split.
    + intros f n. now rewrite (Hn' f n), (Hn1 f n).
    + intros f n pl' Hcond. rewrite Hv'.
      * destruct Hcase as [[_ ->] | [Hp (_ & Hframe & _)]]; [reflexivity |].
        apply Hframe. intros [= -> ->].
        destruct Hcond as [Hin | [Hpl | Hnp]];
          [apply Hin; now left | now apply Hpl | congruence].
      * rewrite Hp1. destruct Hcond as [Hin | [Hpl | Hnp]];
          [left; intros Hr; apply Hin; now right | right; now left | right; now right].
Qed.

(** X13: processing one ranked match on well-formed tables returns
    without error, tracks the same names afterwards, and changes no entry
    of a name that is not on the roster of the match, no entry of another
    playlist than the one the match is tagged with, and no entry of a name
    that the ledger skips (a dedicated server or an untracked name). *)
Theorem ledger_game_frame (T : tables) (g : game) :
  well_formed T ->
  exists T',
    ledger_game cfg T g = Ok T' /\
    same_names T T' /\
    forall f n pl',
      ~ In n (roster_names g) \/ playlist g <> Some pl' \/ participates T n = false ->
      val f T' n pl' = val f T n pl'.
Proof.
  intros Hwf. unfold ledger_game.
  destruct (determine_winners_losers g) as [winners losers].
  assert (Hid : exists T', Ok T = Ok T' /\ same_names T T' /\
            forall f n pl',
              ~ In n (roster_names g) \/ playlist g <> Some pl' \/ participates T n = false ->
              val f T' n pl' = val f T n pl').
  { exists T. split; [reflexivity |]. split; [intros f n; reflexivity | reflexivity]. }
  destruct (playlist g) as [pl |]; [| exact Hid].
  destruct (String.eqb pl ""); [exact Hid |].
  destruct (ledger_names_frame winners losers pl (List.map name (players g)) T Hwf)
    as (T' & Hrun & Hn & Hv).
  exists T'. split; [exact Hrun |]. split; [exact Hn |].
  intros f n pl' Hcond. apply Hv.
  destruct Hcond as [Hin | [Hpl | Hnp]]; [now left | right; left; congruence | now right; right].
Qed.

End LedgerExtra.

Lemma clean_tables_counts (names : list string) : ledger_counts (clean_tables names).
Proof.
  intros n pl. unfold wins_of, losses_of, games_of, value_of.
  rewrite !clean_tables_val. cbn. lia.
Qed.

Lemma clean_tables_synced (cfg : xp_config) (names : list string) :
  rank_synced cfg (clean_tables names).
Proof. intros n pl [x Hx]. rewrite clean_tables_val in Hx. discriminate. Qed.

(** X12, witness of the hypotheses: a win, a loss and a tie replayed
    from a clean slate. *)
Lemma ledger_replay_counts_and_ranks_witness :
  exists T',
    ledger_replay LedgerFixtures.cfg
      [LedgerFixtures.win_game; LedgerFixtures.loss_game; LedgerFixtures.tie_game]
      LedgerFixtures.T0 = Ok T' /\
    ledger_counts T' /\ rank_synced LedgerFixtures.cfg T'.
Proof.
  apply (ledger_replay_counts_and_ranks LedgerFixtures.cfg
           [LedgerFixtures.win_game; LedgerFixtures.loss_game; LedgerFixtures.tie_game]
           LedgerFixtures.T0).
  - exact (inv_wf _ (clean_tables_inv _)).
  - exact (clean_tables_counts _).
  - exact (clean_tables_synced _ _).
Defined.

(** X13, witness of the hypothesis: a decided match processed from a
    clean slate. *)
Lemma ledger_game_frame_witness :
  exists T',
    ledger_game LedgerFixtures.cfg LedgerFixtures.T0 LedgerFixtures.win_game = Ok T' /\
    same_names LedgerFixtures.T0 T' /\
    forall f n pl',
      ~ In n (roster_names LedgerFixtures.win_game) \/
      playlist LedgerFixtures.win_game <> Some pl' \/
      participates LedgerFixtures.T0 n = false ->
      val f T' n pl' = val f LedgerFixtures.T0 n pl'.
Proof.
  apply (ledger_game_frame LedgerFixtures.cfg LedgerFixtures.T0 LedgerFixtures.win_game).
  exact (inv_wf _ (clean_tables_inv _)).
Defined.

(** ** Classification and the checkpoint *)

Lemma filter_none {A} (p : A -> bool) (l : list A) :
  (forall x, In x l -> p x = false) -> List.filter p l = [].
Proof.
  induction l as [| a l IH]; intros H; cbn [List.filter]; [reflexivity |].
  rewrite (H a) by now left. apply IH. intros x Hx. apply H. now right.
Qed.

Lemma filter_all {A} (p : A -> bool) (l : list A) :
  (forall x, In x l -> p x = true) -> List.filter p l = l.
Proof.
  induction l as [| a l IH]; intros H; cbn [List.filter]; [reflexivity |].
  rewrite (H a) by now left. f_equal. apply IH. intros x Hx. apply H. now right.
Qed.

Lemma determine_playlist_no_session (f : game_file) (manual_playlists : gmap string string) :
  determine_playlist f None manual_playlists = manual_playlists !! basename f.
Proof.
  unfold determine_playlist. destruct (manual_playlists !! basename f); [reflexivity |].
  now destruct (negb (is_game_long_enough f)).
Qed.

(** X14: without a bot session, the checkpoint written at the end of a
    run makes the next run over the same stats files process nothing: every
    file is listed, and every recorded classification is the file's entry
    in the manual table. *)
Theorem rerun_processes_nothing (files : list (game_file * game))
    (manual_playlists : gmap string string) (st : run_state) :
  plan_mode
    (plan (List.map (fun f => basename (fst f)) files) manual_playlists
          (save_state (List.map (load_game None manual_playlists) files) st))
  = NOTHING_TO_PROCESS.
Proof.
  set (stats_files := List.map (fun f => basename (fst f)) files).
  set (state := save_state (List.map (load_game None manual_playlists) files) st).
  assert (Hrec : forall fn recorded, ps_games state !! fn = Some recorded ->
            recorded = manual_playlists !! fn).
  { intros fn recorded H. unfold state, save_state in H. cbn [ps_games] in H.
    apply elem_of_list_to_map_2, list_elem_of_In in H.
    rewrite List.map_map in H. apply in_map_iff in H as (f & Hf & _).
    cbn [load_game playlist source_file] in Hf. injection Hf as <- <-.
    apply determine_playlist_no_session. }
  assert (Hlisted : forall fn, In fn stats_files -> ps_games state !! fn <> None).
  { intros fn Hin E. unfold state, save_state in E. cbn [ps_games] in E.
    apply not_elem_of_list_to_map_2 in E. apply E. apply list_elem_of_In.
    unfold stats_files in Hin. apply in_map_iff in Hin as (f & <- & Hf).
    change (In (basename (fst f))
              (List.map fst (List.map (fun g => (source_file g, playlist g))
                               (List.map (load_game None manual_playlists) files)))).
    rewrite !List.map_map. apply in_map_iff. exists f. split; [reflexivity | exact Hf]. }
  destruct (check_for_changes_spec manual_playlists state stats_files)
    as (changed & Hcc & _ & Hempty).
  unfold plan. rewrite Hcc.
  assert (Hnew : unlisted stats_files state = []).
  { unfold unlisted. apply filter_none. intros fn Hin.
    apply bool_decide_eq_false_2. now apply Hlisted. }
  assert (Hch : changed = ∅).
  { apply Hempty. intros (fn & recorded & _ & Hl & Hne). apply Hne. now apply Hrec. }
  rewrite Hnew, Hch. reflexivity.
Qed.

(** X15: a game that is ranked without an entry in the manual table
    lasted at least [MIN_GAME_DURATION_SECONDS], there is a bot session,
    the playlist is the session's, it is one of the four ranked playlists
    and the game has that playlist's number of players, at least 75% of its
    players are in the session, every playlist but Head to Head needs a Red
    and a Blue team, and the two 4v4 playlists need a listed map and game
    type. *)
Theorem session_classification_sound (f : game_file)
    (active_match : option active_match_t) (manual_playlists : gmap string string)
    (p : string) :
  manual_playlists !! basename f = None ->
  determine_playlist f active_match manual_playlists = Some p ->
  MIN_GAME_DURATION_SECONDS <= duration_seconds f /\
  exists am,
    active_match = Some am /\ p = am_playlist am /\
    playlist_size p = Some (player_count f) /\
    players_match_active_match (game_players f) active_match = true /\
    (p <> PLAYLIST_HEAD_TO_HEAD -> is_team_game f = true) /\
    (playlist_size p = Some 8 ->
     is_valid_mlg_combo (file_map_name f) (file_base_gametype f) = true).
Proof.
  intros Hman H. unfold determine_playlist in H. rewrite Hman in H.
  unfold is_game_long_enough in H.
  destruct (Z.leb_spec MIN_GAME_DURATION_SECONDS (duration_seconds f)) as [Hlong |];
    cbn [negb] in H; [| discriminate].
  split; [exact Hlong |].
  destruct active_match as [am |]; [| discriminate]. exists am. split; [reflexivity |].
  destruct (String.eqb_spec (am_playlist am) PLAYLIST_HEAD_TO_HEAD) as [E1 | N1].
  { destruct (_ && _) eqn:Hc in H; [| discriminate]. injection H as <-.
    apply andb_true_iff in Hc as [Hn Hm]. apply Z.eqb_eq in Hn.
    split; [now rewrite E1 |]. split; [now rewrite Hn |].
    split; [exact Hm |]. split; [congruence | discriminate]. }
  destruct (String.eqb_spec (am_playlist am) PLAYLIST_DOUBLE_TEAM) as [E2 | N2].
  { destruct (_ && _) eqn:Hc in H; [| discriminate]. injection H as <-.
    apply andb_true_iff in Hc as [Hc Hm]. apply andb_true_iff in Hc as [Hn Ht].
    apply Z.eqb_eq in Hn.
    split; [now rewrite E2 |]. split; [now rewrite Hn |].
    split; [exact Hm |]. split; [intros _; exact Ht | discriminate]. }
  destruct (PyStr.mem (am_playlist am) [PLAYLIST_MLG_4V4; PLAYLIST_TEAM_HARDCORE]) eqn:E3;
    [| discriminate].
  destruct (_ && _) eqn:Hc in H; [| discriminate]. injection H as <-.
  apply andb_true_iff in Hc as [Hc Hm]. apply andb_true_iff in Hc as [Hc Hv].
  apply andb_true_iff in Hc as [Hn Ht]. apply Z.eqb_eq in Hn.
  split; [reflexivity |].
  assert (Hsz : playlist_size (am_playlist am) = Some (player_count f)).
  { unfold playlist_size.
    destruct (String.eqb_spec (am_playlist am) PLAYLIST_HEAD_TO_HEAD); [contradiction |].
    destruct (String.eqb_spec (am_playlist am) PLAYLIST_DOUBLE_TEAM); [contradiction |].
    unfold PyStr.mem in E3. cbn [existsb] in E3. rewrite orb_false_r in E3.
    rewrite E3. now rewrite Hn. }
  split; [exact Hsz |]. split; [exact Hm |]. split; [intros _; exact Ht | intros _; exact Hv].
Qed.

(** X15, witness of the hypotheses: an eight-player CTF game on Midship
    played by the session's two teams. *)
Lemma session_classification_sound_witness :
  MIN_GAME_DURATION_SECONDS <= duration_seconds PlanFixtures.session_file /\
  exists am,
    Some PlanFixtures.session = Some am /\ PLAYLIST_MLG_4V4 = am_playlist am /\
    playlist_size PLAYLIST_MLG_4V4 = Some (player_count PlanFixtures.session_file) /\
    players_match_active_match (game_players PlanFixtures.session_file)
      (Some PlanFixtures.session) = true /\
    (PLAYLIST_MLG_4V4 <> PLAYLIST_HEAD_TO_HEAD ->
     is_team_game PlanFixtures.session_file = true) /\
    (playlist_size PLAYLIST_MLG_4V4 = Some 8 ->
     is_valid_mlg_combo (file_map_name PlanFixtures.session_file)
       (file_base_gametype PlanFixtures.session_file) = true).
Proof.
  apply (session_classification_sound PlanFixtures.session_file
           (Some PlanFixtures.session) ∅ PLAYLIST_MLG_4V4).
  - reflexivity.
  - vm_compute. reflexivity.
Defined.

Lemma mem_lower_session (am : active_match_t) (p : string) :
  PyStr.mem (PyStr.lower p)
    (List.map PyStr.lower (am_red_team am) ++ List.map PyStr.lower (am_blue_team am)) = true
  <-> in_session am p.
Proof.
  rewrite mem_In, <- List.map_app, in_map_iff. unfold in_session.
  split; intros (q & H1 & H2); exists q; tauto.
Qed.

(** X16: with a session that names at least one player, a roster all of
    whose players are in the session (letter case aside) matches it, an
    empty roster matches it as well, and a non-empty roster none of whose
    players is in the session does not. *)
Theorem players_match_full_and_disjoint (game_players : list string) (am : active_match_t) :
  (am_red_team am ++ am_blue_team am)%list <> [] ->
  (Forall (in_session am) game_players ->
   players_match_active_match game_players (Some am) = true) /\
  players_match_active_match [] (Some am) = true /\
  (game_players <> [] -> Forall (fun p => ~ in_session am p) game_players ->
   players_match_active_match game_players (Some am) = false).
Proof.
  intros Hne.
  assert (Hact : (List.map PyStr.lower (am_red_team am) ++
                  List.map PyStr.lower (am_blue_team am))%list <> []).
  { rewrite <- List.map_app. destruct (am_red_team am ++ am_blue_team am)%list;
      [contradiction | discriminate]. }
  unfold players_match_active_match.
  destruct (List.map PyStr.lower (am_red_team am) ++
            List.map PyStr.lower (am_blue_team am))%list as [| a0 act] eqn:E;
    [contradiction |].
  rewrite <- E. clear Hact.
  split; [| split].
  - intros Hall. rewrite filter_all.
    + rewrite length_map. apply Z.leb_le. lia.
    + intros x Hx. apply in_map_iff in Hx as (p & <- & Hp).
      apply mem_lower_session. rewrite List.Forall_forall in Hall. now apply Hall.
  - reflexivity.
  - intros Hg Hnone. rewrite filter_none.
    + apply Z.leb_gt. destruct game_players; [contradiction | cbn [length]; lia].
    + intros x Hx. apply in_map_iff in Hx as (p & <- & Hp).
      destruct (PyStr.mem _ _) eqn:Hm; [| reflexivity].
      apply mem_lower_session in Hm. rewrite List.Forall_forall in Hnone.
      now apply Hnone in Hp.
Qed.

(** X16, witness of the hypotheses: the eight players of the session. *)
Lemma players_match_full_and_disjoint_witness :
  (Forall (in_session PlanFixtures.session) ["ALICE"; "heidi"] ->
   players_match_active_match ["ALICE"; "heidi"] (Some PlanFixtures.session) = true) /\
  players_match_active_match [] (Some PlanFixtures.session) = true /\
  (["ALICE"; "heidi"] <> [] ->
   Forall (fun p => ~ in_session PlanFixtures.session p) ["ALICE"; "heidi"] ->
   players_match_active_match ["ALICE"; "heidi"] (Some PlanFixtures.session) = false).
Proof.
  apply (players_match_full_and_disjoint ["ALICE"; "heidi"] PlanFixtures.session).
  vm_compute. discriminate.
Defined.

(** X18: [get_base_gametype] is idempotent: a display name that it
    returns is returned unchanged when passed through it again. *)
Theorem get_base_gametype_idempotent (game_type_field : string) :
  get_base_gametype (get_base_gametype game_type_field) = get_base_gametype game_type_field.
Proof.
  unfold get_base_gametype at 2 3.
  destruct (String.eqb game_type_field "") eqn:E0; [reflexivity |].
  cbv zeta. set (gt := PyStr.lower (PyStr.strip game_type_field)).
  cbn [List.find fst snd].
  repeat (match goal with
          | |- context [if String.eqb ?a gt then _ else _] =>
              destruct (String.eqb a gt) eqn:?; [reflexivity |]
          end).
  unfold get_base_gametype. rewrite E0.
  cbv zeta. fold gt. cbn [List.find fst snd].
  repeat (match goal with
          | H : String.eqb ?a gt = false |- context [if String.eqb ?a gt then _ else _] =>
              rewrite H
          end).
  reflexivity.
Qed.

Lemma lower_idem (s : string) : PyStr.lower (PyStr.lower s) = PyStr.lower s.
Proof.
  induction s as [| c s IH]; cbn [PyStr.lower]; [reflexivity |].
  now rewrite lower_ascii_idem, IH.
Qed.

(** X19: [is_valid_mlg_combo] accepts a combination only on the five
    maps of the table; the letter case of the game type does not matter;
    and on each of the five maps the empty game type is accepted, since the
    test is by substring in either direction. *)
Theorem is_valid_mlg_combo_edges (map_name base_gametype : string) :
  (is_valid_mlg_combo map_name base_gametype = true -> In map_name mlg_maps) /\
  is_valid_mlg_combo map_name (PyStr.lower base_gametype) =
    is_valid_mlg_combo map_name base_gametype /\
  (In map_name mlg_maps -> is_valid_mlg_combo map_name "" = true).
Proof.
  split; [| split].
  - unfold is_valid_mlg_combo, assoc. cbn [VALID_MLG_4V4_COMBOS List.find fst].
    unfold mlg_maps. cbn [VALID_MLG_4V4_COMBOS List.map fst In].
    repeat (match goal with
            | |- context [String.eqb ?a map_name] =>
                destruct (String.eqb_spec a map_name); [tauto |]
            end).
    cbn. discriminate.
  - unfold is_valid_mlg_combo. now rewrite lower_idem.
  - unfold mlg_maps. cbn [VALID_MLG_4V4_COMBOS List.map fst In].
    intros [<- | [<- | [<- | [<- | [<- | []]]]]]; vm_compute; reflexivity.
Qed.

(** ** The full run of [main] *)

Lemma mem_snoc (m n : string) (l : list string) :
  PyStr.mem m (l ++ [n]) = PyStr.mem m l || String.eqb m n.
Proof. unfold PyStr.mem. rewrite existsb_app. cbn. now rewrite orb_false_r. Qed.

Lemma mem_false (n : string) (l : list string) : ~ In n l -> PyStr.mem n l = false.
Proof.
  intros H. destruct (PyStr.mem n l) eqn:E; [| reflexivity].
  apply mem_In in E. contradiction.
Qed.

Lemma start_state_resolving (rs : gmap string rs_entry) : resolving (start_state rs).
Proof.
  split; cbn [start_state player_to_id player_game_stats all_player_names tabs In].
  - intros n. rewrite lookup_empty. split; [intros [x Hx]; discriminate | tauto].
  - intros n. rewrite lookup_empty. split; [intros [x Hx]; discriminate | tauto].
  - intros f n. destruct f; cbn; apply lookup_empty.
Qed.

Section FullRun.
Variable resolve : string -> gmap string rs_entry -> option string.
Variable py_hash : string -> Z.
Variable sps : gmap string saved_player.

Lemma resolve_step_names (st : run_state) (n : string) :
  all_player_names (resolve_step resolve py_hash false sps st n) =
    if is_dedicated_server n then all_player_names st
    else if PyStr.mem n (all_player_names st) then all_player_names st
    else (all_player_names st ++ [n])%list.
Proof.
  unfold resolve_step. destruct (is_dedicated_server n); [reflexivity |].
  destruct (player_to_id st !! n); [reflexivity |].
  destruct (match resolve n (rankstats st) with
            | Some uid => if String.eqb uid "" then None else Some uid
            | None => None
            end);
    destruct (player_game_stats st !! n); reflexivity.
Qed.

Lemma resolve_step_resolving (st : run_state) (n : string) :
  resolving st -> resolving (resolve_step resolve py_hash false sps st n).
Proof.
  intros [Hids Hstats Htabs]. unfold resolve_step.
  destruct (is_dedicated_server n) eqn:Hd; [now split |].
  destruct (player_to_id st !! n) as [uid0 |] eqn:Hid.
  - assert (Hin : In n (all_player_names st)) by (apply Hids; eauto).
    apply mem_In in Hin. rewrite Hin. now split.
  - assert (Hnin : ~ In n (all_player_names st)).
    { intros Hin. apply Hids in Hin. rewrite Hid in Hin. destruct Hin; discriminate. }
    assert (Hst : player_game_stats st !! n = None).
    { destruct (player_game_stats st !! n) eqn:E; [| reflexivity].
      exfalso. apply Hnin, Hstats. eauto. }
    rewrite (mem_false _ _ Hnin), Hst.
    assert (Hsnoc : forall m, In m (all_player_names st ++ [n]) <->
                              n = m \/ In m (all_player_names st)).
    { intros m. rewrite in_app_iff. cbn [In]. tauto. }
    assert (Hmem : forall m, PyStr.mem m (all_player_names st ++ [n]) =
                     if decide (n = m) then true else PyStr.mem m (all_player_names st)).
    { intros m. rewrite mem_snoc. destruct (decide (n = m)) as [-> | Hne].
      - rewrite String.eqb_refl. apply orb_true_r.
      - destruct (String.eqb_spec m n); [congruence | apply orb_false_r]. }
    destruct (match resolve n (rankstats st) with
              | Some uid => if String.eqb uid "" then None else Some uid
              | None => None
              end) as [uid |]; cbv beta iota zeta; split;
      cbn [player_to_id all_player_names player_game_stats tabs].
    all: try (intros m; rewrite lookup_insert_is_Some', Hsnoc;
              first [rewrite Hids | rewrite Hstats]; reflexivity).
    all: intros f m; rewrite Hmem; specialize (Htabs f m);
      destruct f; cbn [sel is_rank_field player_playlist_xp player_playlist_wins
        player_playlist_losses player_playlist_games player_playlist_rank
        player_playlist_highest_rank] in *;
      try exact Htabs; rewrite lookup_insert; destruct (decide (n = m));
      first [reflexivity | exact Htabs].
Qed.


Lemma resolve_names_resolving (l : list string) (st : run_state) :
  resolving st -> resolving (fold_left (resolve_step resolve py_hash false sps) l st).
Proof.
  revert st. induction l as [| n l IH]; intros st H; cbn [fold_left]; [exact H |].
  apply IH. now apply resolve_step_resolving.
Qed.

Lemma resolve_all_resolving (all_games : list game) (st : run_state) :
  resolving st -> resolving (resolve_all resolve py_hash false sps all_games st).
Proof.
  unfold resolve_all. revert st.
  induction all_games as [| g gs IH]; intros st H; cbn [fold_left]; [exact H |].
  apply IH. now apply resolve_names_resolving.
Qed.

Lemma resolve_names_seen (l : list string) (st : run_state) (m : string) :
  In m (all_player_names (fold_left (resolve_step resolve py_hash false sps) l st)) <->
  In m (all_player_names st) \/ (In m l /\ is_dedicated_server m = false).
Proof.
  revert st. induction l as [| n l IH]; intros st; cbn [fold_left In]; [tauto |].
  rewrite IH, resolve_step_names.
  destruct (is_dedicated_server n) eqn:Hd.
  - split; [tauto |]. intros [H | [[-> | H] Hm]]; [tauto | congruence | tauto].
  - destruct (PyStr.mem n (all_player_names st)) eqn:Hm.
    + apply mem_In in Hm. split; [tauto |].
      intros [H | [[<- | H] Hd']]; tauto.
    + rewrite in_app_iff. cbn [In]. split.
      * intros [[H | [<- | []]] | H]; tauto.
      * intros [H | [[<- | H] Hd']]; tauto.
Qed.

Lemma resolve_all_seen (all_games : list game) (st : run_state) (m : string) :
  In m (all_player_names (resolve_all resolve py_hash false sps all_games st)) <->
  In m (all_player_names st) \/ seen_in all_games m.
Proof.
  unfold resolve_all, seen_in. revert st.
  induction all_games as [| g gs IH]; intros st; cbn [fold_left].
  - split; [tauto |]. intros [H | [_ (g & [] & _)]]. exact H.
  - rewrite IH, resolve_names_seen. unfold roster_names. split.
    + intros [[H | [H1 H2]] | [H1 (g' & Hg & Hn)]]; [tauto | |].
      * right. split; [exact H2 |]. exists g. split; [now left | exact H1].
      * right. split; [exact H1 |]. exists g'. split; [now right | exact Hn].
    + intros [H | [H1 (g' & [<- | Hg] & Hn)]]; [tauto | tauto |].
      right. split; [exact H1 |]. now exists g'.
Qed.

(** The step of the second loop of step 3 in a full run. *)
Lemma init_ranks_fold (l : list string) (st : run_state) :
  let st' := fold_left
    (fun st n =>
       let T := tabs st in
       with_tabs
         {| player_playlist_xp := player_playlist_xp T;
            player_playlist_wins := player_playlist_wins T;
            player_playlist_losses := player_playlist_losses T;
            player_playlist_games := player_playlist_games T;
            player_playlist_rank :=
              <[n := pl_rank <$> (∅ : gmap string pl_state)]> (player_playlist_rank T);
            player_playlist_highest_rank :=
              <[n := pl_highest_rank <$> (∅ : gmap string pl_state)]>
                (player_playlist_highest_rank T) |} st) l st in
  rankstats st' = rankstats st /\ player_to_id st' = player_to_id st /\
  all_player_names st' = all_player_names st /\
  player_game_stats st' = player_game_stats st /\
  forall f n, sel f (tabs st') !! n =
    if is_rank_field f && PyStr.mem n l then Some ∅ else sel f (tabs st) !! n.
Proof.
  cbv zeta. revert st. induction l as [| a l IH]; intros st; cbn [fold_left].
  - repeat split. intros f n. unfold PyStr.mem. cbn [existsb]. now rewrite andb_false_r.
  - destruct (IH (with_tabs
         {| player_playlist_xp := player_playlist_xp (tabs st);
            player_playlist_wins := player_playlist_wins (tabs st);
            player_playlist_losses := player_playlist_losses (tabs st);
            player_playlist_games := player_playlist_games (tabs st);
            player_playlist_rank :=
              <[a := pl_rank <$> (∅ : gmap string pl_state)]> (player_playlist_rank (tabs st));
            player_playlist_highest_rank :=
              <[a := pl_highest_rank <$> (∅ : gmap string pl_state)]>
                (player_playlist_highest_rank (tabs st)) |} st))
      as (H1 & H2 & H3 & H4 & H5).
    rewrite H1, H2, H3, H4. repeat split. intros f n. rewrite H5, mem_cons.
    unfold with_tabs. cbn [tabs]. rewrite !fmap_empty.
    destruct f; cbn [is_rank_field andb sel player_playlist_xp player_playlist_wins
        player_playlist_losses player_playlist_games player_playlist_rank
        player_playlist_highest_rank]; try reflexivity.
    all: destruct (PyStr.mem n l); [now rewrite orb_true_r |];
      rewrite orb_false_r, lookup_insert;
      destruct (String.eqb_spec n a) as [-> | Hne];
      [now rewrite decide_True | now rewrite decide_False by congruence].
Qed.

Lemma init_ranks_full (st : run_state) :
  resolving st ->
  let st' := init_ranks false sps st in
  rankstats st' = rankstats st /\ player_to_id st' = player_to_id st /\
  all_player_names st' = all_player_names st /\
  player_game_stats st' = player_game_stats st /\
  tabs st' = clean_tables (all_player_names st).
Proof.
  intros [_ _ Htabs]. cbv zeta.
  destruct (init_ranks_fold (all_player_names st) st) as (H1 & H2 & H3 & H4 & H5).
  change (fold_left _ (all_player_names st) st) with (init_ranks false sps st) in *.
  repeat (split; [assumption |]).
  assert (Hall : forall f, sel f (tabs (init_ranks false sps st)) =
            gset_to_gmap (∅ : gmap string Z) (list_to_set (all_player_names st) : gset string)).
  { intros f. apply map_eq. intros n. rewrite H5, Htabs, lookup_gset_to_gmap.
    destruct (PyStr.mem n (all_player_names st)) eqn:Hm.
    - rewrite option_guard_True
        by (apply elem_of_list_to_set, list_elem_of_In; now apply mem_In).
      destruct (is_rank_field f); reflexivity.
    - rewrite option_guard_False.
      + destruct (is_rank_field f); reflexivity.
      + rewrite elem_of_list_to_set, list_elem_of_In, <- mem_In. congruence. }
  destruct (tabs (init_ranks false sps st)) as [d1 d2 d3 d4 d5 d6].
  pose proof (Hall Fxp) as E1. pose proof (Hall Fwins) as E2.
  pose proof (Hall Flosses) as E3. pose proof (Hall Fgames) as E4.
  pose proof (Hall Frank) as E5. pose proof (Hall Fhighest) as E6.
  cbn [sel player_playlist_xp player_playlist_wins
        player_playlist_losses player_playlist_games player_playlist_rank
        player_playlist_highest_rank] in *.
  subst. reflexivity.
Qed.

(** X20: the ledger of a full run starts from a clean slate over
    exactly the names seen: after the names of all games are resolved and the rank
    dictionaries are created, the six dictionaries are the clean tables
    over the tracked names, and a name is tracked exactly when it is on the
    roster of some game and is not a dedicated-server name. *)
Theorem full_run_starts_clean (rs : gmap string rs_entry) (all_games : list game) :
  let st := init_ranks false sps
              (resolve_all resolve py_hash false sps all_games (start_state rs)) in
  tabs st = clean_tables (all_player_names st) /\
  forall n, In n (all_player_names st) <-> seen_in all_games n.
Proof.
  cbv zeta.
  pose proof (resolve_all_resolving all_games _ (start_state_resolving rs)) as Hr.
  destruct (init_ranks_full _ Hr) as (_ & _ & Hn & _ & Ht).
  rewrite Hn. split; [exact Ht |].
  intros n. rewrite resolve_all_seen. cbn [start_state all_player_names In]. tauto.
Qed.

End FullRun.

Lemma foldM_total {S A} (f : S -> A -> result S) (xs : list A) (s : S) :
  (forall s x, In x xs -> exists s', f s x = Ok s') ->
  exists s', foldM f xs s = Ok s'.
Proof.
  revert s. induction xs as [| x xs IH]; intros s H; cbn [foldM]; [now exists s |].
  destruct (H s x) as [s1 E]; [now left |]. rewrite E, bind_Ok.
  apply IH. intros s0 y Hy. apply H. now right.
Qed.

Lemma getitem_ok {V} (d : gmap string V) (k : string) :
  is_Some (d !! k) -> exists v, getitem d k = Ok v.
Proof. intros [v Hv]. exists v. unfold getitem. now rewrite Hv. Qed.

Lemma succeeds_bind {A B} (m : result A) (k : A -> result B) (Q : B -> Prop) :
  (exists a, m = Ok a) -> (forall a, succeeds (k a) Q) -> succeeds (m ≫= k) Q.
Proof. intros [a ->] H. apply H. Qed.

Lemma foldM_getitem_total {S V} (d : gmap string V) (f : S -> string -> result S)
    (xs : list string) (s : S) :
  (forall x, In x xs -> is_Some (d !! x)) ->
  (forall s x v, d !! x = Some v -> exists s', f s x = Ok s') ->
  exists s', foldM f xs s = Ok s'.
Proof.
  intros Hd Hf. apply foldM_total. intros s0 x Hx.
  destruct (Hd x Hx) as [v Hv]. exact (Hf s0 x v Hv).
Qed.

Ltac by_getitem :=
  let s := fresh "s" in let x := fresh "x" in let v := fresh "v" in
  let Hv := fresh "Hv" in
  intros s x v Hv; unfold getitem; rewrite Hv; eexists; reflexivity.

Section Consolidate.
Variable cfg : xp_config.

Lemma succeeds_ex_intro {A} (r : result A) :
  succeeds r (fun _ => True) -> exists a, r = Ok a.
Proof. destruct r; cbn; [eauto | tauto]. Qed.

Lemma consolidate_playlist_total (T : tables) (names : list string) (pl : string) :
  (forall n, In n names -> forall f, is_Some (sel f T !! n)) ->
  exists d, consolidate_playlist cfg T names pl = Ok d.
Proof.
  intros H. apply succeeds_ex_intro. unfold consolidate_playlist, fold_names.
  apply succeeds_bind;
    [apply (foldM_getitem_total (sel Fxp T)); [intros; now apply H | by_getitem] | intros ?].
  apply succeeds_bind;
    [apply (foldM_getitem_total (sel Fhighest T)); [intros; now apply H | by_getitem]
    | intros ?].
  apply succeeds_bind;
    [apply (foldM_getitem_total (sel Fwins T)); [intros; now apply H | by_getitem] | intros ?].
  apply succeeds_bind;
    [apply (foldM_getitem_total (sel Flosses T)); [intros; now apply H | by_getitem]
    | intros ?].
  apply succeeds_bind;
    [apply (foldM_getitem_total (sel Fgames T)); [intros; now apply H | by_getitem]
    | intros ?].
  exact I.
Qed.


Lemma consolidate_user_total (st : run_state) (uid : string) (ns : list string) :
  is_Some (rankstats st !! uid) -> (forall n, In n ns -> tracked st n) ->
  exists st', consolidate_user cfg st (uid, ns) = Ok st' /\ rankstats_updated st st'.
Proof.
  intros Hu Htr. apply succeeds_ex. unfold consolidate_user.
  apply succeeds_bind;
    [apply (foldM_getitem_total (player_game_stats st));
       [intros x Hx; apply (Htr x Hx) | by_getitem] | intros ?].
  apply succeeds_bind; [now apply getitem_ok | intros e].
  apply succeeds_bind;
    [apply (foldM_getitem_total (player_playlist_wins (tabs st)));
       [intros x Hx; apply (proj2 (Htr x Hx) Fwins) | by_getitem] | intros ?].
  apply succeeds_bind;
    [apply (foldM_getitem_total (player_playlist_losses (tabs st)));
       [intros x Hx; apply (proj2 (Htr x Hx) Flosses) | by_getitem] | intros ?].
  apply succeeds_bind;
    [apply (foldM_getitem_total (player_playlist_xp (tabs st)));
       [intros x Hx; apply (proj2 (Htr x Hx) Fxp) | by_getitem] | intros ?].
  apply succeeds_bind.
  { apply foldM_total. intros acc pl _.
    destruct (consolidate_playlist_total (tabs st) ns pl) as [d Ed];
      [intros n Hn; apply (Htr n Hn) | rewrite Ed, bind_Ok; eexists; reflexivity]. }
  intros playlists_data. cbn [succeeds mret result_ret].
  repeat split. cbn [rankstats]. intros u Hu'. apply lookup_insert_is_Some'. now right.
Qed.

Lemma tracked_updated (st st' : run_state) (n : string) :
  rankstats_updated st st' -> tracked st n -> tracked st' n.
Proof. intros (_ & _ & Hs & Ht & _). unfold tracked. now rewrite Hs, Ht. Qed.

Lemma consolidate_users_total (groups : list (string * list string)) (st : run_state) :
  (forall uid ns, In (uid, ns) groups ->
     is_Some (rankstats st !! uid) /\ forall n, In n ns -> tracked st n) ->
  exists st', foldM (consolidate_user cfg) groups st = Ok st' /\ rankstats_updated st st'.
Proof.
  revert st. induction groups as [| [uid ns] groups IH]; intros st H; cbn [foldM].
  - exists st. split; [reflexivity |]. now repeat split.
  - destruct (H uid ns) as [Hu Hn]; [now left |].
    destruct (consolidate_user_total st uid ns Hu Hn) as (st1 & E1 & Hup1).
    rewrite E1, bind_Ok.
    destruct (IH st1) as (st' & E' & Hup').
    + intros uid' ns' Hin. destruct (H uid' ns') as [Hu' Hn']; [now right |].
      destruct Hup1 as (_ & _ & _ & _ & Hrs). split; [now apply Hrs |].
      intros n Hin'. apply (tracked_updated st st1); [| now apply Hn'].
      destruct (consolidate_user_total st uid ns Hu Hn) as (st1' & E1' & Hup1').
      rewrite E1 in E1'. now injection E1' as <-.
    + exists st'. split; [exact E' |].
      destruct Hup1 as (A1 & A2 & A3 & A4 & A5), Hup' as (B1 & B2 & B3 & B4 & B5).
      repeat split; try congruence. intros u Hu0. now apply B5, A5.
Qed.

Lemma group_add_ok (P : string -> Prop) (Q : string -> Prop) (uid n : string)
    (l : list (string * list string)) :
  (forall u ns, In (u, ns) l -> P u /\ forall m, In m ns -> Q m) ->
  P uid -> Q n ->
  forall u ns, In (u, ns) (group_add uid n l) -> P u /\ forall m, In m ns -> Q m.
Proof.
  intros Hl Hu Hn. induction l as [| [u0 ns0] l IH]; cbn [group_add].
  - intros u ns [[= <- <-] | []]. split; [exact Hu |]. intros m [<- | []]. exact Hn.
  - destruct (String.eqb_spec u0 uid) as [-> | Hne].
    + intros u ns [[= <- <-] | Hin].
      * split; [exact Hu |]. intros m Hm. apply in_app_iff in Hm as [Hm | [<- | []]];
          [| exact Hn]. destruct (Hl uid ns0) as [_ H]; [now left | now apply H].
      * apply Hl. now right.
    + intros u ns [[= <- <-] | Hin].
      * apply Hl. now left.
      * apply IH; [| exact Hin]. intros u' ns' Hin'. apply Hl. now right.
Qed.

Lemma user_id_to_names_total (st : run_state) :
  (forall n, In n (all_player_names st) ->
     exists uid, player_to_id st !! n = Some uid /\ is_Some (rankstats st !! uid)) ->
  exists groups,
    user_id_to_names st = Ok groups /\
    forall uid ns, In (uid, ns) groups ->
      is_Some (rankstats st !! uid) /\ forall n, In n ns -> In n (all_player_names st).
Proof.
  intros H. unfold user_id_to_names.
  assert (Hgen : forall l acc,
            (forall n, In n l -> In n (all_player_names st)) ->
            (forall uid ns, In (uid, ns) acc ->
               is_Some (rankstats st !! uid) /\ forall n, In n ns -> In n (all_player_names st)) ->
            exists groups,
              foldM (fun acc n => uid ← getitem (player_to_id st) n; mret (group_add uid n acc))
                    l acc = Ok groups /\
              forall uid ns, In (uid, ns) groups ->
                is_Some (rankstats st !! uid) /\
                forall n, In n ns -> In n (all_player_names st)).
  { induction l as [| a l IH]; intros acc Hl Hacc; cbn [foldM].
    - now exists acc.
    - destruct (H a) as (uid & Hid & Hrs); [apply Hl; now left |].
      destruct (getitem_ok (player_to_id st) a) as [uid' Eu]; [rewrite Hid; eauto |].
      assert (uid' = uid) as ->.
      { unfold getitem in Eu. rewrite Hid in Eu. now injection Eu. }
      rewrite Eu, bind_Ok. apply IH.
      + intros n Hn. apply Hl. now right.
      + apply (group_add_ok (fun u => is_Some (rankstats st !! u))
                 (fun m => In m (all_player_names st))); [exact Hacc | exact Hrs |].
        apply Hl. now left. }
  apply Hgen; [auto |]. intros uid ns [].
Qed.

(** Step 4 returns when every tracked name has an identity that is a key
    of [rankstats]. *)
Lemma consolidate_total (st : run_state) :
  (forall n, In n (all_player_names st) ->
     tracked st n /\
     exists uid, player_to_id st !! n = Some uid /\ is_Some (rankstats st !! uid)) ->
  exists st', consolidate cfg st = Ok st' /\ rankstats_updated st st'.
Proof.
  intros H. unfold consolidate.
  destruct (user_id_to_names_total st) as (groups & E & Hg).
  { intros n Hn. now apply H. }
  rewrite E, bind_Ok. apply consolidate_users_total.
  intros uid ns Hin. destruct (Hg uid ns Hin) as [Hu Hn]. split; [exact Hu |].
  intros n Hn'. now apply H, Hn.
Qed.

End Consolidate.

Section FullRunMain.
Variable cfg : xp_config.
Variable resolve : string -> gmap string rs_entry -> option string.
Variable py_hash : string -> Z.
Variable active_match : option active_match_t.
Variable manual_playlists : gmap string string.
Variable rs0 : gmap string rs_entry.
Hypothesis resolve_known : forall n rs uid,
  resolve n rs = Some uid -> uid <> "" -> is_Some (rs0 !! uid).

Lemma resolve_step_known (sps : gmap string saved_player) (st : run_state) (n : string) :
  ids_known rs0 st -> ids_known rs0 (resolve_step resolve py_hash false sps st n).
Proof.
  intros [Hids Hgrow]. unfold resolve_step.
  destruct (is_dedicated_server n); [now split |].
  destruct (player_to_id st !! n) as [uid0 |] eqn:Hid; [now split |].
  destruct (resolve n (rankstats st)) as [uid |] eqn:Hr.
  - destruct (String.eqb_spec uid "") as [-> | Hne].
    + destruct (player_game_stats st !! n); cbv beta iota zeta; split;
        cbn [player_to_id rankstats]; intros *;
        rewrite ?lookup_insert_Some, lookup_insert_is_Some'; intuition (subst; eauto).
    + destruct (player_game_stats st !! n); cbv beta iota zeta; split;
        cbn [player_to_id rankstats]; intros *;
        rewrite ?lookup_insert_Some; intuition (subst; eauto).
  - destruct (player_game_stats st !! n); cbv beta iota zeta; split;
      cbn [player_to_id rankstats]; intros *;
      rewrite ?lookup_insert_Some, lookup_insert_is_Some'; intuition (subst; eauto).
Qed.

Lemma resolve_all_known (sps : gmap string saved_player) (all_games : list game)
    (st : run_state) :
  ids_known rs0 st -> ids_known rs0 (resolve_all resolve py_hash false sps all_games st).
Proof.
  unfold resolve_all. revert st.
  induction all_games as [| g gs IH]; intros st H; cbn [fold_left]; [exact H |].
  apply IH. generalize (List.map name (players g)). intros l. revert st H.
  induction l as [| n l IHl]; intros st H; cbn [fold_left]; [exact H |].
  apply IHl. now apply resolve_step_known.
Qed.


Lemma stats_player_dom (stats : gmap string game_stats) (p : player) (n : string) :
  is_Some (stats_player stats p !! n) <-> is_Some (stats !! n).
Proof.
  unfold stats_player. destruct (is_dedicated_server (name p)); [reflexivity |].
  destruct (stats !! name p) as [s |] eqn:E; [| reflexivity].
  rewrite lookup_insert_is_Some'. split; [| tauto].
  intros [<- | H]; [rewrite E; eauto | exact H].
Qed.

Lemma stats_games_dom (gs : list game) (stats : gmap string game_stats) (n : string) :
  is_Some (stats_games gs stats !! n) <-> is_Some (stats !! n).
Proof.
  unfold stats_games. revert stats.
  induction gs as [| g gs IH]; intros stats; cbn [fold_left]; [reflexivity |].
  rewrite IH. generalize (players g). intros ps. revert stats.
  induction ps as [| p ps IHp]; intros stats; cbn [fold_left]; [reflexivity |].
  now rewrite IHp, stats_player_dom.
Qed.

Lemma start_state_known : ids_known rs0 (start_state (zero_entry <$> rs0)).
Proof.
  split; cbn [start_state player_to_id rankstats].
  - intros n uid H. rewrite lookup_empty in H. discriminate.
  - intros uid [e He]. rewrite lookup_fmap, He. cbn. eauto.
Qed.

(** X21: when every identity that the resolver can return is a key of
    [rankstats.json], a run in mode FULL never raises: it returns an output,
    and the identity map of the output has a key for exactly the names that
    are on the roster of some stats file and are not dedicated-server
    names. *)
Theorem full_run_returns (files : list (game_file * game)) (state : processed_state) :
  plan_mode (plan (List.map (fun f => basename (fst f)) files) manual_playlists state) = FULL ->
  exists out,
    main cfg resolve py_hash active_match manual_playlists rs0 files state = Ok (Some out) /\
    forall n, is_Some (out_player_to_id out !! n) <->
              seen_in (List.map snd files) n.
Proof.
  intros Hmode. unfold main. cbv zeta. rewrite Hmode.
  change (bool_decide (FULL = INCREMENTAL)) with false. cbv beta iota.
  set (p := plan (List.map (fun f => basename (fst f)) files) manual_playlists state).
  set (all_games := List.map (load_game active_match manual_playlists) files).
  change {| rankstats := zero_entry <$> rs0; player_to_id := ∅; all_player_names := [];
            player_game_stats := ∅; tabs := empty_tables |}
    with (start_state (zero_entry <$> rs0)).
  set (st1 := resolve_all resolve py_hash false (initialState p) all_games
                (start_state (zero_entry <$> rs0))).
  pose proof (resolve_all_resolving resolve py_hash (initialState p) all_games _
                (start_state_resolving (zero_entry <$> rs0))) as Hr1.
  pose proof (resolve_all_known (initialState p) all_games _ start_state_known) as Hk1.
  fold st1 in Hr1, Hk1.
  destruct (init_ranks_full (initialState p) st1 Hr1) as (E1 & E2 & E3 & E4 & E5).
  set (st2 := init_ranks false (initialState p) st1) in *.
  unfold mret at 1, result_ret at 1. rewrite bind_Ok.
  cbn [rankstats player_to_id all_player_names player_game_stats tabs].
  destruct (ledger_replay_preserves cfg (same_names (tabs st2)))
    with (gs := ranked_games_of all_games) (T := tabs st2) as (T & ET & HwfT & HnT).
  { intros o n pl T1 T2 _ H12 _ (_ & _ & Hsel) f m. now rewrite (Hsel f m), (H12 f m). }
  { rewrite E5. exact (inv_wf _ (clean_tables_inv _)). }
  { intros f m. reflexivity. }
  rewrite ET, bind_Ok. unfold with_tabs. cbn [rankstats player_to_id all_player_names
    player_game_stats tabs].
  destruct (consolidate_total cfg
              {| rankstats := rankstats st2; player_to_id := player_to_id st2;
                 all_player_names := all_player_names st2;
                 player_game_stats := stats_games all_games (player_game_stats st2);
                 tabs := T |}) as (st' & Ec & Hup).
  { cbn [rankstats player_to_id all_player_names player_game_stats tabs].
    rewrite E1, E2, E3, E4. intros n Hn. split; [split |].
    - apply stats_games_dom. now apply (rv_stats _ Hr1).
    - intros f. apply HnT. rewrite E5. now apply clean_tables_sel.
    - apply (rv_ids _ Hr1) in Hn as [uid Hid]. exists uid. split; [exact Hid |].
      exact (ik_ids _ _ Hk1 n uid Hid). }
  rewrite Ec, bind_Ok. eexists. split; [reflexivity |].
  cbn [out_player_to_id]. destruct Hup as (Hid' & _). rewrite Hid'.
  cbn [player_to_id]. rewrite E2. intros n. rewrite (rv_ids _ Hr1).
  unfold st1. rewrite resolve_all_seen. cbn [start_state all_player_names In].
  unfold seen_in, all_games.
  split.
  - intros [[] | [Hd (g & Hg & Hn)]]. split; [exact Hd |].
    apply in_map_iff in Hg as (f & <- & Hf). exists (snd f). split; [now apply in_map |].
    exact Hn.
  - intros [Hd (g & Hg & Hn)]. right. split; [exact Hd |].
    apply in_map_iff in Hg as (f & <- & Hf).
    exists (load_game active_match manual_playlists f). split; [now apply in_map | exact Hn].
Qed.

End FullRunMain.

(** X21, witness of the hypotheses: two stats files processed from an
    empty checkpoint, with a resolver that knows Alice and Bob. *)
Lemma full_run_returns_witness :
  exists out,
    MainFixtures.run MainFixtures.hash_a [MainFixtures.file1; MainFixtures.file2]
      empty_processed_state = Ok (Some out) /\
    forall n, is_Some (out_player_to_id out !! n) <->
              seen_in (List.map snd [MainFixtures.file1; MainFixtures.file2]) n.
Proof.
  apply (full_run_returns MainFixtures.cfg MainFixtures.resolve MainFixtures.hash_a None
           MainFixtures.manual MainFixtures.rankstats0).
  - intros n rs uid H _. unfold MainFixtures.resolve in H.
    destruct (String.eqb _ "alice"); [injection H as <-; vm_compute; eauto |].
    destruct (String.eqb _ "bob"); [injection H as <-; vm_compute; eauto | discriminate].
  - vm_compute. reflexivity.
Defined.

(** ** The incremental run of [main] *)

Lemma foldM_inv {S A} (I : S -> Prop) (f : S -> A -> result S) (xs : list A) (s s' : S) :
  (forall s x s', I s -> f s x = Ok s' -> I s') ->
  I s -> foldM f xs s = Ok s' -> I s'.
Proof.
  intros Hf. revert s. induction xs as [| x xs IH]; intros s Hs; cbn [foldM].
  - intros [= <-]. exact Hs.
  - destruct (f s x) as [s1 | k] eqn:E; [| discriminate].
    rewrite bind_Ok. apply IH. exact (Hf s x s1 Hs E).
Qed.

Lemma foldM_raises {S A} (I : S -> Prop) (f : S -> A -> result S) (xs : list A)
    (x : A) (s : S) :
  In x xs -> I s ->
  (forall s y s', I s -> f s y = Ok s' -> I s') ->
  (forall s, I s -> exists k, f s x = KeyError k) ->
  exists k, foldM f xs s = KeyError k.
Proof.
  intros Hin Hs Hf Hx. revert s Hs.
  induction xs as [| a xs IH]; intros s Hs; [destruct Hin |]. cbn [foldM].
  destruct (f s a) as [s1 | k] eqn:E; [| exists k; reflexivity].
  rewrite bind_Ok. destruct Hin as [-> | Hin].
  - destruct (Hx s Hs) as [k Hk]. congruence.
  - apply IH; [exact Hin |]. exact (Hf s a s1 Hs E).
Qed.

Lemma set2_xp_none (f : field) (n pl : string) (v : Z) (T T' : tables) (m : string) :
  set2 f n pl v T = Ok T' ->
  player_playlist_xp T !! m = None -> player_playlist_xp T' !! m = None.
Proof.
  unfold set2, getitem. destruct (sel f T !! n) as [d |] eqn:E; [| discriminate].
  rewrite bind_Ok. intros [= <-] Hm.
  destruct f; cbn [with_field player_playlist_xp sel] in *; try exact Hm.
  rewrite lookup_insert_ne; [exact Hm |]. intros ->. congruence.
Qed.

Lemma restore_playlist_xp_none (n : string) (T T' : tables) (kv : string * pl_state)
    (m : string) :
  restore_playlist n T kv = Ok T' ->
  player_playlist_xp T !! m = None -> player_playlist_xp T' !! m = None.
Proof.
  destruct kv as [pl s]. unfold restore_playlist.
  destruct (set2 Fxp n pl (pl_xp s) T) as [T1 | k] eqn:E1; [| discriminate].
  rewrite bind_Ok.
  destruct (set2 Frank n pl (pl_rank s) T1) as [T2 | k] eqn:E2; [| discriminate].
  rewrite bind_Ok.
  destruct (set2 Fhighest n pl (pl_highest_rank s) T2) as [T3 | k] eqn:E3; [| discriminate].
  rewrite bind_Ok.
  destruct (set2 Fwins n pl (pl_wins s) T3) as [T4 | k] eqn:E4; [| discriminate].
  rewrite bind_Ok.
  destruct (set2 Flosses n pl (pl_losses s) T4) as [T5 | k] eqn:E5; [| discriminate].
  rewrite bind_Ok. intros E6 Hm.
  eapply set2_xp_none; [exact E6 |]. eapply set2_xp_none; [exact E5 |].
  eapply set2_xp_none; [exact E4 |]. eapply set2_xp_none; [exact E3 |].
  eapply set2_xp_none; [exact E2 |]. eapply set2_xp_none; [exact E1 |]. exact Hm.
Qed.

Lemma restore_playlist_raises (n : string) (T : tables) (kv : string * pl_state) :
  player_playlist_xp T !! n = None -> restore_playlist n T kv = KeyError n.
Proof.
  intros H. destruct kv as [pl s].
  assert (E : set2 Fxp n pl (pl_xp s) T = KeyError n).
  { unfold set2, getitem. cbn [sel]. now rewrite H. }
  unfold restore_playlist. now rewrite E.
Qed.

Section IncrementalRun.
Variable cfg : xp_config.
Variable resolve : string -> gmap string rs_entry -> option string.
Variable py_hash : string -> Z.
Variable active_match : option active_match_t.
Variable manual_playlists : gmap string string.
Variable ids0 : gmap string string.

Lemma restore_name_untracked (uid : string) (s : saved_player) (st st' : run_state)
    (kv : string * string) :
  restored_untracked ids0 st -> restore_name uid s st kv = Ok st' ->
  restored_untracked ids0 st'.
Proof.
  intros [Hx Hid]. destruct kv as [n pid]. unfold restore_name.
  destruct (String.eqb pid uid); [| intros [= <-]; now split].
  destruct (foldM (restore_playlist n) (map_to_list (sp_playlists s)) (tabs st))
    as [T | k] eqn:E; [| discriminate].
  rewrite bind_Ok. intros [= <-]. split; cbn [tabs player_to_id]; [| exact Hid].
  intros m Hm.
  apply (foldM_inv (fun T => player_playlist_xp T !! m = None) _ _ _ _
           (fun T0 kv0 T1 H0 E0 => restore_playlist_xp_none n T0 T1 kv0 m E0 H0)
           (Hx m Hm) E).
Qed.

Lemma restore_name_raises (uid : string) (s : saved_player) (st : run_state) (n : string) :
  sp_playlists s <> ∅ -> is_Some (ids0 !! n) -> restored_untracked ids0 st ->
  exists k, restore_name uid s st (n, uid) = KeyError k.
Proof.
  intros Hne Hn [Hx _]. unfold restore_name. rewrite String.eqb_refl.
  destruct (map_to_list (sp_playlists s)) as [| kv l] eqn:E.
  - apply map_to_list_empty_iff in E. contradiction.
  - cbn [foldM]. rewrite (restore_playlist_raises n (tabs st) kv (Hx n Hn)).
    exists n. reflexivity.
Qed.

Lemma restore_saved_raises (sps : gmap string saved_player) (st : run_state)
    (n uid : string) (s : saved_player) :
  ids0 !! n = Some uid -> sps !! uid = Some s -> sp_playlists s <> ∅ ->
  restored_untracked ids0 st ->
  exists k, restore_saved sps st = KeyError k.
Proof.
  intros Hn Hs Hne Hst. unfold restore_saved.
  apply (foldM_raises (restored_untracked ids0) _ _ (uid, s)).
  - apply list_elem_of_In, elem_of_map_to_list. exact Hs.
  - exact Hst.
  - intros st1 us st2 H1 E. cbv beta in E.
    exact (foldM_inv (restored_untracked ids0) _ _ _ _
             (fun a kv b Ha Eab => restore_name_untracked (fst us) (snd us) a b kv Ha Eab)
             H1 E).
  - intros st1 H1. cbn [fst snd].
    apply (foldM_raises (restored_untracked ids0) _ _ (n, uid)).
    + apply list_elem_of_In, elem_of_map_to_list. now apply (proj2 H1).
    + exact H1.
    + intros a kv b Ha Eab. exact (restore_name_untracked uid s a b kv Ha Eab).
    + intros a Ha. apply restore_name_raises; [exact Hne | eauto | exact Ha].
Qed.

Lemma resolve_step_untracked (sps : gmap string saved_player) (st : run_state)
    (n : string) :
  restored_untracked ids0 st ->
  restored_untracked ids0 (resolve_step resolve py_hash true sps st n).
Proof.
  intros [Hx Hid]. unfold resolve_step.
  destruct (is_dedicated_server n); [now split |].
  destruct (player_to_id st !! n) as [uid0 |] eqn:En; [now split |].
  assert (Hnew : forall m, is_Some (ids0 !! m) -> n <> m).
  { intros m [u Hu] ->. rewrite (Hid m u Hu) in En. discriminate. }
  destruct (match resolve n (rankstats st) with
            | Some uid => if String.eqb uid "" then None else Some uid
            | None => None
            end) as [uid |]; cbv beta iota zeta;
    destruct (player_game_stats st !! n); try (destruct (mbind _ _));
    split; cbn [tabs player_to_id player_playlist_xp]; intros *; intros H;
    rewrite ?lookup_insert_ne by (apply Hnew; eauto); auto.
Qed.

Lemma resolve_all_untracked (sps : gmap string saved_player) (all_games : list game)
    (st : run_state) :
  restored_untracked ids0 st ->
  restored_untracked ids0 (resolve_all resolve py_hash true sps all_games st).
Proof.
  unfold resolve_all. revert st.
  induction all_games as [| g gs IH]; intros st H; cbn [fold_left]; [exact H |].
  apply IH. generalize (List.map name (players g)). intros l. revert st H.
  induction l as [| n l IHl]; intros st H; cbn [fold_left]; [exact H |].
  apply IHl. now apply resolve_step_untracked.
Qed.

Lemma init_ranks_untracked (b : bool) (sps : gmap string saved_player) (st : run_state) :
  restored_untracked ids0 st -> restored_untracked ids0 (init_ranks b sps st).
Proof.
  unfold init_ranks. generalize (all_player_names st). intros l. revert st.
  induction l as [| n l IH]; intros st H; cbn [fold_left]; [exact H |].
  apply IH. destruct H as [Hx Hid]. split; [exact Hx | exact Hid].
Qed.

End IncrementalRun.

Lemma plan_incremental_state (stats_files : list string)
    (manual_playlists : gmap string string) (state : processed_state) :
  plan_mode (plan stats_files manual_playlists state) = INCREMENTAL ->
  initialState (plan stats_files manual_playlists state) = player_state state.
Proof.
  unfold plan.
  destruct (check_for_changes stats_files manual_playlists state) as [[b nf] ch].
  destruct (_ && _); [discriminate |].
  destruct b; [discriminate |]. cbn [negb andb].
  destruct (bool_decide (0 < length nf)%nat); cbn [andb]; [| discriminate].
  destruct (bool_decide _); [reflexivity | discriminate].
Qed.

(** X22: every run in mode INCREMENTAL on a checkpoint with ranked
    history (some name of the checkpoint's name table is mapped to a saved
    user with at least one playlist) raises [KeyError] and returns no
    output: the names restored from the checkpoint are skipped by the
    resolution loop, so the restore loop writes into a dictionary that has
    no entry for them. *)
Theorem incremental_run_with_history_raises (cfg : xp_config)
    (resolve : string -> gmap string rs_entry -> option string) (py_hash : string -> Z)
    (active_match : option active_match_t) (manual_playlists : gmap string string)
    (rankstats0 : gmap string rs_entry) (files : list (game_file * game))
    (state : processed_state) :
  plan_mode (plan (List.map (fun f => basename (fst f)) files) manual_playlists state)
    = INCREMENTAL ->
  has_ranked_history state ->
  exists k,
    main cfg resolve py_hash active_match manual_playlists rankstats0 files state
      = KeyError k.
Proof.
  intros Hmode (n & uid & s & Hn & Hs & Hne).
  pose proof (plan_incremental_state _ _ _ Hmode) as Hinit.
  unfold main. cbv zeta. rewrite Hmode, Hinit.
  change (bool_decide (INCREMENTAL = INCREMENTAL)) with true. cbv beta iota.
  match goal with
  | |- exists k, mbind _ (restore_saved ?sps ?st) = _ =>
      destruct (restore_saved_raises (player_name_to_id state) sps st n uid s Hn Hs Hne)
        as [k Hk]
  end.
  - apply init_ranks_untracked, resolve_all_untracked. split.
    + intros m _. apply lookup_empty.
    + intros m u Hm. exact Hm.
  - exists k. rewrite Hk. reflexivity.
Qed.

(** X22, witness of the hypotheses: the checkpoint written after the
    first stats file, and a second file. *)
Lemma incremental_run_with_history_raises_witness :
  exists k,
    MainFixtures.run MainFixtures.hash_a [MainFixtures.file1; MainFixtures.file2]
      MainFixtures.checkpoint1 = KeyError k.
Proof.
  apply (incremental_run_with_history_raises MainFixtures.cfg MainFixtures.resolve
           MainFixtures.hash_a None MainFixtures.manual MainFixtures.rankstats0
           [MainFixtures.file1; MainFixtures.file2] MainFixtures.checkpoint1).
  - vm_compute. reflexivity.
  - eexists "Alice", "111", _. split; [vm_compute; reflexivity |].
    split; [vm_compute; reflexivity |].
    intros H. apply (f_equal (fun m => m !! PLAYLIST_MLG_4V4)) in H.
    vm_compute in H. discriminate.
Defined.

(** ** The playlists of the ledger are independent *)

Section Independent.
Variable cfg : xp_config.

Lemma agree_value_of (pl : string) (Ta Tb : tables) (f : field) (n : string) :
  agree_on pl Ta Tb -> value_of f Ta n pl = value_of f Tb n pl.
Proof. intros H. unfold value_of. now rewrite (ag_val pl Ta Tb H). Qed.

Lemma ledger_player_agree (winners losers : list string) (pl : string) (Ta Tb : tables)
    (n : string) :
  agree_on pl Ta Tb ->
  exists Ta' Tb',
    ledger_player cfg winners losers pl Ta n = Ok Ta' /\
    ledger_player cfg winners losers pl Tb n = Ok Tb' /\
    agree_on pl Ta' Tb'.
Proof.
  intros H. pose proof H as [Hwa Hwb Hn Hv].
  destruct (ledger_player_total cfg winners losers pl Ta n Hwa) as (Ta' & Ea & Ha).
  destruct (ledger_player_total cfg winners losers pl Tb n Hwb) as (Tb' & Eb & Hb).
  exists Ta', Tb'. split; [exact Ea |]. split; [exact Eb |].
  destruct Ha as [[Hpa ->] | [Hpa Hta]], Hb as [[Hpb ->] | [Hpb Htb]];
    try exact H; try (rewrite (Hn n) in Hpa; congruence).
  pose proof Hpa as Hpa'. apply participates_true in Hpa' as [_ Hna].
  pose proof Hpb as Hpb'. apply participates_true in Hpb' as [_ Hnb].
  split.
  - exact (transition_well_formed cfg _ _ _ _ _ Hwa Hna Hta).
  - exact (transition_well_formed cfg _ _ _ _ _ Hwb Hnb Htb).
  - intros m. rewrite (transition_participates cfg _ _ _ _ _ m Hta),
      (transition_participates cfg _ _ _ _ _ m Htb). apply Hn.
  - intros f m. destruct Hta as (Hva & Hfa & _), Htb as (Hvb & Hfb & _).
    destruct (decide (m = n)) as [-> | Hne].
    + rewrite Hva, Hvb. apply (f_equal Some). apply next_value_ext.
      intros f0. now apply agree_value_of.
    + rewrite Hfa, Hfb by congruence. apply Hv.
Qed.

Lemma ledger_player_other (winners losers : list string) (pl pl' : string)
    (Ta Tb : tables) (n : string) :
  pl' <> pl -> agree_on pl Ta Tb ->
  exists Ta', ledger_player cfg winners losers pl' Ta n = Ok Ta' /\ agree_on pl Ta' Tb.
Proof.
  intros Hpl H. pose proof H as [Hwa Hwb Hn Hv].
  destruct (ledger_player_total cfg winners losers pl' Ta n Hwa) as (Ta' & Ea & Ha).
  exists Ta'. split; [exact Ea |].
  destruct Ha as [[Hpa ->] | [Hpa Hta]]; [exact H |].
  pose proof Hpa as Hpa'. apply participates_true in Hpa' as [_ Hna].
  split.
  - exact (transition_well_formed cfg _ _ _ _ _ Hwa Hna Hta).
  - exact Hwb.
  - intros m. rewrite (transition_participates cfg _ _ _ _ _ m Hta). apply Hn.
  - intros f m. destruct Hta as (_ & Hfa & _). rewrite Hfa by congruence. apply Hv.
Qed.

Lemma ledger_names_agree (winners losers : list string) (pl : string)
    (names : list string) (Ta Tb : tables) :
  agree_on pl Ta Tb ->
  exists Ta' Tb',
    foldM (ledger_player cfg winners losers pl) names Ta = Ok Ta' /\
    foldM (ledger_player cfg winners losers pl) names Tb = Ok Tb' /\
    agree_on pl Ta' Tb'.
Proof.
  revert Ta Tb. induction names as [| n names IH]; intros Ta Tb H; cbn [foldM].
  - now exists Ta, Tb.
  - destruct (ledger_player_agree winners losers pl Ta Tb n H) as (Ta1 & Tb1 & Ea & Eb & H1).
    rewrite Ea, Eb, !bind_Ok. now apply IH.
Qed.

Lemma ledger_names_other (winners losers : list string) (pl pl' : string)
    (names : list string) (Ta Tb : tables) :
  pl' <> pl -> agree_on pl Ta Tb ->
  exists Ta',
    foldM (ledger_player cfg winners losers pl') names Ta = Ok Ta' /\ agree_on pl Ta' Tb.
Proof.
  intros Hpl. revert Ta. induction names as [| n names IH]; intros Ta H; cbn [foldM].
  - now exists Ta.
  - destruct (ledger_player_other winners losers pl pl' Ta Tb n Hpl H) as (Ta1 & Ea & H1).
    rewrite Ea, bind_Ok. now apply IH.
Qed.

Lemma ledger_game_eq (T : tables) (g : game) :
  ledger_game cfg T g =
    match playlist g with
    | None => Ok T
    | Some pl =>
        if String.eqb pl "" then Ok T
        else foldM (ledger_player cfg (fst (determine_winners_losers g))
                      (snd (determine_winners_losers g)) pl)
                   (List.map name (players g)) T
    end.
Proof. unfold ledger_game. now destruct (determine_winners_losers g). Qed.

Lemma ledger_replay_agree (pl : string) (gs : list game) (Ta Tb : tables) :
  agree_on pl Ta Tb ->
  exists Ta' Tb',
    ledger_replay cfg gs Ta = Ok Ta' /\
    ledger_replay cfg (games_of_playlist pl gs) Tb = Ok Tb' /\
    agree_on pl Ta' Tb'.
Proof.
  unfold ledger_replay, games_of_playlist. revert Ta Tb.
  induction gs as [| g gs IH]; intros Ta Tb H; cbn [foldM List.filter].
  - now exists Ta, Tb.
  - destruct (decide (playlist g = Some pl)) as [Hg | Hg].
    + rewrite bool_decide_eq_true_2 by exact Hg. cbn [foldM].
      rewrite !ledger_game_eq, Hg.
      destruct (String.eqb pl "").
      * rewrite !bind_Ok. now apply IH.
      * destruct (ledger_names_agree (fst (determine_winners_losers g))
                    (snd (determine_winners_losers g)) pl (List.map name (players g)) Ta Tb H)
          as (Ta1 & Tb1 & Ea & Eb & H1).
        rewrite Ea, Eb, !bind_Ok. now apply IH.
    + rewrite bool_decide_eq_false_2 by exact Hg.
      rewrite ledger_game_eq.
      destruct (playlist g) as [pl' |]; [| rewrite bind_Ok; now apply IH].
      destruct (String.eqb pl' ""); [rewrite bind_Ok; now apply IH |].
      destruct (ledger_names_other (fst (determine_winners_losers g))
                  (snd (determine_winners_losers g)) pl pl' (List.map name (players g)) Ta Tb)
        as (Ta1 & Ea & H1); [congruence | exact H |].
      rewrite Ea, bind_Ok. now apply IH.
Qed.

Lemma games_of_playlist_twice (pl pl' : string) (gs : list game) :
  games_of_playlist pl (games_of_playlist pl' gs) =
    if decide (pl = pl') then games_of_playlist pl gs else [].
Proof.
  unfold games_of_playlist. induction gs as [| g gs IH]; cbn [List.filter].
  - now destruct (decide (pl = pl')).
  - destruct (decide (playlist g = Some pl')) as [Hg | Hg].
    + rewrite (bool_decide_eq_true_2 _ Hg). cbn [List.filter]. rewrite IH.
      destruct (decide (pl = pl')) as [-> | Hne].
      * now rewrite (bool_decide_eq_true_2 _ Hg).
      * now rewrite bool_decide_eq_false_2 by congruence.
    + rewrite (bool_decide_eq_false_2 _ Hg), IH.
      destruct (decide (pl = pl')) as [-> | Hne]; [| reflexivity].
      now rewrite (bool_decide_eq_false_2 _ Hg).
Qed.

Lemma games_of_playlist_ranked (pl : string) (gs : list game) :
  PyStr.mem pl [PLAYLIST_MLG_4V4; PLAYLIST_TEAM_HARDCORE; PLAYLIST_DOUBLE_TEAM;
                PLAYLIST_HEAD_TO_HEAD] = true ->
  games_of_playlist pl (ranked_games_of gs) = games_of_playlist pl gs.
Proof.
  intros H. apply mem_In in H. unfold ranked_games_of.
  assert (Happ : forall l1 l2, games_of_playlist pl (l1 ++ l2) =
                   (games_of_playlist pl l1 ++ games_of_playlist pl l2)%list).
  { intros l1 l2. unfold games_of_playlist. apply List.filter_app. }
  rewrite !Happ, !games_of_playlist_twice.
  destruct H as [<- | [<- | [<- | [<- | []]]]]; cbn; now rewrite ?app_nil_r.
Qed.

(** X23: the playlists of the ledger are independent.  After a replay
    of any list of games from well-formed tables, the entries of a playlist
    are those that a replay of only the games of that playlist, in the same
    order, gives; in particular the list of ranked games that [main] builds
    by concatenating the four playlists gives every playlist the entries of
    its own games replayed in file order. *)
Theorem playlists_are_independent (pl : string) (gs : list game) (T : tables) :
  well_formed T ->
  exists Ta Tb,
    ledger_replay cfg gs T = Ok Ta /\
    ledger_replay cfg (games_of_playlist pl gs) T = Ok Tb /\
    (forall f n, val f Ta n pl = val f Tb n pl) /\
    (PyStr.mem pl [PLAYLIST_MLG_4V4; PLAYLIST_TEAM_HARDCORE; PLAYLIST_DOUBLE_TEAM;
                   PLAYLIST_HEAD_TO_HEAD] = true ->
     exists Tr,
       ledger_replay cfg (ranked_games_of gs) T = Ok Tr /\
       forall f n, val f Tr n pl = val f Tb n pl).
Proof.
  intros Hwf.
  destruct (ledger_replay_agree pl gs T T) as (Ta & Tb & Ea & Eb & H).
  { now split. }
  exists Ta, Tb. split; [exact Ea |]. split; [exact Eb |].
  split; [exact (ag_val pl Ta Tb H) |].
  intros Hpl.
  destruct (ledger_replay_agree pl (ranked_games_of gs) T T) as (Tr & Tb' & Er & Eb' & H').
  { now split. }
  rewrite (games_of_playlist_ranked pl gs Hpl), Eb in Eb'. injection Eb' as <-.
  exists Tr. split; [exact Er | exact (ag_val pl Tr Tb H')].
Qed.

End Independent.

(** X23, witness of the hypothesis: a win, a loss and a tie replayed
    from a clean slate. *)
Lemma playlists_are_independent_witness :
  exists Ta Tb,
    ledger_replay LedgerFixtures.cfg
      [LedgerFixtures.win_game; LedgerFixtures.loss_game; LedgerFixtures.tie_game]
      LedgerFixtures.T0 = Ok Ta /\
    ledger_replay LedgerFixtures.cfg
      (games_of_playlist LedgerFixtures.MLG
         [LedgerFixtures.win_game; LedgerFixtures.loss_game; LedgerFixtures.tie_game])
      LedgerFixtures.T0 = Ok Tb /\
    (forall f n, val f Ta n LedgerFixtures.MLG = val f Tb n LedgerFixtures.MLG) /\
    (PyStr.mem LedgerFixtures.MLG
       [PLAYLIST_MLG_4V4; PLAYLIST_TEAM_HARDCORE; PLAYLIST_DOUBLE_TEAM;
        PLAYLIST_HEAD_TO_HEAD] = true ->
     exists Tr,
       ledger_replay LedgerFixtures.cfg
         (ranked_games_of
            [LedgerFixtures.win_game; LedgerFixtures.loss_game; LedgerFixtures.tie_game])
         LedgerFixtures.T0 = Ok Tr /\
       forall f n, val f Tr n LedgerFixtures.MLG = val f Tb n LedgerFixtures.MLG).
Proof.
  apply (playlists_are_independent LedgerFixtures.cfg LedgerFixtures.MLG
           [LedgerFixtures.win_game; LedgerFixtures.loss_game; LedgerFixtures.tie_game]
           LedgerFixtures.T0).
  exact (inv_wf _ (clean_tables_inv _)).
Defined.

(** ** The playlist groups of step 2 *)

Lemma deref_insert (h : list (list game)) (r r' : nat) (l : list game) :
  (r < length h)%nat ->
  deref (<[r := l]> h) r' = if decide (r = r') then l else deref h r'.
Proof.
  intros Hr. unfold deref. rewrite list_lookup_insert.
  destruct (decide (r = r')) as [-> | Hne].
  - now rewrite decide_True by (split; [reflexivity | exact Hr]).
  - now rewrite decide_False by (intros [? _]; contradiction).
Qed.

Lemma deref_snoc (h : list (list game)) (l : list game) (r : nat) :
  deref (h ++ [l]) r = if decide (r = length h) then l else deref h r.
Proof.
  unfold deref. destruct (decide (r = length h)) as [-> | Hne].
  - now rewrite list_lookup_middle.
  - destruct (decide (r < length h)%nat) as [Hlt | Hge].
    + now rewrite lookup_app_l.
    + rewrite (proj2 (lookup_ge_None (h ++ [l]) r)) by (rewrite length_app; cbn; lia).
      now rewrite (proj2 (lookup_ge_None h r)) by lia.
Qed.

Lemma games_of_playlist_snoc (pl : string) (gs : list game) (g : game) :
  games_of_playlist pl (gs ++ [g]) =
    (games_of_playlist pl gs ++ if bool_decide (playlist g = Some pl) then [g] else [])%list.
Proof. unfold games_of_playlist. now rewrite List.filter_app. Qed.

Lemma group_step_grouped (gs : list game) (h : list (list game)) (d : gmap string nat) (g : game) :
  grouped gs h d ->
  grouped (gs ++ [g]) (fst (group_step (h, d) g)) (snd (group_step (h, d) g)).
Proof.
  intros [Hs Hn Hi].
  assert (Hother : forall pl, playlist g <> Some pl ->
            games_of_playlist pl (gs ++ [g]) = games_of_playlist pl gs).
  { intros pl Hpl. now rewrite games_of_playlist_snoc, bool_decide_eq_false_2, app_nil_r. }
  assert (Hthis : forall pl, playlist g = Some pl ->
            games_of_playlist pl (gs ++ [g]) = (games_of_playlist pl gs ++ [g])%list).
  { intros pl Hpl. now rewrite games_of_playlist_snoc, bool_decide_eq_true_2. }
  assert (Hskip : (forall pl, pl <> "" -> playlist g <> Some pl) ->
            grouped (gs ++ [g]) h d).
  { intros Hg. split; [| | exact Hi].
    - intros pl r Hr. destruct (Hs pl r Hr) as (H0 & H1 & H2 & H3).
      rewrite (Hother pl (Hg pl H0)). auto.
    - intros pl Hpl Hne. rewrite (Hother pl (Hg pl Hne)). now apply Hn. }
  unfold group_step. destruct (playlist g) as [pl0 |] eqn:Hg;
    [| apply Hskip; intros; discriminate].
  destruct (String.eqb_spec pl0 "") as [-> | Hne0];
    [apply Hskip; intros pl Hpl [= <-]; contradiction |].
  destruct (d !! pl0) as [r0 |] eqn:Hd0; cbn [alloc fst snd].
  - destruct (Hs pl0 r0 Hd0) as (_ & Hlt0 & Hv0 & _). split; [| | exact Hi].
    + intros pl r Hr. destruct (Hs pl r Hr) as (H0 & H1 & H2 & H3).
      unfold list_append. rewrite length_insert, deref_insert by exact Hlt0.
      split; [exact H0 |]. split; [exact H1 |].
      destruct (decide (r0 = r)) as [<- | Hner].
      * rewrite (Hi pl pl0 r0 Hr Hd0), (Hthis pl0 eq_refl), Hv0.
        split; [reflexivity |]. now destruct (games_of_playlist pl0 gs).
      * assert (Hpl : Some pl0 <> Some pl) by (intros [= <-]; congruence).
        rewrite (Hother pl Hpl). auto.
    + intros pl Hpl Hne. assert (Hpl' : Some pl0 <> Some pl) by (intros [= <-]; congruence).
      rewrite (Hother pl Hpl'). now apply Hn.
  - assert (Hlen : (length h < length (h ++ [[]]))%nat) by (rewrite length_app; cbn; lia).
    split.
    + intros pl r Hr. unfold list_append.
      rewrite length_insert, deref_insert, !deref_snoc by exact Hlen.
      rewrite (decide_True (P := length h = length h)) by reflexivity.
      apply lookup_insert_Some in Hr as [[<- <-] | [Hne Hr]].
      * rewrite decide_True by reflexivity. rewrite (Hthis pl0 eq_refl), (Hn pl0 Hd0 Hne0).
        repeat split; [exact Hne0 | exact Hlen | discriminate].
      * destruct (Hs pl r Hr) as (H0 & H1 & H2 & H3).
        rewrite decide_False by lia. rewrite decide_False by lia.
        assert (Hpl : Some pl0 <> Some pl) by congruence.
        rewrite (Hother pl Hpl). repeat split; [exact H0 | lia | exact H2 | exact H3].
    + intros pl Hpl Hne. apply lookup_insert_None in Hpl as [Hpl Hne'].
      assert (Hpl' : Some pl0 <> Some pl) by congruence.
      rewrite (Hother pl Hpl'). now apply Hn.
    + intros pl pl' r Hr Hr'.
      apply lookup_insert_Some in Hr as [[<- <-] | [Hne Hr]];
        apply lookup_insert_Some in Hr' as [[<- E'] | [Hne' Hr']]; try reflexivity.
      * destruct (Hs pl' _ Hr') as (_ & H1 & _). lia.
      * destruct (Hs pl _ Hr) as (_ & H1 & _). lia.
      * exact (Hi pl pl' r Hr Hr').
Qed.

Lemma group_games_grouped (all_games : list game) :
  grouped all_games (fst (group_games all_games)) (snd (group_games all_games)).
Proof.
  unfold group_games.
  assert (Hgen : forall gs done h d, grouped done h d ->
            grouped (done ++ gs) (fst (fold_left group_step gs (h, d)))
                    (snd (fold_left group_step gs (h, d)))).
  { induction gs as [| g gs IH]; intros done h d H; cbn [fold_left].
    - now rewrite app_nil_r.
    - replace (done ++ g :: gs)%list with ((done ++ [g]) ++ gs)%list
        by (now rewrite <- app_assoc).
      pose proof (group_step_grouped done h d g H) as H1.
      destruct (group_step (h, d) g) as [h1 d1]. now apply IH. }
  apply (Hgen all_games [] [] ∅). split.
  - intros pl r Hr. rewrite lookup_empty in Hr. discriminate.
  - reflexivity.
  - intros pl pl' r Hr. rewrite lookup_empty in Hr. discriminate.
Qed.

Lemma extend_step (gs : list game) (d : gmap string nat) (r : nat) (h : list (list game))
    (L : list game) (pl : string) :
  pl <> "" -> (forall r', d !! pl = Some r' -> r' <> r) ->
  extending gs d r h L ->
  extending gs d r
    (list_extend r (fst (get_or_empty d pl h)) (snd (get_or_empty d pl h)))
    (L ++ games_of_playlist pl gs).
Proof.
  intros Hpl Hne [[Hlt HL] Hs Hn]. unfold get_or_empty.
  destruct (d !! pl) as [r' |] eqn:Hd; cbn [alloc fst snd]; unfold list_extend.
  - destruct (Hs pl r' Hd (Hne r' eq_refl)) as [Hlt' Hv']. split.
    + rewrite length_insert, deref_insert by exact Hlt.
      rewrite decide_True by reflexivity. now rewrite HL, Hv'.
    + intros pl1 r1 H1 Hne1. rewrite length_insert, deref_insert by exact Hlt.
      rewrite decide_False by congruence. now apply Hs.
    + exact Hn.
  - assert (Hlen : (r < length (h ++ [[]]))%nat) by (rewrite length_app; cbn; lia).
    split.
    + rewrite length_insert, deref_insert, !deref_snoc by exact Hlen.
      rewrite (Hn pl Hd Hpl), <- HL. split; [exact Hlen |].
      repeat case_decide; try lia; try congruence.
    + intros pl1 r1 H1 Hne1. rewrite length_insert, deref_insert by exact Hlen.
      destruct (Hs pl1 r1 H1 Hne1) as [Hlt1 Hv1]. split; [rewrite length_app; cbn; lia |].
      case_decide; [congruence |]. rewrite deref_snoc. case_decide; [lia | exact Hv1].
    + exact Hn.
Qed.

(** X24: [ranked_games] is the list object of the MLG 4v4 key of
    [games_by_playlist] whenever that key exists, and it is extended in
    place.  After the four statements that build it, [ranked_games] holds
    the games of the four ranked playlists; every other key of
    [games_by_playlist] still reads the games of its own playlist; but the
    MLG 4v4 key, which read the MLG 4v4 games before, now reads the whole
    list of ranked games as soon as there is one MLG 4v4 game. *)
Theorem ranked_games_alias (all_games : list game) :
  let '(h0, games_by_playlist) := group_games all_games in
  let '(ranked_games, h) := build_ranked (h0, games_by_playlist) in
  deref h ranked_games = ranked_games_of all_games /\
  (forall pl, pl <> "" -> playlist_games h0 games_by_playlist pl
                          = games_of_playlist pl all_games) /\
  (forall pl, pl <> "" -> pl <> PLAYLIST_MLG_4V4 ->
     playlist_games h games_by_playlist pl = games_of_playlist pl all_games) /\
  playlist_games h games_by_playlist PLAYLIST_MLG_4V4 =
    if bool_decide (games_of_playlist PLAYLIST_MLG_4V4 all_games = [])
    then [] else ranked_games_of all_games.
Proof.
  pose proof (group_games_grouped all_games) as H.
  destruct (group_games all_games) as [h0 d]. cbn [fst snd] in H.
  destruct H as [Hs Hn Hi].
  unfold build_ranked.
  destruct (get_or_empty d PLAYLIST_MLG_4V4 h0) as [r h1] eqn:E0.
  assert (Hstart : extending all_games d r h1 (games_of_playlist PLAYLIST_MLG_4V4 all_games) /\
            (forall pl r', d !! pl = Some r' -> r' = r -> pl = PLAYLIST_MLG_4V4)).
  { unfold get_or_empty in E0. destruct (d !! PLAYLIST_MLG_4V4) as [r0 |] eqn:Hd.
    - injection E0 as <- <-. destruct (Hs _ _ Hd) as (_ & H1 & H2 & _). split.
      + split; [now split | | exact Hn].
        intros pl r' Hr' _. destruct (Hs _ _ Hr') as (_ & H3 & H4 & _). now split.
      + intros pl r' Hr' ->. exact (Hi _ _ _ Hr' Hd).
    - cbn [alloc] in E0. injection E0 as <- <-. split.
      + split.
        * rewrite length_app, deref_snoc, decide_True by reflexivity.
          split; [cbn; lia |]. symmetry. now apply Hn.
        * intros pl r' Hr' _. destruct (Hs _ _ Hr') as (_ & H3 & H4 & _).
          rewrite length_app, deref_snoc, decide_False by lia. split; [lia | exact H4].
        * exact Hn.
      + intros pl r' Hr' ->. destruct (Hs _ _ Hr') as (_ & H3 & _). lia. }
  destruct Hstart as [Hx0 Hr].
  assert (Hx1 := extend_step all_games d r h1 _ PLAYLIST_TEAM_HARDCORE
                   ltac:(discriminate)
                   ltac:(intros r' Hr' ->; specialize (Hr _ _ Hr' eq_refl); discriminate) Hx0).
  destruct (get_or_empty d PLAYLIST_TEAM_HARDCORE h1) as [r1 h2]. cbn [fst snd] in Hx1.
  assert (Hx2 := extend_step all_games d r _ _ PLAYLIST_DOUBLE_TEAM
                   ltac:(discriminate)
                   ltac:(intros r' Hr' ->; specialize (Hr _ _ Hr' eq_refl); discriminate) Hx1).
  destruct (get_or_empty d PLAYLIST_DOUBLE_TEAM _) as [r2 h3]. cbn [fst snd] in Hx2.
  assert (Hx3 := extend_step all_games d r _ _ PLAYLIST_HEAD_TO_HEAD
                   ltac:(discriminate)
                   ltac:(intros r' Hr' ->; specialize (Hr _ _ Hr' eq_refl); discriminate) Hx2).
  destruct (get_or_empty d PLAYLIST_HEAD_TO_HEAD _) as [r3 h4]. cbn [fst snd] in Hx3.
  cbv zeta. destruct Hx3 as [[Hlt HL] Hs3 Hn3].
  assert (HL' : deref (list_extend r r3 h4) r = ranked_games_of all_games).
  { rewrite HL. unfold ranked_games_of. now rewrite <- !app_assoc. }
  split; [exact HL' |]. split; [| split].
  - intros pl Hpl. unfold playlist_games. destruct (d !! pl) as [r' |] eqn:Hd.
    + now destruct (Hs _ _ Hd) as (_ & _ & H2 & _).
    + symmetry. now apply Hn.
  - intros pl Hpl Hne. unfold playlist_games. destruct (d !! pl) as [r' |] eqn:Hd.
    + apply Hs3; [exact Hd |]. intros ->. apply Hne. exact (Hr _ _ Hd eq_refl).
    + symmetry. now apply Hn.
  - unfold playlist_games. destruct (d !! PLAYLIST_MLG_4V4) as [r0 |] eqn:Hd.
    + destruct (Hs _ _ Hd) as (_ & _ & _ & Hne).
      rewrite bool_decide_eq_false_2 by exact Hne.
      unfold get_or_empty in E0. rewrite Hd in E0. injection E0 as <- <-. exact HL'.
    + rewrite bool_decide_eq_true_2; [reflexivity |]. now apply Hn.
Qed.

(** ** Series are the runs of one signature *)

Lemma no_adjacent_eq_snoc {A} (l : list A) (a : A) :
  no_adjacent_eq l -> (forall b, last l = Some b -> b <> a) ->
  no_adjacent_eq (l ++ [a]).
Proof.
  induction l as [| x l IH]; intros Hl Hlast; [exact I |].
  destruct l as [| y l']; cbn [app no_adjacent_eq].
  - split; [| exact I]. apply Hlast. reflexivity.
  - cbn [no_adjacent_eq] in Hl. destruct Hl as [Hxy Hl]. split; [exact Hxy |].
    apply IH; [exact Hl |]. intros b Hb. apply Hlast. exact Hb.
Qed.

Lemma group_sig_snoc (grp : list game) (g : game) :
  grp <> [] -> group_sig (grp ++ [g]) = group_sig grp.
Proof. destruct grp; [contradiction | reflexivity]. Qed.

Section SeriesRuns.
Variable f : string -> string.

Lemma series_step_detecting (st : detect_state) (p : list game) (g : game) :
  detecting st p -> detecting (series_step f st g) (p ++ [g]).
Proof.
  unfold detecting. destruct (current_series st) as [[sig cs] |] eqn:Hc.
  - intros (closed & open & Hp & Hne & Hsig & Hg & Hl & Hu & Hn).
    destruct (decide (get_team_signature g = sig)) as [He | Hdiff].
    + rewrite (series_step_same f st sig cs g Hc He). cbn [current_series series_list].
      exists closed, (open ++ [g])%list. split; [now rewrite Hp, app_assoc |].
      split; [now destruct open |]. split; [apply Forall_app; split; [exact Hsig | now constructor] |].
      split; [cbn [add_game games]; now rewrite Hg, map_app |].
      split; [exact Hl |]. split; [exact Hu |].
      rewrite map_app in Hn |- *. cbn [List.map] in Hn |- *.
      now rewrite group_sig_snoc.
    + rewrite (series_step_other f st sig cs g Hc Hdiff). cbn [current_series series_list].
      exists (closed ++ [open])%list, [g].
      split; [rewrite Hp, concat_app; cbn [concat]; now rewrite app_nil_r |].
      split; [discriminate |]. split; [now constructor |].
      split; [reflexivity |].
      split; [rewrite !map_app; cbn [List.map _finalize_series games]; now rewrite Hl, Hg |].
      split; [apply Forall_app; split; [exact Hu |]; constructor; [| constructor];
              split; [exact Hne | now exists sig] |].
      rewrite map_app. cbn [List.map]. apply no_adjacent_eq_snoc; [exact Hn |].
      intros b Hb. rewrite map_app in Hb. cbn [List.map] in Hb. rewrite last_snoc in Hb.
      injection Hb as <-. unfold group_sig. destruct open as [| g0 open']; [contradiction |].
      cbn [head option_map]. apply Forall_inv in Hsig. intros E. apply Hdiff.
      congruence.
  - intros [Hl ->]. rewrite (series_step_first f st g Hc). cbn [current_series series_list].
    exists [], [g]. split; [reflexivity |]. split; [discriminate |].
    split; [now constructor |]. split; [reflexivity |]. split; [now rewrite Hl |].
    split; [constructor | exact I].
Qed.

Lemma series_fold_detecting (l : list game) (st : detect_state) (p : list game) :
  detecting st p -> detecting (fold_left (series_step f) l st) (p ++ l).
Proof.
  revert st p. induction l as [| g l IH]; intros st p H; cbn [fold_left].
  - now rewrite app_nil_r.
  - replace (p ++ g :: l)%list with ((p ++ [g]) ++ l)%list by now rewrite <- app_assoc.
    apply IH. now apply series_step_detecting.
Qed.

(** X25: [detect_series] cuts the games, sorted by start time, exactly
    where the team signature changes: the sorted games split into
    consecutive non-empty groups, one per returned series and holding that
    series' games, such that all games of a group have the same signature
    and the first games of two neighbouring groups have different
    signatures. *)
Theorem detect_series_cuts_at_signature_changes (gs : list game) :
  exists groups : list (list game),
    concat groups = sorted_by_start gs /\
    List.map games (detect_series f gs) = List.map (List.map series_entry) groups /\
    Forall uniform groups /\
    no_adjacent_eq (List.map group_sig groups).
Proof.
  destruct gs as [| g0 gs0].
  - exists []. repeat split; constructor.
  - destruct (detect_series_fold f (g0 :: gs0) ltac:(discriminate))
      as (st & sig & cs & Hst & Hcs & ->).
    pose proof (series_fold_detecting (sorted_by_start (g0 :: gs0)) (detect_init) []) as H.
    rewrite <- Hst in H. unfold detecting at 2 in H. rewrite Hcs in H.
    destruct H as (closed & open & Hp & Hne & Hsig & Hg & Hl & Hu & Hn).
    { cbn. now split. }
    exists (closed ++ [open])%list.
    split; [rewrite concat_app; cbn [concat]; rewrite app_nil_r; now rewrite <- Hp |].
    split; [rewrite !map_app; cbn [List.map _finalize_series games]; now rewrite Hl, Hg |].
    split; [| exact Hn].
    apply Forall_app. split; [exact Hu |]. constructor; [| constructor].
    split; [exact Hne | now exists sig].
Qed.

End SeriesRuns.

(** ** The list of stats files *)

Lemma ascii_compare_N (a b : ascii) :
  Ascii.compare a b = N.compare (N_of_ascii a) (N_of_ascii b).
Proof. reflexivity. Qed.

Lemma string_leb_cons (a b : ascii) (s t : string) :
  String.leb (String a s) (String b t) =
    match N.compare (N_of_ascii a) (N_of_ascii b) with
    | Eq => String.leb s t
    | Lt => true
    | Gt => false
    end.
Proof.
  unfold String.leb. cbn [String.compare]. rewrite ascii_compare_N.
  now destruct (N.compare (N_of_ascii a) (N_of_ascii b)).
Qed.

Lemma string_leb_trans (s1 s2 s3 : string) :
  String.leb s1 s2 = true -> String.leb s2 s3 = true -> String.leb s1 s3 = true.
Proof.
  revert s2 s3. induction s1 as [| a s1 IH]; intros [| b s2] [| c s3]; try reflexivity;
    try discriminate.
  rewrite !string_leb_cons.
  destruct (N.compare_spec (N_of_ascii a) (N_of_ascii b)) as [Eab | Lab | Gab];
    destruct (N.compare_spec (N_of_ascii b) (N_of_ascii c)) as [Ebc | Lbc | Gbc];
    destruct (N.compare_spec (N_of_ascii a) (N_of_ascii c)) as [Eac | Lac | Gac];
    try discriminate; try reflexivity; try lia.
  apply IH.
Qed.

Section SortedProps.
Context {A : Type} (le : A -> A -> bool).
Hypothesis le_total : forall a b, le a b = true \/ le b a = true.
Hypothesis le_trans : forall a b c, le a b = true -> le b c = true -> le a c = true.

Lemma insert_sorted_perm (x : A) (l : list A) :
  Permutation (PyStr.insert_sorted le x l) (x :: l).
Proof.
  induction l as [| y l IH]; cbn [PyStr.insert_sorted]; [reflexivity |].
  destruct (le y x); [| reflexivity].
  rewrite IH. apply perm_swap.
Qed.

Lemma sorted_perm (l : list A) : Permutation (PyStr.sorted le l) l.
Proof.
  unfold PyStr.sorted.
  assert (H : forall acc, Permutation
              (fold_left (fun acc x => PyStr.insert_sorted le x acc) l acc) (acc ++ l)).
  { induction l as [| x l IH]; intros acc; cbn [fold_left].
    - now rewrite app_nil_r.
    - rewrite IH, insert_sorted_perm. apply Permutation_middle. }
  apply (H []).
Qed.

Lemma insert_sorted_sorted (x : A) (l : list A) :
  StronglySorted (fun a b => le a b = true) l ->
  StronglySorted (fun a b => le a b = true) (PyStr.insert_sorted le x l).
Proof.
  induction l as [| y l IH]; intros Hs; cbn [PyStr.insert_sorted].
  - repeat constructor.
  - apply StronglySorted_inv in Hs as [Hs Hy].
    destruct (le y x) eqn:E.
    + constructor; [now apply IH |].
      rewrite (insert_sorted_perm x l). constructor; [exact E | exact Hy].
    + assert (Hxy : le x y = true) by (destruct (le_total x y); congruence).
      constructor; [constructor; assumption |].
      constructor; [exact Hxy |].
      rewrite List.Forall_forall in Hy |- *. intros z Hz.
      exact (le_trans x y z Hxy (Hy z Hz)).
Qed.

Lemma sorted_is_sorted (l : list A) :
  StronglySorted (fun a b => le a b = true) (PyStr.sorted le l).
Proof.
  unfold PyStr.sorted.
  assert (H : forall acc, StronglySorted (fun a b => le a b = true) acc ->
            StronglySorted (fun a b => le a b = true)
              (fold_left (fun acc x => PyStr.insert_sorted le x acc) l acc)).
  { induction l as [| x l IH]; intros acc Hacc; cbn [fold_left]; [exact Hacc |].
    apply IH. now apply insert_sorted_sorted. }
  apply H. constructor.
Qed.

End SortedProps.

Lemma classic_listed (dir : option (list string)) (f : string) :
  listed dir f \/ ~ listed dir f.
Proof.
  unfold listed. destruct (in_dec String.string_dec f (default [] dir)); tauto.
Qed.

Lemma existsb_name (f : string) (acc : list (string * string)) :
  existsb (fun gf => String.eqb (fst gf) f) acc = true <-> In f (List.map fst acc).
Proof.
  rewrite existsb_exists, in_map_iff. split.
  - intros (x & Hx & He). apply String.eqb_eq in He. now exists x.
  - intros (x & He & Hx). exists x. split; [exact Hx | now apply String.eqb_eq].
Qed.

Lemma scan_dir_cons (only_new : bool) (dir f : string) (listing : list string)
    (acc : list (string * string)) :
  scan_dir only_new dir (f :: listing) acc =
    scan_dir only_new dir listing
      (if is_stats_file f && negb (only_new && existsb (fun gf => String.eqb (fst gf) f) acc)
       then (acc ++ [(f, dir)])%list else acc).
Proof.
  unfold scan_dir. cbn [fold_left]. destruct (is_stats_file f); [| reflexivity].
  now destruct (only_new && _).
Qed.

Lemma scan_dir_In (only_new : bool) (dir : string) (listing : list string)
    (acc : list (string * string)) (f d : string) :
  In (f, d) (scan_dir only_new dir listing acc) <->
  In (f, d) acc \/
  (d = dir /\ In f listing /\ is_stats_file f = true /\
   (only_new = true -> ~ In f (List.map fst acc))).
Proof.
  revert acc. induction listing as [| f0 listing IH]; intros acc.
  - cbn. tauto.
  - rewrite scan_dir_cons, IH. clear IH. cbn [In].
    destruct (is_stats_file f0) eqn:Hs; cbn [andb].
    + destruct (only_new && existsb (fun gf => String.eqb (fst gf) f0) acc) eqn:Hx;
        cbn [negb].
      * apply andb_true_iff in Hx as [-> Hx]. apply existsb_name in Hx.
        split; [intros [H | (H1 & H2 & H3 & H4)]; [tauto | right; tauto] |].
        intros [H | (H1 & [<- | H2] & H3 & H4)]; [tauto | | tauto].
        exfalso. now apply H4.
      * assert (Hnew : only_new = true -> ~ In f0 (List.map fst acc)).
        { intros ->. cbn [andb] in Hx. intros Hin. apply existsb_name in Hin. congruence. }
        rewrite in_app_iff, map_app, in_app_iff. cbn [In List.map fst]. split.
        -- intros [[H | [[= <- <-] | []]] | (H1 & H2 & H3 & H4)]; [tauto | | ].
           ++ right. repeat split; auto.
           ++ right. repeat split; auto. intros Ho Hin. apply (H4 Ho). now left.
        -- intros [H | (H1 & [<- | H2] & H3 & H4)]; [tauto | left; right; left; now subst |].
           destruct (String.eqb_spec f0 f) as [<- | Hne]; [left; right; left; now subst |].
           right. repeat split; auto. intros Ho [Hin | [E | []]]; [now apply (H4 Ho) | congruence].
    + split; [intros [H | (H1 & H2 & H3 & H4)]; [tauto | right; tauto] |].
      intros [H | (H1 & [<- | H2] & H3 & H4)]; [tauto | congruence | right; tauto].
Qed.

Lemma scan_dir_NoDup (only_new : bool) (dir : string) (listing : list string)
    (acc : list (string * string)) :
  List.NoDup (List.map fst acc) ->
  (only_new = false ->
   List.NoDup listing /\ forall f, In f listing -> ~ In f (List.map fst acc)) ->
  List.NoDup (List.map fst (scan_dir only_new dir listing acc)).
Proof.
  revert acc. induction listing as [| f0 listing IH]; intros acc Hacc Hold; [exact Hacc |].
  rewrite scan_dir_cons.
  destruct (is_stats_file f0 &&
            negb (only_new && existsb (fun gf => String.eqb (fst gf) f0) acc)) eqn:Hc.
  - apply andb_true_iff in Hc as [Hs Hx]. apply negb_true_iff in Hx.
    assert (Hnew : ~ In f0 (List.map fst acc)).
    { destruct only_new.
      - cbn [andb] in Hx. intros Hin. apply existsb_name in Hin. congruence.
      - destruct (Hold eq_refl) as [_ H]. apply H. now left. }
    apply IH.
    + rewrite map_app. cbn [List.map fst].
      apply List.NoDup_app; [exact Hacc | repeat constructor; intros [] |].
      intros x Hx' [<- | []]. contradiction.
    + intros Ho. destruct (Hold Ho) as [Hnd Hdis]. apply List.NoDup_cons_iff in Hnd as [Hn0 Hnd].
      split; [exact Hnd |]. intros f Hf. rewrite map_app, in_app_iff. cbn [List.map fst In].
      intros [Hin | [<- | []]]; [apply (Hdis f); [now right | exact Hin] | contradiction].
  - apply IH; [exact Hacc |].
    intros Ho. destruct (Hold Ho) as [Hnd Hdis]. apply List.NoDup_cons_iff in Hnd as [Hn0 Hnd].
    split; [exact Hnd |]. intros f Hf. apply Hdis. now right.
Qed.

(** X26: given that the listing of the local stats directory names no
    file twice, the list returned by [get_all_game_files] is sorted by file
    name, names no file twice, and holds exactly the names that end in
    [.xlsx] and do not contain [_identity], each with the first of the
    three directories (local, public, private) that lists it; a directory
    that does not exist lists nothing. *)
Theorem get_all_game_files_spec (stats public private : option (list string)) :
  List.NoDup (default [] stats) ->
  let files := get_all_game_files stats public private in
  StronglySorted (fun a b => String.leb (fst a) (fst b) = true) files /\
  List.NoDup (List.map fst files) /\
  forall f d, In (f, d) files <->
    is_stats_file f = true /\
    ((d = STATS_DIR /\ listed stats f) \/
     (d = STATS_PUBLIC_DIR /\ ~ listed stats f /\ listed public f) \/
     (d = STATS_PRIVATE_DIR /\ ~ listed stats f /\ ~ listed public f /\ listed private f)).
Proof.
  intros Hnd. cbv zeta. unfold get_all_game_files.
  set (a1 := match stats with Some l => scan_dir false STATS_DIR l [] | None => [] end).
  set (a2 := match public with Some l => scan_dir true STATS_PUBLIC_DIR l a1 | None => a1 end).
  set (a3 := match private with Some l => scan_dir true STATS_PRIVATE_DIR l a2 | None => a2 end).
  assert (E1 : a1 = scan_dir false STATS_DIR (default [] stats) []) by now destruct stats.
  assert (E2 : a2 = scan_dir true STATS_PUBLIC_DIR (default [] public) a1) by now destruct public.
  assert (E3 : a3 = scan_dir true STATS_PRIVATE_DIR (default [] private) a2)
    by now destruct private.
  assert (N1 : List.NoDup (List.map fst a1)).
  { rewrite E1. apply scan_dir_NoDup; [constructor |]. intros _. split; [exact Hnd | auto]. }
  assert (N2 : List.NoDup (List.map fst a2)).
  { rewrite E2. apply scan_dir_NoDup; [exact N1 | discriminate]. }
  assert (N3 : List.NoDup (List.map fst a3)).
  { rewrite E3. apply scan_dir_NoDup; [exact N2 | discriminate]. }
  assert (Hname : forall (acc : list (string * string)) f,
            In f (List.map fst acc) <-> exists d, In (f, d) acc).
  { intros acc f. rewrite in_map_iff. split.
    - intros ([f' d] & <- & H). now exists d.
    - intros (d & H). now exists (f, d). }
  assert (M1 : forall f d, In (f, d) a1 <->
            d = STATS_DIR /\ listed stats f /\ is_stats_file f = true).
  { intros f d. rewrite E1, scan_dir_In. unfold listed. cbn [In]. split.
    - intros [[] | (H1 & H2 & H3 & _)]. tauto.
    - intros (H1 & H2 & H3). right. repeat split; auto; discriminate. }
  assert (M2 : forall f d, In (f, d) a2 <->
            is_stats_file f = true /\
            ((d = STATS_DIR /\ listed stats f) \/
             (d = STATS_PUBLIC_DIR /\ ~ listed stats f /\ listed public f))).
  { intros f d. rewrite E2, scan_dir_In, M1, Hname. unfold listed at 3. split.
    - intros [(H1 & H2 & H3) | (H1 & H2 & H3 & H4)]; [tauto |].
      split; [exact H3 |]. right. repeat split; auto.
      intros Hl. apply (H4 eq_refl). exists STATS_DIR. apply M1. tauto.
    - intros (H0 & [(H1 & H2) | (H1 & H2 & H3)]); [tauto |].
      right. repeat split; auto. intros _ (d' & Hd'). apply M1 in Hd'. tauto. }
  set (le := fun a b : string * string => String.leb (fst a) (fst b)).
  assert (Hperm : Permutation (PyStr.sorted le a3) a3) by apply sorted_perm.
  split; [| split].
  - apply sorted_is_sorted.
    + intros a b. apply String.leb_total.
    + intros a b c. apply string_leb_trans.
  - eapply Permutation_NoDup; [| exact N3]. symmetry. now apply Permutation_map.
  - intros f d. rewrite (Permutation_in' (eq_refl (f, d)) Hperm).
    rewrite E3, scan_dir_In, M2, Hname. unfold listed at 6. split.
    + intros [(H0 & [H1 | H1]) | (H1 & H2 & H3 & H4)]; [tauto | tauto |].
      split; [exact H3 |]. right; right.
      assert (Hno : ~ exists d', In (f, d') a2) by (apply H4; reflexivity).
      repeat split; auto.
      * intros Hl. apply Hno. exists STATS_DIR. apply M2. tauto.
      * intros Hl. destruct (classic_listed stats f) as [Hs | Hs].
        -- apply Hno. exists STATS_DIR. apply M2. tauto.
        -- apply Hno. exists STATS_PUBLIC_DIR. apply M2. tauto.
    + intros (H0 & [H1 | [H1 | (H1 & H2 & H3 & H4)]]); [left; tauto | left; tauto |].
      right. repeat split; auto. intros _ (d' & Hd'). apply M2 in Hd'. tauto.
Qed.

(** X26, witness of the hypothesis: a local directory with two stats
    files and an identity file, and a public directory that repeats one of
    them. *)
Lemma get_all_game_files_spec_witness :
  let stats := Some ["20251128_202256.xlsx"; "20251128_201839.xlsx";
                     "20251128_201839_identity.xlsx"] in
  let public := Some ["20251128_201839.xlsx"; "20251129_000000.xlsx"] in
  let files := get_all_game_files stats public None in
  StronglySorted (fun a b => String.leb (fst a) (fst b) = true) files /\
  List.NoDup (List.map fst files) /\
  forall f d, In (f, d) files <->
    is_stats_file f = true /\
    ((d = STATS_DIR /\ listed stats f) \/
     (d = STATS_PUBLIC_DIR /\ ~ listed stats f /\ listed public f) \/
     (d = STATS_PRIVATE_DIR /\ ~ listed stats f /\ ~ listed public f /\ listed None f)).
Proof.
  apply (get_all_game_files_spec
           (Some ["20251128_202256.xlsx"; "20251128_201839.xlsx";
                  "20251128_201839_identity.xlsx"])
           (Some ["20251128_201839.xlsx"; "20251129_000000.xlsx"]) None).
  cbn [default]. repeat constructor; cbn [In]; intuition discriminate.
Defined.

(** ** Step 3a: cumulative statistics *)

Lemma total_cons (f : player -> Z) (p : player) (l : list player) :
  total f (p :: l) = f p + total f l.
Proof. reflexivity. Qed.

Lemma stats_games_concat (gs : list game) (stats : gmap string game_stats) :
  stats_games gs stats = fold_left stats_player (concat (List.map players gs)) stats.
Proof.
  unfold stats_games. revert stats.
  induction gs as [| g gs IH]; intros stats; cbn [fold_left List.map concat]; [reflexivity |].
  now rewrite IH, fold_left_app.
Qed.

Lemma game_stats_eq (a b : game_stats) :
  gs_kills a = gs_kills b -> gs_deaths a = gs_deaths b -> gs_assists a = gs_assists b ->
  gs_games a = gs_games b -> gs_headshots a = gs_headshots b -> a = b.
Proof. destruct a, b. cbn. now intros -> -> -> -> ->. Qed.

Lemma stats_players_totals (ps : list player) (stats : gmap string game_stats) (n : string) :
  fold_left stats_player ps stats !! n =
    if is_dedicated_server n then stats !! n
    else add_appearances (List.filter (fun p => String.eqb (name p) n) ps) <$> stats !! n.
Proof.
  revert stats. induction ps as [| p ps IH]; intros stats; cbn [fold_left List.filter].
  - destruct (is_dedicated_server n); [reflexivity |].
    destruct (stats !! n) as [s |]; [| reflexivity].
    unfold fmap, option_fmap, option_map. f_equal.
    apply game_stats_eq; cbn; lia.
  - rewrite IH. clear IH. unfold stats_player.
    destruct (String.eqb_spec (name p) n) as [-> | Hne].
    + destruct (is_dedicated_server n); [reflexivity |].
      destruct (stats !! n) as [s |] eqn:E; [| now rewrite E].
      rewrite lookup_insert_eq. unfold fmap, option_fmap, option_map. f_equal.
      apply game_stats_eq;
        cbn [add_appearances gs_kills gs_deaths gs_assists gs_games gs_headshots length];
        rewrite ?total_cons, ?Nat2Z.inj_succ; lia.
    + assert (Hsame : (if is_dedicated_server (name p) then stats
                       else match stats !! name p with
                            | Some s =>
                                <[name p := {| gs_kills := gs_kills s + kills p;
                                               gs_deaths := gs_deaths s + deaths p;
                                               gs_assists := gs_assists s + assists p;
                                               gs_games := gs_games s + 1;
                                               gs_headshots := gs_headshots s + head_shots p |}]>
                                  stats
                            | None => stats
                            end) !! n = stats !! n).
      { destruct (is_dedicated_server (name p)); [reflexivity |].
        destruct (stats !! name p); [| reflexivity]. now apply lookup_insert_ne. }
      now rewrite Hsame.
Qed.

(** X27: step 3a counts every roster entry of every game it is given,
    ranked or not: after the loop, the cumulative statistics of a name that
    is not a dedicated-server name are its statistics before plus the kills,
    deaths, assists and headshots of its roster entries and one game per
    entry; a name without statistics gets none, and the statistics of a
    dedicated-server name are not touched. *)
Theorem stats_games_totals (gs : list game) (stats : gmap string game_stats) (n : string) :
  stats_games gs stats !! n =
    if is_dedicated_server n then stats !! n
    else add_appearances (appearances n gs) <$> stats !! n.
Proof. rewrite stats_games_concat. apply stats_players_totals. Qed.
